(** * Awesome-TODO: the TODO record engine

    A shallow embedding of the record engine of the extension
    (src/utils.ts, src/provider.ts, src/extension.ts):

    - JavaScript strings are modelled as [string] (sequences of code units
      below 256); whitespace, case folding and line terminators are those of
      ECMAScript restricted to that range;
    - the five regular expressions of the source are values of a small
      regular-expression type, run by a backtracking matcher that follows
      the ECMAScript matching rules (greedy and lazy quantifiers, capture
      groups, positive lookahead, [^] and [$] without the [m] flag, the [i]
      flag);
    - the two JSON stores are lists of records; [load] returns the list and
      [save] replaces it;
    - prompts ([showInputBox], [showQuickPick]) are answered by values given
      as arguments to the command that asks. *)

From Stdlib Require Import List String Ascii Bool Arith ZArith Lia.
From Stdlib Require Import DecimalString DecimalPos DecimalZ.
Import ListNotations.

Local Open Scope string_scope.
Local Open Scope list_scope.

(** ** JavaScript string primitives *)

Module JsString.

(** [WhiteSpace] and [LineTerminator] code units below 256: TAB, LF, VT, FF,
    CR, SP and NBSP.  This is the class of [\s] and of [trim]. *)
Definition isSpace (c : ascii) : bool :=
  match c with
  | "009"%char | "010"%char | "011"%char | "012"%char | "013"%char
  | " "%char | "160"%char => true
  | _ => false
  end.

(** [LineTerminator]: the characters [.] does not match. *)
Definition isLineTerminator (c : ascii) : bool :=
  match c with
  | "010"%char | "013"%char => true
  | _ => false
  end.

Definition isDot (c : ascii) : bool := negb (isLineTerminator c).

Definition toUpperChar (c : ascii) : ascii :=
  let n := nat_of_ascii c in
  if ((97 <=? n) && (n <=? 122))%nat then ascii_of_nat (n - 32) else c.

Definition toLowerChar (c : ascii) : ascii :=
  let n := nat_of_ascii c in
  if ((65 <=? n) && (n <=? 90))%nat then ascii_of_nat (n + 32)
  else if ((192 <=? n) && (n <=? 222) && negb (n =? 215))%nat
       then ascii_of_nat (n + 32)
  else c.

Fixpoint trimStartL (l : list ascii) : list ascii :=
  match l with
  | c :: tl => if isSpace c then trimStartL tl else l
  | [] => []
  end.

Definition trimEndL (l : list ascii) : list ascii :=
  rev (trimStartL (rev l)).

Definition trimL (l : list ascii) : list ascii := trimEndL (trimStartL l).

(** [s.trim()] *)
Definition trim (s : string) : string :=
  string_of_list_ascii (trimL (list_ascii_of_string s)).

(** [s.toLowerCase()] *)
Definition toLowerCase (s : string) : string :=
  string_of_list_ascii (map toLowerChar (list_ascii_of_string s)).

(** [s.includes(c)] for a one-character needle *)
Definition includesChar (c : ascii) (s : string) : bool :=
  existsb (Ascii.eqb c) (list_ascii_of_string s).

(** [s.indexOf(t)], [None] standing for [-1] *)
Definition indexOf (s t : string) : option nat := String.index 0 t s.

(** [s.substring(a, b)] for [a <= b] *)
Definition slice (a b : nat) (l : list ascii) : list ascii :=
  firstn (b - a) (skipn a l).

(** A string is falsy exactly when it is empty. *)
Definition truthy (s : string) : bool := negb (String.eqb s "").

(** Template-literal rendering of an integer-valued Number (plain decimal:
    the Number is below 10^21 in absolute value) *)
Definition showZ (z : Z) : string := NilZero.string_of_int (Z.to_int z).

End JsString.
Import JsString.

(** ** Regular expressions *)

Module Regex.

(** The fragment of the ECMAScript pattern language that the source uses.
    Quantifiers [*] and [*?] are only ever applied to a character class
    ([\s*], [.*], [.*?]), so [Star] takes a class. *)
Inductive regex : Type :=
| Lit (c : ascii)                          (* a literal character *)
| Class (p : ascii -> bool)                (* [\s], [.], [[:\-]] *)
| Empty
| Seq (r1 r2 : regex)
| Alt (r1 r2 : regex)                      (* r1|r2 *)
| Star (greedy : bool) (p : ascii -> bool) (* p* or p*? *)
| Group (n : nat) (r : regex)              (* n-th capture group *)
| Look (r : regex)                         (* (?=r) *)
| Bol                                      (* ^ *)
| Eol.                                     (* $ *)

(** [r?] (greedy) *)
Definition Opt (r : regex) : regex := Alt r Empty.

Record MatchState : Type := mkState {
  endIndex : nat;                        (* position reached in the input *)
  rest : list ascii;                     (* input from that position on *)
  captures : list (nat * (nat * nat))    (* group -> [start, end), latest first *)
}.

Definition Continuation : Type := MatchState -> option MatchState.

(** Character comparison under the [i] flag (Canonicalize); the literals
    of the patterns below are ASCII, for which upper-casing the letters a-z
    is all there is to it. *)
Definition charEqI (c d : ascii) : bool :=
  Ascii.eqb (toUpperChar c) (toUpperChar d).

(** The quantifier loop over a class: the greedy loop tries one more
    character before the continuation, the lazy loop the continuation
    first. *)
Fixpoint star (greedy : bool) (p : ascii -> bool) (k : Continuation)
    (i : nat) (l : list ascii) (caps : list (nat * (nat * nat)))
    : option MatchState :=
  match l with
  | c :: tl =>
      if p c then
        if greedy then
          match star greedy p k (S i) tl caps with
          | Some r => Some r
          | None => k (mkState i l caps)
          end
        else
          match k (mkState i l caps) with
          | Some r => Some r
          | None => star greedy p k (S i) tl caps
          end
      else k (mkState i l caps)
  | [] => k (mkState i [] caps)
  end.

(** The backtracking matcher, in continuation-passing style: [m r k st]
    matches [r] at [st] and hands every way of doing so, in priority order,
    to [k] until [k] succeeds. *)
Fixpoint m (r : regex) (k : Continuation) (st : MatchState)
    : option MatchState :=
  match r with
  | Lit c =>
      match rest st with
      | d :: tl =>
          if charEqI c d then k (mkState (S (endIndex st)) tl (captures st))
          else None
      | [] => None
      end
  | Class p =>
      match rest st with
      | d :: tl =>
          if p d then k (mkState (S (endIndex st)) tl (captures st))
          else None
      | [] => None
      end
  | Empty => k st
  | Seq r1 r2 => m r1 (fun st' => m r2 k st') st
  | Alt r1 r2 =>
      match m r1 k st with
      | Some res => Some res
      | None => m r2 k st
      end
  | Star greedy p => star greedy p k (endIndex st) (rest st) (captures st)
  | Group n r =>
      m r (fun st' =>
             k (mkState (endIndex st') (rest st')
                        ((n, (endIndex st, endIndex st')) :: captures st')))
        st
  | Look r =>
      match m r Some st with
      | Some st' => k (mkState (endIndex st) (rest st) (captures st'))
      | None => None
      end
  | Bol => if (endIndex st =? 0)%nat then k st else None
  | Eol => match rest st with [] => k st | _ :: _ => None end
  end.

(** The result of a successful [exec]: [index], the end of the match (the
    new [lastIndex] of a global expression) and the captures. *)
Record MatchResult : Type := mkResult {
  index : nat;
  lastIndex : nat;
  groups : list (nat * (nat * nat))
}.

(** Leftmost search: try the pattern at position [i], then at [i+1], ... up
    to and including the end of the input. *)
Fixpoint search (r : regex) (i : nat) (l : list ascii) : option MatchResult :=
  match m r Some (mkState i l []) with
  | Some st => Some (mkResult i (endIndex st) (captures st))
  | None =>
      match l with
      | [] => None
      | _ :: tl => search r (S i) tl
      end
  end.

(** [RegExpBuiltinExec] started at [lastIndex] on input [l]. *)
Definition execFrom (r : regex) (l : list ascii) (lastIdx : nat)
    : option MatchResult :=
  if (List.length l <? lastIdx)%nat then None else search r lastIdx (skipn lastIdx l).

(** [r.exec(s)] for an expression without the [g] flag. *)
Definition exec (r : regex) (s : string) : option MatchResult :=
  execFrom r (list_ascii_of_string s) 0.

(** [r.test(s)] *)
Definition test (r : regex) (s : string) : bool :=
  match exec r s with Some _ => true | None => false end.

Fixpoint lookupGroup (n : nat) (caps : list (nat * (nat * nat)))
    : option (nat * nat) :=
  match caps with
  | (k, span) :: tl => if (k =? n)%nat then Some span else lookupGroup n tl
  | [] => None
  end.

(** [match[n]] for [n >= 1]; [None] is [undefined]. *)
Definition group (l : list ascii) (res : MatchResult) (n : nat)
    : option (list ascii) :=
  match lookupGroup n (groups res) with
  | Some (a, b) => Some (slice a b l)
  | None => None
  end.

(** [match[0]] *)
Definition matched (l : list ascii) (res : MatchResult) : list ascii :=
  slice (index res) (lastIndex res) l.

(** [s.replace(r, "")] for an expression without the [g] flag. *)
Definition replaceEmpty (r : regex) (s : string) : string :=
  let l := list_ascii_of_string s in
  match execFrom r l 0 with
  | Some res =>
      string_of_list_ascii (firstn (index res) l ++ skipn (lastIndex res) l)
  | None => s
  end.

(** [s.match(r)] for an expression without the [g] flag: the matched text. *)
Definition matchText (r : regex) (s : string) : option string :=
  match exec r s with
  | Some res => Some (string_of_list_ascii (matched (list_ascii_of_string s) res))
  | None => None
  end.

End Regex.
Import Regex.

(** ** The patterns of the source *)

Definition isColonDash (c : ascii) : bool :=
  match c with
  | ":"%char | "-"%char => true
  | _ => false
  end.

(** [\s*] *)
Definition ws : regex := Star true isSpace.

(** [TODO] (under the [i] flag) *)
Definition kwTODO : regex :=
  Seq (Lit "T"%char) (Seq (Lit "O"%char) (Seq (Lit "D"%char) (Lit "O"%char))).

(** [((\/\/)|#)] with the numbers of its two groups *)
Definition prefixG (n1 n2 : nat) : regex :=
  Group n1 (Alt (Group n2 (Seq (Lit "/"%char) (Lit "/"%char))) (Lit "#"%char)).

(** [(\/\/|#)\s*TODO[:\-]?], the first alternative of the lookahead *)
Definition nextTodo : regex :=
  Seq (Group 4 (Alt (Seq (Lit "/"%char) (Lit "/"%char)) (Lit "#"%char)))
      (Seq ws (Seq kwTODO (Opt (Class isColonDash)))).

(** [(?=(\/\/|#)\s*TODO[:\-]?|$)] *)
Definition lookNext : regex := Look (Alt nextTodo Eol).

(** [/((\/\/)|#)\s*TODO[:\-]?\s*(.*?)(?=(\/\/|#)\s*TODO[:\-]?|$)/gi] *)
Definition todoRegex : regex :=
  Seq (prefixG 1 2)
      (Seq ws (Seq kwTODO (Seq (Opt (Class isColonDash))
         (Seq ws (Seq (Group 3 (Star false isDot)) lookNext))))).

(** [/^((\/\/)|#)\s*TODO[:\-]?\s*/i], the detection test of the code-action
    and code-lens providers and the pattern of the two [replace] calls *)
Definition detectRegex : regex :=
  Seq Bol (Seq (prefixG 1 2) (Seq ws (Seq kwTODO
     (Seq (Opt (Class isColonDash)) ws)))).

(** [/^(\s* )((\/\/)|#)\s*TODO[:\-]?.*$/i] (the blank before the first
    closing parenthesis is not part of the pattern) *)
Definition commentRegex : regex :=
  Seq Bol (Seq (Group 1 ws) (Seq (prefixG 2 3) (Seq ws (Seq kwTODO
     (Seq (Opt (Class isColonDash)) (Seq (Star true isDot) Eol)))))).

(** [/((\/\/)|#)\s*TODO[:\-]?.*$/i] *)
Definition todoCommentRegex : regex :=
  Seq (prefixG 1 2) (Seq ws (Seq kwTODO
     (Seq (Opt (Class isColonDash)) (Seq (Star true isDot) Eol)))).

(** [/^(\s* )/] (same remark) *)
Definition indentRegex : regex := Seq Bol (Group 1 ws).

(** ** Data model (src/utils.ts) *)

Record User : Type := mkUser {
  name : string;
  email : string
}.

Inductive TodoType : Type := local | remote.

(** Optional fields of the interface are [option]s, [None] being
    [undefined]. *)
Record Todo : Type := mkTodo {
  file : string;
  line : Z;
  column : option Z;
  type : TodoType;
  message : string;
  id : option string;
  author : option User;
  assignees : option (list User);
  createdAt : option string;
  updatedAt : option string
}.

Definition TodoType_eqb (a b : TodoType) : bool :=
  match a, b with
  | local, local | remote, remote => true
  | _, _ => false
  end.

(** [a === b] on values that are a string or [undefined] *)
Definition optStringEqb (a b : option string) : bool :=
  match a, b with
  | Some x, Some y => String.eqb x y
  | None, None => true
  | _, _ => false
  end.

(** ** The host document and its edits *)

Record TextDocument : Type := mkDocument {
  fsPath : string;
  languageId : string;
  lines : list string
}.

Definition lineCount (d : TextDocument) : Z := Z.of_nat (List.length (lines d)).

(** [document.lineAt(n).text]; [None] when the editor throws on an
    illegal line number. *)
Definition lineAt (d : TextDocument) (n : Z) : option string :=
  if (n <? 0)%Z then None else nth_error (lines d) (Z.to_nat n).

Definition setLines (d : TextDocument) (ls : list string) : TextDocument :=
  mkDocument (fsPath d) (languageId d) ls.

(** [edit.delete(uri, line.rangeIncludingLineBreak || line.range)]: the line
    goes with its terminator; the last line of a document has none, so only
    its text goes. *)
Definition deleteLine (d : TextDocument) (n : nat) : TextDocument :=
  if (S n =? List.length (lines d))%nat
  then setLines d (firstn n (lines d) ++ [""])
  else setLines d (firstn n (lines d) ++ skipn (S n) (lines d)).

(** [edit.delete(uri, new Range(n, a, n, b))] *)
Definition deleteRange (d : TextDocument) (n a b : nat) : TextDocument :=
  match nth_error (lines d) n with
  | Some t =>
      let l := list_ascii_of_string t in
      setLines d (firstn n (lines d)
                  ++ [string_of_list_ascii (firstn a l ++ skipn b l)]
                  ++ skipn (S n) (lines d))
  | None => d
  end.

(** [edit.insert(uri, line.range.start, text + "\n")] for a [text] that
    holds no line terminator: one new line, before line [n].  (The editor
    splits an inserted text at the line terminators it holds.) *)
Definition insertLineBefore (d : TextDocument) (n : nat) (text : string)
    : TextDocument :=
  setLines d (firstn n (lines d) ++ [text] ++ skipn n (lines d)).

(** ** Identity discovery (getGitUserInfo) *)

(** What the function reads: whether a workspace folder is open and the
    output of the two [git config] commands ([None] when [execSync]
    throws). *)
Record GitEnv : Type := mkGitEnv {
  hasWorkspaceFolder : bool;
  gitUserName : option string;
  gitUserEmail : option string
}.

Definition getGitUserInfo (env : GitEnv) : option User :=
  if negb (hasWorkspaceFolder env) then None
  else
    match gitUserName env with
    | None => None
    | Some rawName =>
        let gitName := trim rawName in
        match gitUserEmail env with
        | None => None
        | Some rawEmail =>
            let gitEmail := trim rawEmail in
            if truthy gitName && truthy gitEmail
            then Some (mkUser gitName gitEmail)
            else None
        end
    end.

(** ** Visibility filter (filterVisibleRemoteTodos) *)

Definition isVisibleTo (userEmail : string) (todo : Todo) : bool :=
  TodoType_eqb (type todo) remote
  && ((match author todo with
       | Some a => String.eqb (email a) userEmail
       | None => false
       end)
      || (match assignees todo with
          | Some l => existsb (fun assignee => String.eqb (email assignee) userEmail) l
          | None => false
          end)).

Definition filterVisibleRemoteTodos (todos : list Todo) (userEmail : string)
    : list Todo :=
  filter (isVisibleTo userEmail) todos.

(** ** Team roster *)

Definition addTeamMember (team : list User) (name0 email0 : string)
    : list User * bool :=
  if existsb (fun member => String.eqb (email member) email0) team
  then (team, false)
  else (team ++ [mkUser name0 email0], true).

Definition removeTeamMember (team : list User) (email0 : string)
    : list User * bool :=
  let filteredTeam := filter (fun member => negb (String.eqb (email member) email0)) team in
  if (List.length filteredTeam =? List.length team)%nat
  then (team, false)
  else (filteredTeam, true).

(** ** Prompts *)

(** [showInputBox] with a [validateInput] callback: the box cannot be
    accepted while the callback returns a message, so the command receives
    the first value the user submits that validates, or [undefined] when the
    user gives up.  [typed] lists the values submitted in turn. *)
Fixpoint showInputBox (validateInput : string -> option string)
    (typed : list string) : option string :=
  match typed with
  | [] => None
  | v :: more =>
      match validateInput v with
      | None => Some v
      | Some _ => showInputBox validateInput more
      end
  end.

(** ** parseInt *)

Definition digitValue (c : ascii) : option Z :=
  let n := nat_of_ascii c in
  if ((48 <=? n) && (n <=? 57))%nat then Some (Z.of_nat (n - 48))
  else if ((97 <=? n) && (n <=? 122))%nat then Some (Z.of_nat (n - 87))
  else if ((65 <=? n) && (n <=? 90))%nat then Some (Z.of_nat (n - 55))
  else None.

(** The longest prefix of radix-[R] digits, read as an integer; [None] when
    that prefix is empty. *)
Fixpoint parseDigits (R : Z) (l : list ascii) (acc : option Z) : option Z :=
  match l with
  | c :: tl =>
      match digitValue c with
      | Some v =>
          if (v <? R)%Z
          then parseDigits R tl
                 (Some (match acc with Some a => a * R + v | None => v end)%Z)
          else acc
      | None => acc
      end
  | [] => acc
  end.

(** [parseInt(s)] with no radix argument; [None] is [NaN].  The value is
    the exact integer (a Number rounds it beyond 2^53, which leaves every
    comparison with a line count as it is). *)
Definition parseInt (s : string) : option Z :=
  let l := trimStartL (list_ascii_of_string s) in
  let '(sign, l1) :=
    match l with
    | "-"%char :: tl => ((-1)%Z, tl)
    | "+"%char :: tl => (1%Z, tl)
    | _ => (1%Z, l)
    end in
  let '(R, l2) :=
    match l1 with
    | "0"%char :: "x"%char :: tl => (16%Z, tl)
    | "0"%char :: "X"%char :: tl => (16%Z, tl)
    | _ => (10%Z, l1)
    end in
  match parseDigits R l2 None with
  | Some v => Some (sign * v)%Z
  | None => None
  end.

(** ** Local commands (src/extension.ts) *)

Definition localId (file0 : string) (lineNumber : Z) (col : Z) : string :=
  file0 ++ ":" ++ showZ lineNumber ++ ":" ++ showZ col.

(** The [while ((match = todoRegex.exec(lineText)) !== null)] loop.  Each
    turn is one [exec] of the global expression from its [lastIndex]; a turn
    keeps the annotation when its trimmed message is not empty.  [None]
    means the loop has not ended within [fuel] turns. *)
Fixpoint scanTodos (fuel : nat) (file0 : string) (lineNumber : Z)
    (lineText : list ascii) (lastIdx : nat) : option (list Todo) :=
  match fuel with
  | O => None
  | S fuel' =>
      match execFrom todoRegex lineText lastIdx with
      | None => Some []
      | Some res =>
          match group lineText res 3 with
          | None => None
          | Some g =>
              let message0 := trim (string_of_list_ascii g) in
              match scanTodos fuel' file0 lineNumber lineText (lastIndex res) with
              | None => None
              | Some more =>
                  if truthy message0 then
                    Some (mkTodo file0 lineNumber (Some (Z.of_nat (index res)))
                            local message0
                            (Some (localId file0 lineNumber (Z.of_nat (index res))))
                            None None None None :: more)
                  else Some more
              end
          end
      end
  end.

(** The annotations of one line: the loop run from [lastIndex = 0] with one
    turn more than the line has characters. *)
Definition extractTodos (file0 : string) (lineNumber : Z) (lineText : string)
    : option (list Todo) :=
  let l := list_ascii_of_string lineText in
  scanTodos (S (List.length l)) file0 lineNumber l 0.

(** "Fallback for single TODO if regex doesn't match" *)
Definition fallbackTodo (file0 : string) (lineNumber : Z) (text : string) : Todo :=
  let message0 := trim (replaceEmpty detectRegex text) in
  mkTodo file0 lineNumber None local message0
    (Some (localId file0 lineNumber 0)) None None None None.

(** "Smart line removal": the whole line when it only holds the comment,
    the comment alone otherwise. *)
Definition removeTodoComment (document : TextDocument) (lineNumber : nat)
    (lineText : string) : TextDocument :=
  if test commentRegex (trim lineText) then deleteLine document lineNumber
  else
    match matchText todoCommentRegex lineText with
    | Some m0 =>
        match indexOf lineText m0 with
        | Some commentStart =>
            deleteRange document lineNumber commentStart
              (commentStart + String.length m0)
        | None => document
        end
    | None => document
    end.

(** [localTodo.convertTodo]: the result is the new local store and the
    edited document; [None] when [lineAt] throws (nothing has happened
    yet at that point). *)
Definition localConvertTodo (document : TextDocument) (lineNumber : Z)
    (text : string) (existingTodos : list Todo)
    : option (list Todo * TextDocument) :=
  let file0 := fsPath document in
  match lineAt document lineNumber with
  | None => None
  | Some lineText =>
      match extractTodos file0 lineNumber lineText with
      | None => None
      | Some scanned =>
          let todos :=
            if (List.length scanned =? 0)%nat
            then scanned ++ [fallbackTodo file0 lineNumber text]
            else scanned in
          let updatedTodos := existingTodos ++ todos in
          Some (updatedTodos,
                removeTodoComment document (Z.to_nat lineNumber) lineText)
      end
  end.

(** The code-action and code-lens providers offer the conversion on a line
    whose trimmed text passes the detection test, and pass that trimmed
    text on. *)
Definition offersConvert (document : TextDocument) (lineNumber : Z)
    : option string :=
  match lineAt document lineNumber with
  | Some lineText =>
      let text := trim lineText in
      if test detectRegex text then Some text else None
  | None => None
  end.

(** [localTodo.removeTodo] *)
Definition localRemoveTodo (document : TextDocument) (lineNumber : Z)
    (todo : Todo) (todos : list Todo) : list Todo :=
  let file0 := fsPath document in
  filter (fun t => negb (String.eqb (file t) file0
                         && Z.eqb (line t) lineNumber
                         && String.eqb (message t) (message todo)))
         todos.

(** The comment written back by [localTodo.editTodo] *)
Definition todoCommentFor (document : TextDocument) (lineText : string)
    (todo : Todo) : string :=
  let l := list_ascii_of_string lineText in
  let indent :=
    match exec indentRegex lineText with
    | Some res =>
        match group l res 1 with
        | Some g => string_of_list_ascii g
        | None => ""
        end
    | None => ""
    end in
  let commentPrefix :=
    if String.eqb (languageId document) "python" then "#" else "//" in
  indent ++ commentPrefix ++ " TODO: " ++ message todo.

(** [localTodo.editTodo], the reverse conversion *)
Definition localEditTodo (document : TextDocument) (lineNumber : Z)
    (todo : Todo) (todos : list Todo) : option (list Todo * TextDocument) :=
  match lineAt document lineNumber with
  | None => None
  | Some lineText =>
      let todoComment := todoCommentFor document lineText todo in
      let document' := insertLineBefore document (Z.to_nat lineNumber) todoComment in
      let file0 := fsPath document in
      let updatedTodos :=
        filter (fun t => negb (String.eqb (file t) file0
                               && Z.eqb (line t) lineNumber))
               todos in
      Some (updatedTodos, document')
  end.

(** The [validateInput] callback of the two Move prompts; the message is
    built from the line count. *)
Definition validateLineNumber (document : TextDocument) (value : string)
    : option string :=
  let invalid :=
    Some ("Please enter a valid line number between 1 and "
          ++ showZ (lineCount document))%string in
  match parseInt value with
  | None => invalid
  | Some num =>
      if ((num <? 1) || (lineCount document <? num))%Z then invalid else None
  end.

(** [todos.findIndex(t => t.id === todo.id)], [None] standing for [-1] *)
Fixpoint findIndexById (todos : list Todo) (todoId : option string)
    : option nat :=
  match todos with
  | [] => None
  | t :: tl =>
      if optStringEqb (id t) todoId then Some O
      else match findIndexById tl todoId with
           | Some i => Some (S i)
           | None => None
           end
  end.

(** In-place update of [todos[i]] for an index in range *)
Fixpoint updateAt (i : nat) (f : Todo -> Todo) (todos : list Todo) : list Todo :=
  match todos, i with
  | [], _ => []
  | t :: tl, O => f t :: tl
  | t :: tl, S j => t :: updateAt j f tl
  end.

Definition setLine (n : Z) (t : Todo) : Todo :=
  mkTodo (file t) n (column t) (type t) (message t) (id t)
         (author t) (assignees t) (createdAt t) (updatedAt t).

Definition setUpdatedAt (now : string) (t : Todo) : Todo :=
  mkTodo (file t) (line t) (column t) (type t) (message t) (id t)
         (author t) (assignees t) (createdAt t) (Some now).

Definition setMessage (msg : string) (t : Todo) : Todo :=
  mkTodo (file t) (line t) (column t) (type t) msg (id t)
         (author t) (assignees t) (createdAt t) (updatedAt t).

Definition setAssignees (l : list User) (t : Todo) : Todo :=
  mkTodo (file t) (line t) (column t) (type t) (message t) (id t)
         (author t) (Some l) (createdAt t) (updatedAt t).

(** [localTodo.moveTodo] *)
Definition localMoveTodo (document : TextDocument) (lineNumber : Z)
    (todo : Todo) (typed : list string) (todos : list Todo) : list Todo :=
  match showInputBox (validateLineNumber document) typed with
  | None => todos
  | Some input =>
      if truthy input then
        match parseInt input with
        | None => todos (* excluded by the validation *)
        | Some num =>
            let newLineNumber := (num - 1)%Z in
            match findIndexById todos (id todo) with
            | Some todoIndex => updateAt todoIndex (setLine newLineNumber) todos
            | None => todos
            end
        end
      else todos
  end.

(** ** Remote commands (src/extension.ts) *)

Definition remoteId (file0 : string) (lineNumber : Z) (nowMs : Z) : string :=
  "remote-" ++ file0 ++ ":" ++ showZ lineNumber ++ ":" ++ showZ nowMs.

(** The record built by [remoteTodo.convertTodo] and [remoteTodo.addTodo];
    [now] is [new Date().toISOString()] and [nowMs] is [Date.now()]. *)
Definition newRemoteTodo (file0 : string) (lineNumber : Z) (message0 : string)
    (userInfo : User) (now : string) (nowMs : Z) : Todo :=
  mkTodo file0 lineNumber None remote message0
    (Some (remoteId file0 lineNumber nowMs))
    (Some userInfo) (Some [userInfo]) (Some now) (Some now).

(** [remoteTodo.convertTodo]: the new remote store and the edited document;
    [None] when [lineAt] throws. *)
Definition remoteConvertTodo (env : GitEnv) (document : TextDocument)
    (lineNumber : Z) (text : string) (now : string) (nowMs : Z)
    (existingTodos : list Todo) : option (list Todo * TextDocument) :=
  match getGitUserInfo env with
  | None => Some (existingTodos, document)
  | Some userInfo =>
      let file0 := fsPath document in
      match lineAt document lineNumber with
      | None => None
      | Some lineText =>
          let message0 := trim (replaceEmpty detectRegex text) in
          if negb (truthy message0) then Some (existingTodos, document)
          else
            let todo := newRemoteTodo file0 lineNumber message0 userInfo now nowMs in
            let updatedTodos := existingTodos ++ [todo] in
            Some (updatedTodos,
                  removeTodoComment document (Z.to_nat lineNumber) lineText)
      end
  end.

(** [remoteTodo.addTodo]: [messageInput] is the answer to the prompt and
    [editor] the active document with the line of its cursor. *)
Definition remoteAddTodo (env : GitEnv) (messageInput : option string)
    (editor : option (TextDocument * Z)) (now : string) (nowMs : Z)
    (existingTodos : list Todo) : list Todo :=
  match getGitUserInfo env with
  | None => existingTodos
  | Some userInfo =>
      match messageInput with
      | None => existingTodos
      | Some message0 =>
          if negb (truthy message0) then existingTodos
          else
            match editor with
            | None => existingTodos
            | Some (document, lineNumber) =>
                existingTodos
                ++ [newRemoteTodo (fsPath document) lineNumber message0
                      userInfo now nowMs]
            end
      end
  end.

(** [remoteTodo.removeTodo] *)
Definition remoteRemoveTodo (todo : Todo) (allRemoteTodos : list Todo)
    : list Todo :=
  filter (fun t => negb (optStringEqb (id t) (id todo))) allRemoteTodos.

(** [remoteTodo.editTodo]: [newMessage] is the answer to the prompt. *)
Definition remoteEditTodo (todo : Todo) (newMessage : option string)
    (now : string) (allRemoteTodos : list Todo) : list Todo :=
  match newMessage with
  | None => allRemoteTodos
  | Some msg =>
      if negb (truthy msg) || String.eqb msg (message todo) then allRemoteTodos
      else
        match findIndexById allRemoteTodos (id todo) with
        | Some todoIndex =>
            updateAt todoIndex (fun t => setUpdatedAt now (setMessage msg t))
              allRemoteTodos
        | None => allRemoteTodos
        end
  end.

(** [remoteTodo.moveTodo] *)
Definition remoteMoveTodo (document : TextDocument) (lineNumber : Z)
    (todo : Todo) (typed : list string) (now : string)
    (allRemoteTodos : list Todo) : list Todo :=
  match showInputBox (validateLineNumber document) typed with
  | None => allRemoteTodos
  | Some input =>
      if truthy input then
        match parseInt input with
        | None => allRemoteTodos (* excluded by the validation *)
        | Some num =>
            let newLineNumber := (num - 1)%Z in
            match findIndexById allRemoteTodos (id todo) with
            | Some todoIndex =>
                updateAt todoIndex
                  (fun t => setUpdatedAt now (setLine newLineNumber t))
                  allRemoteTodos
            | None => allRemoteTodos
            end
        end
      else allRemoteTodos
  end.

(** *** Team management ([remoteTodo.manageTeam]) *)

Inductive TeamOption : Type :=
| TeamAdd
| TeamRemove (member : User)
| TeamView.

Definition teamOptions (teamMembers : list User) : list TeamOption :=
  [TeamAdd] ++ map TeamRemove teamMembers ++ [TeamView].

Definition validateMemberEmail (teamMembers : list User) (value : string)
    : option string :=
  if negb (truthy value) || String.eqb (trim value) "" then Some "Email is required"
  else if negb (includesChar "@" value)
       then Some "Please enter a valid email address"
  else
    let normalizedEmail := trim (toLowerCase value) in
    if existsb (fun m0 => String.eqb (trim (toLowerCase (email m0))) normalizedEmail)
               teamMembers
    then Some "This person is already in the team"
    else None.

(** The answers given to the prompts of [remoteTodo.manageTeam] *)
Record TeamScript : Type := mkTeamScript {
  teamPick : option nat;            (* the option picked, by position *)
  teamEmailTyped : list string;
  teamNameInput : option string
}.

Definition manageTeam (script : TeamScript) (teamMembers : list User)
    : list User :=
  match teamPick script with
  | None => teamMembers
  | Some i =>
      match nth_error (teamOptions teamMembers) i with
      | None => teamMembers
      | Some TeamAdd =>
          match showInputBox (validateMemberEmail teamMembers)
                  (teamEmailTyped script) with
          | None => teamMembers
          | Some memberEmail =>
              if negb (truthy memberEmail) then teamMembers
              else
                match teamNameInput script with
                | None => teamMembers
                | Some memberName =>
                    if negb (truthy memberName) then teamMembers
                    else fst (addTeamMember teamMembers memberName memberEmail)
                end
          end
      | Some (TeamRemove member) =>
          fst (removeTeamMember teamMembers (email member))
      | Some TeamView => teamMembers
      end
  end.

(** *** Assignment ([remoteTodo.assignTodo]) *)

Inductive AssignOption : Type :=
| Remove (user : User)
| AddExisting (user : User)
| AddNew
| ManageTeam.

Definition hasEmail (l : list User) (e : string) : bool :=
  existsb (fun a => String.eqb (email a) e) l.

Definition assignOptions (currentAssignees teamMembers : list User)
    : list AssignOption :=
  map Remove currentAssignees
  ++ map AddExisting
       (filter (fun member => negb (hasEmail currentAssignees (email member)))
               teamMembers)
  ++ [AddNew; ManageTeam].

(** The validation loop of the "add_new" action: at most three failed
    attempts; an empty or missing answer cancels.  [attemptsLeft] is
    [3 - validationAttempts]. *)
Fixpoint askAssigneeEmail (attemptsLeft : nat) (answers : list (option string))
    (currentAssignees : list User) : option string :=
  match attemptsLeft with
  | O => None
  | S remaining =>
      match answers with
      | [] => None
      | None :: _ => None
      | Some assigneeEmail :: more =>
          if negb (truthy assigneeEmail) then None
          else
            let trimmedEmail := trim assigneeEmail in
            if negb (truthy trimmedEmail)
            then askAssigneeEmail remaining more currentAssignees
            else if negb (includesChar "@" trimmedEmail)
            then askAssigneeEmail remaining more currentAssignees
            else
              let normalizedEmail := toLowerCase trimmedEmail in
              if existsb (fun a => String.eqb (trim (toLowerCase (email a)))
                                              normalizedEmail)
                         currentAssignees
              then askAssigneeEmail remaining more currentAssignees
              else Some trimmedEmail
      end
  end.

(** The answers given to the prompts of [remoteTodo.assignTodo] *)
Record AssignScript : Type := mkAssignScript {
  assignPick : option nat;            (* the option picked, by position *)
  emailAnswers : list (option string);
  nameAnswer : option string;
  addToTeamAnswer : option string;
  teamScript : TeamScript
}.

(** [currentAssignees.push(user)]: [currentAssignees] is the record's own
    array when the record has one, a fresh array otherwise. *)
Definition pushAssignee (user : User) (t : Todo) : Todo :=
  match assignees t with
  | Some l => setAssignees (l ++ [user]) t
  | None => t
  end.

(** [remoteTodo.assignTodo]: the new remote store and the new roster. *)
Definition remoteAssignTodo (todo : Todo) (script : AssignScript)
    (now : string) (allRemoteTodos : list Todo) (teamMembers : list User)
    : list Todo * list User :=
  match findIndexById allRemoteTodos (id todo) with
  | None => (allRemoteTodos, teamMembers)
  | Some todoIndex =>
      match nth_error allRemoteTodos todoIndex with
      | None => (allRemoteTodos, teamMembers)
      | Some currentTodo =>
          let currentAssignees :=
            match assignees currentTodo with Some l => l | None => [] end in
          let commit (mutate : Todo -> Todo) (team' : list User) :=
            (updateAt todoIndex (fun t => setUpdatedAt now (mutate t))
               allRemoteTodos, team') in
          match assignPick script with
          | None => (allRemoteTodos, teamMembers)
          | Some i =>
              match nth_error (assignOptions currentAssignees teamMembers) i with
              | None => (allRemoteTodos, teamMembers)
              | Some (AddExisting user) =>
                  commit (pushAssignee user) teamMembers
              | Some AddNew =>
                  match askAssigneeEmail 3 (emailAnswers script)
                          currentAssignees with
                  | None => (allRemoteTodos, teamMembers)
                  | Some assigneeEmail =>
                      match nameAnswer script with
                      | None => (allRemoteTodos, teamMembers)
                      | Some assigneeName =>
                          if negb (truthy assigneeName)
                          then (allRemoteTodos, teamMembers)
                          else
                            let newAssignee :=
                              mkUser (trim assigneeName) assigneeEmail in
                            let team' :=
                              match addToTeamAnswer script with
                              | Some "Yes" =>
                                  fst (addTeamMember teamMembers
                                         (trim assigneeName) assigneeEmail)
                              | _ => teamMembers
                              end in
                            commit (pushAssignee newAssignee) team'
                      end
                  end
              | Some (Remove assigneeToRemove) =>
                  let filteredAssignees :=
                    filter (fun a => negb (String.eqb (email a)
                                             (email assigneeToRemove)))
                           currentAssignees in
                  if (List.length filteredAssignees =? 0)%nat
                  then (allRemoteTodos, teamMembers)
                  else commit (setAssignees filteredAssignees) teamMembers
              | Some ManageTeam =>
                  (allRemoteTodos, manageTeam (teamScript script) teamMembers)
              end
          end
      end
  end.

(** ** Persistence (src/utils.ts) *)

(** What the commands say to the user when a store cannot be reached. *)
Inductive Notice : Type :=
| NoWorkspaceFolder        (* 'No workspace folder found.' *)
| LoadFailed               (* 'Failed to load ...: <error>' *)
| SaveFailed.              (* 'Failed to save ...: <error>' *)

(** [JSON.parse(data)] followed by [Array.isArray]: the parse throws, or the
    value is not an array, or it is an array (taken as it is for an array of
    records, no element is looked at). *)
Inductive Parsed (A : Type) : Type :=
| ParseThrows
| NotAnArray
| ParsedArray (l : list A).

Arguments ParseThrows {A}.
Arguments NotAnArray {A}.
Arguments ParsedArray {A} l.

(** [getWorkspaceFolderForFile]: the first workspace folder whose path the
    file path starts with, else the first workspace folder.  Folders are
    given by their [uri.fsPath]. *)
Definition getWorkspaceFolderForFile (workspaceFolders : list string)
    (filePath : string) : option string :=
  match find (fun folder => String.prefix folder filePath) workspaceFolders with
  | Some folder => Some folder
  | None => hd_error workspaceFolders
  end.

(** [filePath ? getWorkspaceFolderForFile(filePath) : workspaceFolders?.[0]] *)
Definition folderFor (workspaceFolders : list string) (filePath : option string)
    : option string :=
  match filePath with
  | Some p =>
      if truthy p then getWorkspaceFolderForFile workspaceFolders p
      else hd_error workspaceFolders
  | None => hd_error workspaceFolders
  end.

Section Persistence.

(** The parts of the platform the storage functions call: [path.join], the
    JSON codec at the type of the stored array, the content of the disk. *)
Variable FileContent : Type.
Variable pathJoin : string -> string -> string.

(** The disk: what [readFileSync] returns for a path that [existsSync]
    ([None] when it does not), and the paths [writeFileSync] fails on. *)
Record Disk : Type := mkDisk {
  fileAt : string -> option FileContent;
  writeThrows : string -> bool
}.

Definition writeFile (disk : Disk) (path : string) (content : FileContent)
    : Disk :=
  mkDisk (fun p => if String.eqb p path then Some content else fileAt disk p)
         (writeThrows disk).

Section Store.

Variable A : Type.
Variable parse : FileContent -> Parsed A.
Variable stringify : list A -> FileContent.
Variable fileName : string.

(** The body shared by [loadTodos], [loadRemoteTodos] and
    [loadTeamMembers], from the workspace folder on. *)
Definition loadFrom (disk : Disk) (workspaceFolder : string)
    : list A * option Notice :=
  let todoFile := pathJoin workspaceFolder fileName in
  match fileAt disk todoFile with
  | None => ([], None)
  | Some data =>
      match parse data with
      | ParseThrows => ([], Some LoadFailed)
      | NotAnArray => ([], None)
      | ParsedArray todos => (todos, None)
      end
  end.

(** The body shared by [saveTodos], [saveRemoteTodos] and
    [saveTeamMembers], from the workspace folder on. *)
Definition saveTo (disk : Disk) (workspaceFolder : string) (todos : list A)
    : Disk * option Notice :=
  let todoFile := pathJoin workspaceFolder fileName in
  if writeThrows disk todoFile then (disk, Some SaveFailed)
  else (writeFile disk todoFile (stringify todos), None).

(** A load or a save for a file path; [quiet] is set for [loadTeamMembers],
    which says nothing when there is no workspace folder. *)
Definition load (quiet : bool) (workspaceFolders : list string)
    (filePath : option string) (disk : Disk) : list A * option Notice :=
  match folderFor workspaceFolders filePath with
  | None => ([], if quiet then None else Some NoWorkspaceFolder)
  | Some workspaceFolder => loadFrom disk workspaceFolder
  end.

Definition save (workspaceFolders : list string) (filePath : option string)
    (todos : list A) (disk : Disk) : Disk * option Notice :=
  match folderFor workspaceFolders filePath with
  | None => (disk, Some NoWorkspaceFolder)
  | Some workspaceFolder => saveTo disk workspaceFolder todos
  end.

End Store.

Variable parseTodos : FileContent -> Parsed Todo.
Variable stringifyTodos : list Todo -> FileContent.
Variable parseUsers : FileContent -> Parsed User.
Variable stringifyUsers : list User -> FileContent.

Definition loadTodos := load Todo parseTodos ".localtodos.json" false.
Definition saveTodos := save Todo stringifyTodos ".localtodos.json".
Definition loadRemoteTodos := load Todo parseTodos ".remotetodos.json" false.
Definition saveRemoteTodos := save Todo stringifyTodos ".remotetodos.json".
Definition loadTeamMembers := load User parseUsers ".awesometeam.json" true.
Definition saveTeamMembers := save User stringifyUsers ".awesometeam.json".

(** [addTeamMember] and [removeTeamMember] on the disk: the roster of the
    first workspace folder is loaded, changed and saved. *)
Definition addTeamMemberOnDisk (workspaceFolders : list string)
    (name0 email0 : string) (disk : Disk) : Disk * bool :=
  let existingTeam := fst (loadTeamMembers workspaceFolders None disk) in
  let '(team', added) := addTeamMember existingTeam name0 email0 in
  if added then (fst (saveTeamMembers workspaceFolders None team' disk), true)
  else (disk, false).

Definition removeTeamMemberOnDisk (workspaceFolders : list string)
    (email0 : string) (disk : Disk) : Disk * bool :=
  let existingTeam := fst (loadTeamMembers workspaceFolders None disk) in
  let '(team', removed) := removeTeamMember existingTeam email0 in
  if removed then (fst (saveTeamMembers workspaceFolders None team' disk), true)
  else (disk, false).

End Persistence.

(** ** The read cache (class TodoCache, src/extension.ts) *)

Module TodoCache.

Section Cache.

Variable T : Type.

Record CacheEntry : Type := mkEntry {
  data : T;
  timestamp : Z;
  ttl : Z
}.

(** The [Map] of the class: keys with their entries, in insertion order. *)
Definition Cache : Type := list (string * CacheEntry).

Definition DEFAULT_TTL : Z := 2000.

(** [Map.prototype.get], [delete] and [set] *)
Fixpoint mapGet (key : string) (cache : Cache) : option CacheEntry :=
  match cache with
  | [] => None
  | (k, e) :: more => if String.eqb k key then Some e else mapGet key more
  end.

Definition mapDelete (key : string) (cache : Cache) : Cache :=
  filter (fun ke => negb (String.eqb (fst ke) key)) cache.

Fixpoint mapSet (key : string) (entry : CacheEntry) (cache : Cache) : Cache :=
  match cache with
  | [] => [(key, entry)]
  | (k, e) :: more =>
      if String.eqb k key then (k, entry) :: more
      else (k, e) :: mapSet key entry more
  end.

(** [get(key)] at time [now = Date.now()]: the data and the cache after the
    call (an expired entry is deleted). *)
Definition get (now : Z) (key : string) (cache : Cache) : option T * Cache :=
  match mapGet key cache with
  | None => (None, cache)
  | Some entry =>
      if (ttl entry <? now - timestamp entry)%Z
      then (None, mapDelete key cache)
      else (Some (data entry), cache)
  end.

(** [set(key, data, ttl = DEFAULT_TTL)] at time [now] *)
Definition set (now : Z) (key : string) (data0 : T) (ttl0 : option Z)
    (cache : Cache) : Cache :=
  mapSet key
    (mkEntry data0 now (match ttl0 with Some t => t | None => DEFAULT_TTL end))
    cache.

Definition clear (cache : Cache) : Cache := [].

(** [cleanup()] at time [now]: the expired keys are collected, then
    deleted. *)
Definition cleanup (now : Z) (cache : Cache) : Cache :=
  let keysToDelete :=
    map fst (filter (fun ke => (ttl (snd ke) <? now - timestamp (snd ke))%Z)
                    cache) in
  fold_left (fun c key => mapDelete key c) keysToDelete cache.

End Cache.

End TodoCache.

(** ** The .gitignore entries (ensureGitIgnoreEntries, src/extension.ts) *)

Definition newline : ascii := "010"%char.

(** [s.split('\n')] *)
Fixpoint splitLines (l : list ascii) : list (list ascii) :=
  match l with
  | [] => [[]]
  | c :: tl =>
      if Ascii.eqb c newline then [] :: splitLines tl
      else
        match splitLines tl with
        | cur :: more => (c :: cur) :: more
        | [] => [[c]]
        end
  end.

(** [lines.join('\n')] *)
Fixpoint joinLines (ls : list (list ascii)) : list ascii :=
  match ls with
  | [] => []
  | [x] => x
  | x :: more => x ++ newline :: joinLines more
  end.

Definition isLineOf (entries : list string) (ln : list ascii) : bool :=
  existsb (fun e => String.eqb (string_of_list_ascii ln) e) entries.

(** The list of lines after the two checks, and [needsUpdate]. *)
Definition gitIgnoreLines (gitignoreContent : string)
    : list (list ascii) * bool :=
  let lines0 := map trimL (splitLines (list_ascii_of_string gitignoreContent)) in
  let '(lines1, needs1) :=
    if negb (existsb (isLineOf [".localtodos.json"; "*.localtodos.json"]) lines0)
    then (lines0 ++ [list_ascii_of_string ".localtodos.json"], true)
    else (lines0, false) in
  if negb (existsb (isLineOf [".awesometeam.json"; "*.awesometeam.json"]) lines1)
  then (lines1 ++ [list_ascii_of_string ".awesometeam.json"], true)
  else (lines1, needs1).

(** [ensureGitIgnoreEntries] for a workspace whose .gitignore holds
    [existing] ([None] when it cannot be opened): the content written, or
    [None] when nothing is written. *)
Definition ensureGitIgnoreEntries (existing : option string) : option string :=
  let gitignoreContent := match existing with Some c => c | None => "" end in
  let '(lines0, needsUpdate) := gitIgnoreLines gitignoreContent in
  if needsUpdate then
    Some (string_of_list_ascii
            (joinLines (filter (fun ln => negb (List.length ln =? 0)%nat) lines0)
             ++ [newline]))
  else None.

(** ** The pickers of the reverse conversion (src/extension.ts) *)

(** [localTodo.editTodosInFile]: [pick] is the position of the item chosen
    in the quick pick ([None] when it is dismissed); [None] as result when
    [lineAt] throws in the command triggered. *)
Definition localEditTodosInFile (document : TextDocument) (pick : option nat)
    (todos : list Todo) : option (list Todo * TextDocument) :=
  let fileTodos :=
    filter (fun todo => String.eqb (file todo) (fsPath document)) todos in
  if (List.length fileTodos =? 0)%nat then Some (todos, document)
  else
    match pick with
    | None => Some (todos, document)
    | Some i =>
        match nth_error fileTodos i with
        | None => Some (todos, document)
        | Some selected => localEditTodo document (line selected) selected todos
        end
    end.

(** [localTodo.editTodosInLine] *)
Definition localEditTodosInLine (document : TextDocument) (lineNumber : Z)
    (lineTodos : list Todo) (pick : option nat) (todos : list Todo)
    : option (list Todo * TextDocument) :=
  match pick with
  | None => Some (todos, document)
  | Some i =>
      match nth_error lineTodos i with
      | None => Some (todos, document)
      | Some selected => localEditTodo document (line selected) selected todos
      end
  end.

(** ** The code actions (src/provider.ts) *)

(** The arguments a code action passes to its command *)
Inductive CommandArguments : Type :=
| ArgsText (document : TextDocument) (lineNumber : Z) (text : string)
| ArgsTodo (document : TextDocument) (lineNumber : Z) (todo : Todo)
| ArgsTodos (document : TextDocument) (lineNumber : Z) (todos : list Todo)
| ArgsDocument (document : TextDocument)
| ArgsNone.

Record CodeAction : Type := mkCodeAction {
  actionTitle : string;           (* the title of the action *)
  command : string;               (* command.command *)
  commandTitle : string;          (* command.title *)
  arguments : CommandArguments    (* command.arguments *)
}.

Definition showNat (n : nat) : string := showZ (Z.of_nat n).

(** The actions for the stored local records of the file *)
Definition localEditActions (document : TextDocument) (lineNumber : Z)
    (localTodos : list Todo) : list CodeAction :=
  let fileLocalTodos :=
    filter (fun todo => String.eqb (file todo) (fsPath document)) localTodos in
  if (0 <? List.length fileLocalTodos)%nat then
    let lineLocalTodos :=
      filter (fun todo => Z.eqb (line todo) lineNumber) fileLocalTodos in
    match lineLocalTodos with
    | [] =>
        [mkCodeAction "Edit Local TODOs" "localTodo.editTodosInFile"
           "Edit Local TODOs" (ArgsDocument document)]
    | [todo0] =>
        [mkCodeAction "Edit Local TODO" "localTodo.editTodo"
           "Edit Local TODO" (ArgsTodo document lineNumber todo0)]
    | _ =>
        [mkCodeAction
           ("Edit Local TODOs (" ++ showNat (List.length lineLocalTodos) ++ ")")
           "localTodo.editTodosInLine" "Edit Local TODOs"
           (ArgsTodos document lineNumber lineLocalTodos)]
    end
  else [].

(** The actions for the stored remote records the user may see *)
Definition remoteEditActions (document : TextDocument) (lineNumber : Z)
    (env : GitEnv) (allRemoteTodos : list Todo) : list CodeAction :=
  match getGitUserInfo env with
  | None => []
  | Some userInfo =>
      let visibleRemoteTodos :=
        filter (fun todo => String.eqb (file todo) (fsPath document))
               (filterVisibleRemoteTodos allRemoteTodos (email userInfo)) in
      if (0 <? List.length visibleRemoteTodos)%nat then
        let lineRemoteTodos :=
          filter (fun todo => Z.eqb (line todo) lineNumber) visibleRemoteTodos in
        match lineRemoteTodos with
        | [] =>
            [mkCodeAction "List Remote TODOs" "remoteTodo.listTodos"
               "List Remote TODOs" ArgsNone]
        | [todo0] =>
            [mkCodeAction "Edit Remote TODO" "remoteTodo.editTodo"
               "Edit Remote TODO" (ArgsTodo document lineNumber todo0);
             mkCodeAction "Assign Remote TODO" "remoteTodo.assignTodo"
               "Assign Remote TODO" (ArgsTodo document lineNumber todo0)]
        | _ =>
            [mkCodeAction
               ("Edit Remote TODOs (" ++ showNat (List.length lineRemoteTodos)
                ++ ")")
               "remoteTodo.listTodos" "List Remote TODOs" ArgsNone]
        end
      else []
  end.

(** [provideCodeActions] for the line [range.start.line]; [localTodos] and
    [allRemoteTodos] are what the two stores load.  The outer [None] is a
    throw of [lineAt], the inner one [undefined]. *)
Definition provideCodeActions (document : TextDocument) (lineNumber : Z)
    (env : GitEnv) (localTodos allRemoteTodos : list Todo)
    : option (option (list CodeAction)) :=
  match lineAt document lineNumber with
  | None => None
  | Some lineText =>
      let text := trim lineText in
      let convertActions :=
        if test detectRegex text then
          [mkCodeAction "Convert to Local TODO" "localTodo.convertTodo"
             "Convert to Local TODO" (ArgsText document lineNumber text);
           mkCodeAction "Convert to Remote TODO" "remoteTodo.convertTodo"
             "Convert to Remote TODO" (ArgsText document lineNumber text)]
        else [] in
      let actions :=
        convertActions
        ++ localEditActions document lineNumber localTodos
        ++ remoteEditActions document lineNumber env allRemoteTodos in
      Some (if (0 <? List.length actions)%nat then Some actions else None)
  end.

(** * Vocabulary of the statements and sample inputs *)

(** The rule of the specification: the viewer is the author or one of the
    assignees, by exact comparison of the emails. *)
Definition viewerConcerned (userEmail : string) (t : Todo) : Prop :=
  (exists a, author t = Some a /\ email a = userEmail)
  \/ (exists l a, assignees t = Some l /\ In a l /\ email a = userEmail).

(** A remote record of author a@x.com with assignees a@x.com and b@x.com *)
Definition recordAB : Todo :=
  mkTodo "/p/a.ts" 3 None remote "fix bug" (Some "remote-/p/a.ts:3:1700")
    (Some (mkUser "A" "a@x.com"))
    (Some [mkUser "A" "a@x.com"; mkUser "B" "b@x.com"])
    (Some "2024-01-01T00:00:00.000Z") (Some "2024-01-01T00:00:00.000Z").

(** A record of type local that carries an author and an assignee *)
Definition localLookalike : Todo :=
  mkTodo "/p/a.ts" 3 None local "fix bug" (Some "/p/a.ts:3:0")
    (Some (mkUser "A" "a@x.com")) (Some [mkUser "B" "b@x.com"]) None None.

(** The key of the local removal: file, line and message *)
Definition sameTriple (document : TextDocument) (lineNumber : Z) (todo : Todo)
    (t : Todo) : Prop :=
  file t = fsPath document /\ line t = lineNumber /\ message t = message todo.

(** A document of five lines and two local records of its line 4 *)
Definition docA : TextDocument :=
  mkDocument "/p/a.ts" "typescript"
    ["function f() {"; "  // TODO: fix bug"; "  return 1;"; "}"; ""].

Definition localFix : Todo :=
  mkTodo "/p/a.ts" 4 (Some 2%Z) local "fix bug" (Some "/p/a.ts:4:2")
    None None None None.

Definition localOther : Todo :=
  mkTodo "/p/a.ts" 4 (Some 20%Z) local "add test" (Some "/p/a.ts:4:20")
    None None None None.

(** A workspace where both [git config] commands fail *)
Definition noGit : GitEnv := mkGitEnv true None None.

(** What a move does to the record it finds: the line changes, the stamp is
    refreshed for a remote record, everything else stays. *)
Definition movedFrom (t : Todo) (newLine : Z) (stamp : option string)
    (t' : Todo) : Prop :=
  line t' = newLine /\ updatedAt t' = stamp
  /\ id t' = id t /\ message t' = message t /\ author t' = author t
  /\ file t' = file t /\ column t' = column t /\ type t' = type t
  /\ assignees t' = assignees t /\ createdAt t' = createdAt t.

(** The store after a successful move: same length, one record changed. *)
Definition movedAt (todos : list Todo) (i : nat) (newLine : Z)
    (stamp : Todo -> option string) (todos' : list Todo) : Prop :=
  List.length todos' = List.length todos
  /\ (forall j, j <> i -> nth_error todos' j = nth_error todos j)
  /\ exists t t', nth_error todos i = Some t /\ nth_error todos' i = Some t'
                  /\ movedFrom t newLine (stamp t) t'.

(** The record has at least one assignee. *)
Definition hasAssignee (t : Todo) : Prop :=
  exists u l, assignees t = Some (u :: l).

(** The invariant of the remote store *)
Definition assigneeInvariant (todos : list Todo) : Prop :=
  Forall (fun t => type t = remote -> hasAssignee t) todos.

(** Removing [user] from [l] would leave nobody. *)
Definition leavesNobody (user : User) (l : list User) : Prop :=
  forall a, In a l -> email a = email user.

(** A remote record whose author is its only assignee, and the answers of a
    user who picks the first option of the assignment menu *)
Definition recordA : Todo :=
  mkTodo "/p/a.ts" 3 None remote "fix bug" (Some "remote-/p/a.ts:3:1700")
    (Some (mkUser "A" "a@x.com")) (Some [mkUser "A" "a@x.com"])
    (Some "2024-01-01T00:00:00.000Z") (Some "2024-01-01T00:00:00.000Z").

Definition pickFirst : AssignScript :=
  mkAssignScript (Some 0%nat) [] None None (mkTeamScript None [] None).

(** [matches r st st']: [r] can take the matcher from [st] to [st'].  The
    lookahead is atomic: it keeps the captures of the first way its body
    matches. *)
Fixpoint matches (r : regex) (st st' : MatchState) : Prop :=
  match r with
  | Lit c =>
      exists d, rest st = d :: rest st' /\ charEqI c d = true
                /\ endIndex st' = S (endIndex st) /\ captures st' = captures st
  | Class p =>
      exists d, rest st = d :: rest st' /\ p d = true
                /\ endIndex st' = S (endIndex st) /\ captures st' = captures st
  | Empty => st' = st
  | Seq r1 r2 => exists mid, matches r1 st mid /\ matches r2 mid st'
  | Alt r1 r2 => matches r1 st st' \/ matches r2 st st'
  | Star _ p =>
      exists run, rest st = run ++ rest st' /\ forallb p run = true
                  /\ endIndex st' = endIndex st + List.length run
                  /\ captures st' = captures st
  | Group n r =>
      exists st1, matches r st st1
                  /\ st' = mkState (endIndex st1) (rest st1)
                             ((n, (endIndex st, endIndex st1)) :: captures st1)
  | Look r =>
      exists st1, m r Some st = Some st1
                  /\ st' = mkState (endIndex st) (rest st) (captures st1)
  | Bol => endIndex st = 0 /\ st' = st
  | Eol => rest st = [] /\ st' = st
  end.

(** The word TODO, in any case, at the head of [l] *)
Definition keywordAhead (l : list ascii) : bool :=
  match l with
  | t :: o :: d :: o' :: _ =>
      charEqI "T" t && charEqI "O" o && charEqI "D" d && charEqI "O" o'
  | _ => false
  end.

(** What follows a comment prefix, [//] or [#], at the head of [l] *)
Definition afterPrefix (l : list ascii) : option (list ascii) :=
  match l with
  | c :: tl =>
      if Ascii.eqb c "#" then Some tl
      else if Ascii.eqb c "/" then
        match tl with
        | c2 :: tl2 => if Ascii.eqb c2 "/" then Some tl2 else None
        | [] => None
        end
      else None
  | [] => None
  end.

(** In the words of the specification, "a prefix+TODO occurrence" starts
    [l]: a comment prefix, white space if any, then the word TODO. *)
Definition todoMarkerAt (l : list ascii) : bool :=
  match afterPrefix l with
  | Some tl => keywordAhead (trimStartL tl)
  | None => false
  end.

(** The matcher state sits at its position in the line [l]. *)
Definition atPos (l : list ascii) (st : MatchState) : Prop :=
  rest st = skipn (endIndex st) l /\ (endIndex st <= List.length l)%nat.

(** The local record of an annotation found at column [c] *)
Definition annotationAt (file0 : string) (lineNumber : Z) (c : nat)
    (message0 : string) : Todo :=
  mkTodo file0 lineNumber (Some (Z.of_nat c)) local message0
    (Some (localId file0 lineNumber (Z.of_nat c))) None None None None.

(** [scannedFrom f n l lb todos]: [todos] are annotations of the line [l]
    found from left to right at or after position [lb].  Each one starts at
    a marker, at column [c]; its message is the trimmed text of [a, e),
    which lies after the marker and ends at the first position that is the
    end of the line or the start of the next marker; the annotations after
    it are found from [e] on. *)
Fixpoint scannedFrom (file0 : string) (lineNumber : Z) (l : list ascii)
    (lb : nat) (todos : list Todo) : Prop :=
  match todos with
  | [] => True
  | t :: more =>
      exists c a e,
        (lb <= c)%nat /\ (c + 5 <= a)%nat /\ (a <= e <= List.length l)%nat
        /\ t = annotationAt file0 lineNumber c
                 (trim (string_of_list_ascii (slice a e l)))
        /\ message t <> ""
        /\ todoMarkerAt (skipn c l) = true
        /\ (todoMarkerAt (skipn e l) = true \/ e = List.length l)
        /\ (forall p, (a <= p < e)%nat -> todoMarkerAt (skipn p l) = false)
        /\ scannedFrom file0 lineNumber l e more
  end.

(** The ids of the records of a store *)
Definition ids (todos : list Todo) : list (option string) := map id todos.


Definition todoA : Todo := annotationAt "/p/a.ts" 0 0 "a".
Definition todoB : Todo := annotationAt "/p/a.ts" 0 0 "b".

(** The same two comment lines above two statements, and the document after
    the conversion of the first line and after that of the second *)
Definition docPair : TextDocument :=
  mkDocument "/p/a.ts" "typescript"
    ["// TODO: a"; "// TODO: b"; "f();"; "g();"].

Definition docPairRest : TextDocument :=
  mkDocument "/p/a.ts" "typescript" ["// TODO: b"; "f();"; "g();"].

Definition docPairEnd : TextDocument :=
  mkDocument "/p/a.ts" "typescript" ["f();"; "g();"].

(** Documents and records of the reverse conversion *)
Definition docB : TextDocument :=
  mkDocument "/p/a.ts" "typescript" ["function f() {"; "  return 1;"; "}"].

Definition docPy : TextDocument :=
  mkDocument "/p/a.py" "python" ["def f():"; "    return 1"].

Definition fixBug : Todo := annotationAt "/p/a.ts" 1 2 "fix bug".
Definition addTest : Todo := annotationAt "/p/a.ts" 1 19 "add test".
Definition elsewhere : Todo := annotationAt "/p/a.ts" 2 0 "tidy up".

(** A document whose first line is a TODO comment without a message *)
Definition docEmpty : TextDocument :=
  mkDocument "/p/a.ts" "typescript" ["// TODO:"; "f();"].

(** The roster holds no email twice. *)
Definition rosterUnique (team : list User) : Prop := NoDup (map email team).


(** A workspace with a git identity, and the answers of a user who adds
    carol@x.com to the roster *)
Definition gitAlice : GitEnv := mkGitEnv true (Some "Alice ") (Some " alice@x.com").

Definition teamAB : list User := [mkUser "A" "a@x.com"; mkUser "B" "b@x.com"].

Definition addCarol : TeamScript :=
  mkTeamScript (Some 0%nat) ["carol"; "A@x.com"; "carol@x.com"] (Some "Carol").


(** A local record as a conversion of line [lineNumber] of [document]
    creates it. *)
Definition localRecordOf (document : TextDocument) (lineNumber : Z) (t : Todo)
    : Prop :=
  type t = local /\ file t = fsPath document /\ line t = lineNumber
  /\ author t = None /\ assignees t = None
  /\ createdAt t = None /\ updatedAt t = None.

(** The cache holds a key once, like the [Map] it stands for. *)
Definition cacheWellFormed {T : Type} (cache : TodoCache.Cache T) : Prop :=
  NoDup (map fst cache).

(** The entry is expired at time [now]. *)
Definition expiredAt {T : Type} (now : Z) (entry : TodoCache.CacheEntry T)
    : Prop :=
  (TodoCache.ttl T entry < now - TodoCache.timestamp T entry)%Z.

(** A cache of two entries, of which "a" is expired at time 5000 *)
Definition cacheTwo : TodoCache.Cache nat :=
  [("a", TodoCache.mkEntry nat 1%nat 1000 2000);
   ("b", TodoCache.mkEntry nat 2%nat 4000 2000)].

(** A platform for the examples: a file holds the array itself, and
    [path.join] puts a slash between its arguments. *)
Definition joinSlash (a b : string) : string := (a ++ "/" ++ b)%string.

Definition emptyDisk (FileContent : Type) : Disk FileContent :=
  mkDisk FileContent (fun _ => None) (fun _ => false).

(** One of [entries] is a line of [content], white space at its ends
    apart. *)
Definition listsEntry (entries : list string) (content : string) : bool :=
  existsb (isLineOf entries)
          (map trimL (splitLines (list_ascii_of_string content))).

(** A line as the function writes it: trimmed, and without a newline *)
Definition cleanLine (ln : list ascii) : Prop :=
  trimL ln = ln /\ Forall (fun c => c <> newline) ln.

(** The text holds no line terminator, as the text of an editor line. *)
Definition singleLine (s : string) : Prop :=
  forallb isDot (list_ascii_of_string s) = true.

(** The two conversions offered on a line whose trimmed text is [text] *)
Definition convertActionsFor (document : TextDocument) (lineNumber : Z)
    (text : string) : list CodeAction :=
  [mkCodeAction "Convert to Local TODO" "localTodo.convertTodo"
     "Convert to Local TODO" (ArgsText document lineNumber text);
   mkCodeAction "Convert to Remote TODO" "remoteTodo.convertTodo"
     "Convert to Remote TODO" (ArgsText document lineNumber text)].

(** A document with a comment line, a stored record on its line 2 and a
    remote record of another author on the same line *)
Definition docC : TextDocument :=
  mkDocument "/p/a.ts" "typescript"
    ["function f() {"; "  // TODO: fix bug"; "  return 1;"; "}"].

Definition storedAt2 : Todo := annotationAt "/p/a.ts" 2 2 "check".

Definition remoteOfBob : Todo :=
  mkTodo "/p/a.ts" 2 None remote "review" (Some "remote-/p/a.ts:2:1700")
    (Some (mkUser "Bob" "bob@x.com")) (Some [mkUser "Bob" "bob@x.com"])
    (Some "2024-01-01T00:00:00.000Z") (Some "2024-01-01T00:00:00.000Z").

(** No two assignees of the record share an email. *)
Definition assigneesUnique (t : Todo) : Prop :=
  match assignees t with
  | Some l => NoDup (map email l)
  | None => True
  end.

(** The answers of a user who adds a new assignee, carol@x.com, at the
    third attempt *)
Definition addNewCarol : AssignScript :=
  mkAssignScript (Some 2%nat)
    [Some "carol"; Some " A@X.com "; Some " carol@x.com "; Some "dave@x.com"]
    (Some "Carol") (Some "No") (mkTeamScript None [] None).

(** The first character, if any, is not white space. *)
Definition noLeadSpace (l : list ascii) : Prop :=
  match l with
  | [] => True
  | c :: _ => isSpace c = false
  end.


(** * Properties *)

(** ** Equality tests *)

Lemma optStringEqb_eq (a b : option string) :
  optStringEqb a b = true <-> a = b.
Proof.
  destruct a as [x|], b as [y|]; simpl; split; intros H;
    try discriminate; try reflexivity.
  - apply String.eqb_eq in H. now subst.
  - injection H as ->. apply String.eqb_refl.
Qed.

Lemma optStringEqb_neq (a b : option string) :
  optStringEqb a b = false <-> a <> b.
Proof.
  rewrite <- optStringEqb_eq. destruct (optStringEqb a b); split; intros H;
    try discriminate; try reflexivity; try congruence.
Qed.

Lemma TodoType_eqb_eq (a b : TodoType) : TodoType_eqb a b = true <-> a = b.
Proof. destruct a, b; simpl; split; intros H; congruence. Qed.

Lemma hasEmail_spec (l : list User) (e : string) :
  hasEmail l e = true <-> exists a, In a l /\ email a = e.
Proof.
  unfold hasEmail. rewrite existsb_exists.
  split; intros [a [Hin He]]; exists a; split; auto.
  - now apply String.eqb_eq.
  - now apply String.eqb_eq.
Qed.

(** ** Visibility *)

Section Visibility.

Variable userEmail : string.

Lemma isVisibleTo_spec (t : Todo) :
  isVisibleTo userEmail t = true <-> type t = remote /\ viewerConcerned userEmail t.
Proof.
  unfold isVisibleTo, viewerConcerned.
  rewrite andb_true_iff, orb_true_iff, TodoType_eqb_eq.
  split; intros [Ht H]; split; auto.
  - destruct H as [H|H].
    + left. destruct (author t) as [a|]; [|discriminate].
      exists a. split; auto. now apply String.eqb_eq.
    + right. destruct (assignees t) as [l|]; [|discriminate].
      apply (hasEmail_spec l userEmail) in H. destruct H as [a [Hin He]].
      now exists l, a.
  - destruct H as [[a [Ha He]]|[l [a [Hl [Hin He]]]]].
    + left. rewrite Ha. now apply String.eqb_eq.
    + right. rewrite Hl. apply (hasEmail_spec l userEmail). now exists a.
Qed.

Lemma filterVisible_In (todos : list Todo) (t : Todo) :
  In t (filterVisibleRemoteTodos todos userEmail)
  <-> In t todos /\ type t = remote /\ viewerConcerned userEmail t.
Proof.
  unfold filterVisibleRemoteTodos. rewrite filter_In, isVisibleTo_spec.
  tauto.
Qed.

End Visibility.

(** C5: on a list of remote records the filter keeps exactly the records
    whose author or one of whose assignees has the viewer's email (exact,
    case-sensitive comparison); a record of author a@x.com with assignees
    a@x.com and b@x.com is shown to b@x.com, not to c@x.com and not to
    B@x.com. *)
Theorem C5_visibility_filter :
  (forall (todos : list Todo) (userEmail : string),
     Forall (fun t => type t = remote) todos ->
     forall t, In t (filterVisibleRemoteTodos todos userEmail)
               <-> In t todos /\ viewerConcerned userEmail t)
  /\ filterVisibleRemoteTodos [recordAB] "b@x.com" = [recordAB]
  /\ filterVisibleRemoteTodos [recordAB] "c@x.com" = []
  /\ filterVisibleRemoteTodos [recordAB] "B@x.com" = [].
Proof.
  split; [|repeat split; reflexivity].
  intros todos userEmail Hall t. rewrite filterVisible_In.
  rewrite Forall_forall in Hall.
  split; [tauto|]. intros [Hin Hv]. auto.
Qed.

Lemma C5_visibility_filter_witness :
  In recordAB (filterVisibleRemoteTodos [recordAB] "b@x.com")
  <-> In recordAB [recordAB] /\ viewerConcerned "b@x.com" recordAB.
Proof.
  apply (proj1 C5_visibility_filter [recordAB] "b@x.com").
  constructor; [reflexivity|constructor].
Defined.

(** C10: every record the filter returns has type remote; a record of
    another type is left out whatever its author and assignees are. *)
Theorem C10_visible_only_remote :
  forall (todos : list Todo) (userEmail : string),
    Forall (fun t => type t = remote) (filterVisibleRemoteTodos todos userEmail)
    /\ (forall t, type t <> remote ->
                  ~ In t (filterVisibleRemoteTodos todos userEmail))
    /\ filterVisibleRemoteTodos [localLookalike] "a@x.com" = []
    /\ filterVisibleRemoteTodos [localLookalike] "b@x.com" = [].
Proof.
  intros todos userEmail. split; [|split; [|split; reflexivity]].
  - apply Forall_forall. intros t Hin.
    apply filterVisible_In in Hin. tauto.
  - intros t Hne Hin. apply filterVisible_In in Hin. tauto.
Qed.

Lemma C10_visible_only_remote_witness :
  ~ In localLookalike (filterVisibleRemoteTodos [localLookalike; recordAB] "a@x.com").
Proof.
  apply (proj1 (proj2 (C10_visible_only_remote [localLookalike; recordAB] "a@x.com"))).
  discriminate.
Defined.

(** ** Removal *)

Section Removal.

Variable document : TextDocument.
Variable lineNumber : Z.
Variable todo : Todo.

Lemma tripleTest_spec (t : Todo) :
  (String.eqb (file t) (fsPath document) && Z.eqb (line t) lineNumber
   && String.eqb (message t) (message todo)) = true
  <-> sameTriple document lineNumber todo t.
Proof.
  unfold sameTriple.
  rewrite !andb_true_iff, !String.eqb_eq, Z.eqb_eq. tauto.
Qed.

Lemma localRemoveTodo_In (todos : list Todo) (t : Todo) :
  In t (localRemoveTodo document lineNumber todo todos)
  <-> In t todos /\ ~ sameTriple document lineNumber todo t.
Proof.
  unfold localRemoveTodo. rewrite filter_In, negb_true_iff.
  rewrite <- tripleTest_spec, not_true_iff_false. tauto.
Qed.

Lemma remoteRemoveTodo_In (todos : list Todo) (t : Todo) :
  In t (remoteRemoveTodo todo todos) <-> In t todos /\ id t <> id todo.
Proof.
  unfold remoteRemoveTodo. rewrite filter_In, negb_true_iff, optStringEqb_neq.
  tauto.
Qed.

End Removal.

Lemma filter_all_true {A : Type} (f : A -> bool) (l : list A) :
  (forall x, In x l -> f x = true) -> filter f l = l.
Proof.
  induction l as [|a l IH]; simpl; intros H; [reflexivity|].
  rewrite (H a (or_introl eq_refl)). f_equal. apply IH. auto.
Qed.

(** C7: the local removal drops exactly the records with the file, the line
    and the message asked for, the remote removal exactly the records with
    the id asked for; nothing else decides the deletion, and when no record
    matches the store is left as it is. *)
Theorem C7_remove :
  forall (document : TextDocument) (lineNumber : Z) (todo : Todo)
         (todos : list Todo),
    (forall t, In t (localRemoveTodo document lineNumber todo todos)
               <-> In t todos /\ ~ sameTriple document lineNumber todo t)
    /\ (forall t, In t (remoteRemoveTodo todo todos)
                  <-> In t todos /\ id t <> id todo)
    /\ ((forall t, In t todos -> ~ sameTriple document lineNumber todo t) ->
        localRemoveTodo document lineNumber todo todos = todos)
    /\ ((forall t, In t todos -> id t <> id todo) ->
        remoteRemoveTodo todo todos = todos).
Proof.
  intros document lineNumber todo todos.
  split; [|split; [|split]].
  - intros t. apply localRemoveTodo_In.
  - intros t. apply remoteRemoveTodo_In.
  - intros H. apply filter_all_true. intros t Hin.
    apply negb_true_iff, not_true_iff_false.
    rewrite tripleTest_spec. now apply H.
  - intros H. apply filter_all_true. intros t Hin.
    apply negb_true_iff, optStringEqb_neq. now apply H.
Qed.

Lemma C7_remove_witness :
  localRemoveTodo docA 4 localFix [localOther] = [localOther]
  /\ remoteRemoveTodo recordAB [localOther] = [localOther].
Proof.
  split.
  - apply (proj1 (proj2 (proj2 (C7_remove docA 4 localFix [localOther])))).
    intros t [<-|[]] [_ [_ H]]. discriminate H.
  - apply (proj2 (proj2 (proj2 (C7_remove docA 4 recordAB [localOther])))).
    intros t [<-|[]] H. discriminate H.
Defined.

(** ** Identity *)

Lemma getGitUserInfo_None (env : GitEnv) :
  getGitUserInfo env = None
  <-> hasWorkspaceFolder env = false
      \/ gitUserName env = None
      \/ gitUserEmail env = None
      \/ (exists n, gitUserName env = Some n /\ trim n = "")
      \/ (exists e, gitUserEmail env = Some e /\ trim e = "").
Proof.
  unfold getGitUserInfo, truthy.
  destruct (hasWorkspaceFolder env); simpl; [|intuition].
  destruct (gitUserName env) as [n|]; [|intuition].
  destruct (gitUserEmail env) as [e|]; [|intuition].
  destruct (String.eqb_spec (trim n) "") as [Hn|Hn]; simpl.
  - split; auto. intros _. right. right. right. left. now exists n.
  - destruct (String.eqb_spec (trim e) "") as [He|He]; simpl.
    + split; auto. intros _. do 4 right. now exists e.
    + split; [discriminate|].
      intros [H|[H|[H|[[n' [H1 H2]]|[e' [H1 H2]]]]]]; try discriminate.
      * injection H1 as <-. contradiction.
      * injection H1 as <-. contradiction.
Qed.

(** C9: without a git identity the remote conversion ends at once: the
    remote store and the document are returned as they were; the same holds
    for the direct creation of a remote record. *)
Theorem C9_remote_convert_needs_identity :
  forall (env : GitEnv) (document : TextDocument) (lineNumber : Z)
         (text now : string) (nowMs : Z) (existingTodos : list Todo),
    getGitUserInfo env = None ->
    remoteConvertTodo env document lineNumber text now nowMs existingTodos
      = Some (existingTodos, document)
    /\ forall messageInput editor,
         remoteAddTodo env messageInput editor now nowMs existingTodos
           = existingTodos.
Proof.
  intros env document lineNumber text now nowMs existingTodos Hnone.
  unfold remoteConvertTodo, remoteAddTodo. rewrite Hnone. auto.
Qed.

Lemma C9_remote_convert_needs_identity_witness :
  remoteConvertTodo noGit docA 1 "// TODO: fix bug" "2024-01-01T00:00:00.000Z"
    1700 [recordAB] = Some ([recordAB], docA)
  /\ forall messageInput editor,
       remoteAddTodo noGit messageInput editor "2024-01-01T00:00:00.000Z"
         1700 [recordAB] = [recordAB].
Proof.
  apply (C9_remote_convert_needs_identity noGit docA 1 "// TODO: fix bug"
           "2024-01-01T00:00:00.000Z" 1700 [recordAB]).
  reflexivity.
Defined.

(** ** In-place updates and lookups by id *)

Lemma updateAt_length (i : nat) (f : Todo -> Todo) (todos : list Todo) :
  List.length (updateAt i f todos) = List.length todos.
Proof.
  revert i. induction todos as [|t tl IH]; intros [|i]; simpl; auto.
Qed.

Lemma updateAt_nth_same (i : nat) (f : Todo -> Todo) (todos : list Todo) (t : Todo) :
  nth_error todos i = Some t -> nth_error (updateAt i f todos) i = Some (f t).
Proof.
  revert i. induction todos as [|a tl IH]; intros [|i]; simpl; intros H;
    try discriminate.
  - now injection H as ->.
  - now apply IH.
Qed.

Lemma updateAt_nth_other (i j : nat) (f : Todo -> Todo) (todos : list Todo) :
  i <> j -> nth_error (updateAt i f todos) j = nth_error todos j.
Proof.
  revert i j. induction todos as [|a tl IH]; intros [|i] [|j] Hne; simpl; auto;
    try congruence.
Qed.


Lemma updateAt_In (i : nat) (f : Todo -> Todo) (todos : list Todo) (t' : Todo) :
  In t' (updateAt i f todos) -> In t' todos \/ exists t, In t todos /\ t' = f t.
Proof.
  revert i. induction todos as [|a tl IH]; intros [|i]; simpl; auto.
  - intros [<-|H]; [right; exists a; auto|auto].
  - intros [<-|H]; [auto|].
    destruct (IH i H) as [H'|[t [Hin ->]]]; [auto|].
    right. exists t. auto.
Qed.

Lemma findIndexById_Some (todos : list Todo) (x : option string) (i : nat) :
  findIndexById todos x = Some i ->
  exists t, nth_error todos i = Some t /\ id t = x
            /\ forall j u, (j < i)%nat -> nth_error todos j = Some u -> id u <> x.
Proof.
  revert i. induction todos as [|a tl IH]; simpl; intros i H; [discriminate|].
  destruct (optStringEqb (id a) x) eqn:E.
  - injection H as <-. exists a. split; [reflexivity|].
    split; [now apply optStringEqb_eq|]. intros j u Hj. lia.
  - destruct (findIndexById tl x) as [k|]; [|discriminate].
    injection H as <-. destruct (IH k eq_refl) as [t [Hn [Hid Hfirst]]].
    exists t. split; [exact Hn|]. split; [exact Hid|].
    intros [|j] u Hj Hu; simpl in Hu.
    + injection Hu as <-. now apply optStringEqb_neq.
    + apply (Hfirst j u); [lia|exact Hu].
Qed.

Lemma findIndexById_None (todos : list Todo) (x : option string) :
  findIndexById todos x = None <-> forall t, In t todos -> id t <> x.
Proof.
  induction todos as [|a tl IH]; simpl.
  - split; [intros _ t []|reflexivity].
  - destruct (optStringEqb (id a) x) eqn:E.
    + split; [discriminate|]. intros H. exfalso.
      apply (H a); auto. now apply optStringEqb_eq.
    + destruct (findIndexById tl x) as [k|].
      * split; [discriminate|]. intros H.
        assert (Hk : Some k = None) by (apply IH; intros t Hin; apply H; auto).
        discriminate Hk.
      * split; auto. intros _ t [<-|Hin].
        -- now apply optStringEqb_neq.
        -- now apply (proj1 IH).
Qed.

(** ** Prompts with validation *)

Lemma showInputBox_Some (v : string -> option string) (typed : list string)
    (x : string) :
  showInputBox v typed = Some x -> In x typed /\ v x = None.
Proof.
  induction typed as [|a tl IH]; simpl; [discriminate|].
  destruct (v a) eqn:E.
  - intros H. destruct (IH H). auto.
  - intros H. injection H as <-. auto.
Qed.

Lemma showInputBox_all_invalid (v : string -> option string) (typed : list string) :
  Forall (fun x => v x <> None) typed -> showInputBox v typed = None.
Proof.
  induction 1 as [|a tl Ha _ IH]; simpl; [reflexivity|].
  destruct (v a); [exact IH|now elim Ha].
Qed.

(** ** Move *)

Lemma validateLineNumber_None (document : TextDocument) (value : string) :
  validateLineNumber document value = None
  <-> exists num, parseInt value = Some num
                  /\ (1 <= num <= lineCount document)%Z.
Proof.
  unfold validateLineNumber. destruct (parseInt value) as [num|].
  - destruct ((num <? 1)%Z || (lineCount document <? num)%Z) eqn:E.
    + split; [discriminate|]. intros [n [Hn Hr]]. injection Hn as <-.
      apply orb_true_iff in E. destruct E as [E|E]; apply Z.ltb_lt in E; lia.
    + split; auto. intros _. exists num. split; auto.
      apply orb_false_iff in E. destruct E as [E1 E2].
      apply Z.ltb_ge in E1, E2. lia.
  - split; [discriminate|]. intros [n [Hn _]]. discriminate.
Qed.

Lemma updateAt_movedAt (todos : list Todo) (i : nat) (t : Todo) (newLine : Z)
    (f : Todo -> Todo) (stamp : Todo -> option string) :
  nth_error todos i = Some t ->
  movedFrom t newLine (stamp t) (f t) ->
  movedAt todos i newLine stamp (updateAt i f todos).
Proof.
  intros Hn Hf. split; [apply updateAt_length|].
  split.
  - intros j Hj. apply updateAt_nth_other. congruence.
  - exists t, (f t). split; [exact Hn|]. split; [|exact Hf].
    now apply updateAt_nth_same.
Qed.

Section Move.

Variable document : TextDocument.
Variable lineNumber : Z.
Variable todo : Todo.
Variable typed : list string.
Variable now : string.
Variable todos : list Todo.

Lemma move_rejected :
  Forall (fun v => validateLineNumber document v <> None) typed ->
  localMoveTodo document lineNumber todo typed todos = todos
  /\ remoteMoveTodo document lineNumber todo typed now todos = todos.
Proof.
  intros H. unfold localMoveTodo, remoteMoveTodo.
  now rewrite (showInputBox_all_invalid _ _ H).
Qed.

Lemma move_unknown_id :
  (forall t, In t todos -> id t <> id todo) ->
  localMoveTodo document lineNumber todo typed todos = todos
  /\ remoteMoveTodo document lineNumber todo typed now todos = todos.
Proof.
  intros H. apply findIndexById_None in H.
  unfold localMoveTodo, remoteMoveTodo. rewrite H.
  destruct (showInputBox _ typed) as [input|]; auto.
  destruct (truthy input); auto. destruct (parseInt input); auto.
Qed.

Lemma move_accepted (input : string) (i : nat) :
  showInputBox (validateLineNumber document) typed = Some input ->
  findIndexById todos (id todo) = Some i ->
  exists num t,
    parseInt input = Some num /\ (1 <= num <= lineCount document)%Z
    /\ nth_error todos i = Some t /\ id t = id todo
    /\ movedAt todos i (num - 1) updatedAt
         (localMoveTodo document lineNumber todo typed todos)
    /\ movedAt todos i (num - 1) (fun _ => Some now)
         (remoteMoveTodo document lineNumber todo typed now todos).
Proof.
  intros Hbox Hidx.
  destruct (showInputBox_Some _ _ _ Hbox) as [_ Hvalid].
  apply validateLineNumber_None in Hvalid. destruct Hvalid as [num [Hnum Hrange]].
  destruct (findIndexById_Some _ _ _ Hidx) as [t [Hn [Hid _]]].
  exists num, t. repeat (split; [assumption|]).
  assert (Htruthy : truthy input = true).
  { unfold truthy. destruct (String.eqb_spec input ""); [|reflexivity].
    subst input. discriminate Hnum. }
  unfold localMoveTodo, remoteMoveTodo. rewrite Hbox, Htruthy, Hnum, Hidx.
  split; apply updateAt_movedAt with (t := t); auto;
    unfold movedFrom; simpl; repeat split.
Qed.

End Move.

(** C6: the move prompt accepts a value exactly when parseInt reads from it
    a number between 1 and the line count; 0 and the line count plus one are
    refused; when every value typed is refused, or when no record has the
    id, both stores are left as they are; otherwise the first record with
    the id gets the line number minus one and, in the remote store, a fresh
    updatedAt, while its id, message, author and other fields, and all other
    records, stay as they were. *)
Theorem C6_move :
  forall (document : TextDocument) (lineNumber : Z) (todo : Todo)
         (typed : list string) (now : string) (todos : list Todo),
    (forall value,
        validateLineNumber document value = None
        <-> exists num, parseInt value = Some num
                        /\ (1 <= num <= lineCount document)%Z)
    /\ (forall value num,
           parseInt value = Some num ->
           (num = 0 \/ num = lineCount document + 1)%Z ->
           validateLineNumber document value <> None)
    /\ validateLineNumber document "0" <> None
    /\ (Forall (fun v => validateLineNumber document v <> None) typed ->
        localMoveTodo document lineNumber todo typed todos = todos
        /\ remoteMoveTodo document lineNumber todo typed now todos = todos)
    /\ ((forall t, In t todos -> id t <> id todo) ->
        localMoveTodo document lineNumber todo typed todos = todos
        /\ remoteMoveTodo document lineNumber todo typed now todos = todos)
    /\ (forall input i,
           showInputBox (validateLineNumber document) typed = Some input ->
           findIndexById todos (id todo) = Some i ->
           exists num t,
             parseInt input = Some num /\ (1 <= num <= lineCount document)%Z
             /\ nth_error todos i = Some t /\ id t = id todo
             /\ movedAt todos i (num - 1) updatedAt
                  (localMoveTodo document lineNumber todo typed todos)
             /\ movedAt todos i (num - 1) (fun _ => Some now)
                  (remoteMoveTodo document lineNumber todo typed now todos)).
Proof.
  intros document lineNumber todo typed now todos.
  split; [intros value; apply validateLineNumber_None|].
  split.
  { intros value num Hp Hr Hv. apply validateLineNumber_None in Hv.
    destruct Hv as [n [Hn Hrange]]. rewrite Hp in Hn. injection Hn as <-.
    pose proof (Nat2Z.is_nonneg (List.length (lines document))).
    unfold lineCount in *. lia. }
  split.
  { intros Hv. apply validateLineNumber_None in Hv.
    destruct Hv as [n [Hn Hrange]]. vm_compute in Hn. injection Hn as <-. lia. }
  split; [apply move_rejected|].
  split; [apply move_unknown_id|].
  intros input i. apply move_accepted.
Qed.

Lemma C6_move_witness :
  (localMoveTodo docA 4 localFix ["0"; "6"] [localOther; localFix]
     = [localOther; localFix]
   /\ remoteMoveTodo docA 4 localFix ["0"; "6"] "2024-02-02T00:00:00.000Z"
        [localOther; localFix] = [localOther; localFix])
  /\ exists num t,
       parseInt "3" = Some num /\ (1 <= num <= lineCount docA)%Z
       /\ nth_error [localOther; localFix] 1 = Some t /\ id t = id localFix
       /\ movedAt [localOther; localFix] 1 (num - 1) updatedAt
            (localMoveTodo docA 4 localFix ["9"; "3"] [localOther; localFix])
       /\ movedAt [localOther; localFix] 1 (num - 1)
            (fun _ => Some "2024-02-02T00:00:00.000Z")
            (remoteMoveTodo docA 4 localFix ["9"; "3"]
               "2024-02-02T00:00:00.000Z" [localOther; localFix]).
Proof.
  split.
  - apply (proj1 (proj2 (proj2 (proj2
             (C6_move docA 4 localFix ["0"; "6"] "2024-02-02T00:00:00.000Z"
                [localOther; localFix]))))).
    repeat constructor; discriminate.
  - apply (proj2 (proj2 (proj2 (proj2 (proj2
             (C6_move docA 4 localFix ["9"; "3"] "2024-02-02T00:00:00.000Z"
                [localOther; localFix]))))) "3" 1%nat); reflexivity.
Defined.

(** ** Assignees *)

Lemma updateAt_Forall (P : Todo -> Prop) (i : nat) (f : Todo -> Todo)
    (todos : list Todo) :
  Forall P todos -> (forall t, In t todos -> P t -> P (f t)) ->
  Forall P (updateAt i f todos).
Proof.
  intros Hall Hf. rewrite Forall_forall in *. intros t' Hin.
  destruct (updateAt_In _ _ _ _ Hin) as [H|[t [H ->]]]; auto.
Qed.

Lemma filter_Forall (P : Todo -> Prop) (f : Todo -> bool) (todos : list Todo) :
  Forall P todos -> Forall P (filter f todos).
Proof.
  rewrite !Forall_forall. intros H t Hin. apply filter_In in Hin.
  apply H, Hin.
Qed.

Lemma newRemoteTodo_assignees (file0 : string) (lineNumber : Z)
    (message0 : string) (userInfo : User) (now : string) (nowMs : Z) :
  let t := newRemoteTodo file0 lineNumber message0 userInfo now nowMs in
  type t = remote /\ author t = Some userInfo /\ assignees t = Some [userInfo].
Proof. simpl. auto. Qed.

Lemma pushAssignee_hasAssignee (user : User) (t : Todo) :
  hasAssignee t -> hasAssignee (pushAssignee user t).
Proof.
  intros [u [l H]]. unfold pushAssignee. rewrite H.
  exists u, (l ++ [user]). reflexivity.
Qed.

Lemma setUpdatedAt_hasAssignee (now : string) (t : Todo) :
  hasAssignee t -> hasAssignee (setUpdatedAt now t).
Proof. intros [u [l H]]. exists u, l. exact H. Qed.

Section AssigneeInvariant.

Variable now : string.
Variable nowMs : Z.
Variable todos : list Todo.
Hypothesis Hinv : assigneeInvariant todos.

Lemma invariant_app_new (file0 : string) (lineNumber : Z) (message0 : string)
    (userInfo : User) :
  assigneeInvariant
    (todos ++ [newRemoteTodo file0 lineNumber message0 userInfo now nowMs]).
Proof.
  apply Forall_app. split; [exact Hinv|].
  constructor; [|constructor]. intros _. exists userInfo, []. reflexivity.
Qed.

Lemma remoteConvertTodo_invariant (env : GitEnv) (document : TextDocument)
    (lineNumber : Z) (text : string) (todos' : list Todo)
    (document' : TextDocument) :
  remoteConvertTodo env document lineNumber text now nowMs todos
    = Some (todos', document') ->
  assigneeInvariant todos'.
Proof.
  unfold remoteConvertTodo. destruct (getGitUserInfo env) as [u|].
  - destruct (lineAt document lineNumber) as [lineText|]; [|discriminate].
    destruct (negb (truthy _)); intros H; injection H as <- _.
    + exact Hinv.
    + apply invariant_app_new.
  - intros H. injection H as <- _. exact Hinv.
Qed.

Lemma remoteAddTodo_invariant (env : GitEnv) (messageInput : option string)
    (editor : option (TextDocument * Z)) :
  assigneeInvariant (remoteAddTodo env messageInput editor now nowMs todos).
Proof.
  unfold remoteAddTodo. destruct (getGitUserInfo env) as [u|]; [|exact Hinv].
  destruct messageInput as [msg|]; [|exact Hinv].
  destruct (negb (truthy msg)); [exact Hinv|].
  destruct editor as [[document lineNumber]|]; [|exact Hinv].
  apply invariant_app_new.
Qed.

Lemma remoteRemoveTodo_invariant (todo : Todo) :
  assigneeInvariant (remoteRemoveTodo todo todos).
Proof. apply filter_Forall, Hinv. Qed.

Lemma remoteEditTodo_invariant (todo : Todo) (newMessage : option string) :
  assigneeInvariant (remoteEditTodo todo newMessage now todos).
Proof.
  unfold remoteEditTodo. destruct newMessage as [msg|]; [|exact Hinv].
  destruct (negb (truthy msg) || String.eqb msg (message todo)); [exact Hinv|].
  destruct (findIndexById todos (id todo)); [|exact Hinv].
  apply updateAt_Forall; [exact Hinv|]. intros t _ H Ht. apply (H Ht).
Qed.

Lemma remoteMoveTodo_invariant (document : TextDocument) (lineNumber : Z)
    (todo : Todo) (typed : list string) :
  assigneeInvariant (remoteMoveTodo document lineNumber todo typed now todos).
Proof.
  unfold remoteMoveTodo.
  destruct (showInputBox _ typed) as [input|]; [|exact Hinv].
  destruct (truthy input); [|exact Hinv].
  destruct (parseInt input); [|exact Hinv].
  destruct (findIndexById todos (id todo)); [|exact Hinv].
  apply updateAt_Forall; [exact Hinv|]. intros t _ H Ht. apply (H Ht).
Qed.

Lemma remoteAssignTodo_invariant (todo : Todo) (script : AssignScript)
    (teamMembers : list User) :
  assigneeInvariant (fst (remoteAssignTodo todo script now todos teamMembers)).
Proof.
  unfold remoteAssignTodo.
  destruct (findIndexById todos (id todo)) as [todoIndex|]; [|exact Hinv].
  destruct (nth_error todos todoIndex) as [currentTodo|]; [|exact Hinv].
  destruct (assignPick script) as [i|]; [|exact Hinv].
  destruct (nth_error _ i) as [[user|user| |]|]; try exact Hinv.
  - match goal with |- context [if ?b then _ else _] => destruct b eqn:E end;
      [exact Hinv|]. cbn [fst].
    apply updateAt_Forall; [exact Hinv|]. intros t _ _ _.
    destruct (filter _ _) as [|u l]; [discriminate E|].
    exists u, l. reflexivity.
  - cbn [fst]. apply updateAt_Forall; [exact Hinv|]. intros t _ H Ht.
    apply setUpdatedAt_hasAssignee, pushAssignee_hasAssignee, H.
    unfold pushAssignee in Ht. destruct (assignees t); exact Ht.
  - match goal with
    | |- context [askAssigneeEmail ?n ?a ?c] =>
        destruct (askAssigneeEmail n a c) as [assigneeEmail|]
    end; [|exact Hinv].
    destruct (nameAnswer script) as [assigneeName|]; [|exact Hinv].
    destruct (negb (truthy assigneeName)); [exact Hinv|]. cbn [fst].
    apply updateAt_Forall; [exact Hinv|]. intros t _ H Ht.
    apply setUpdatedAt_hasAssignee, pushAssignee_hasAssignee, H.
    unfold pushAssignee in Ht. destruct (assignees t); exact Ht.
Qed.

End AssigneeInvariant.

Lemma filter_leavesNobody (user : User) (l : list User) :
  leavesNobody user l ->
  filter (fun a => negb (String.eqb (email a) (email user))) l = [].
Proof.
  induction l as [|a l IH]; simpl; intros H; [reflexivity|].
  rewrite (H a (or_introl eq_refl)), String.eqb_refl. simpl.
  apply IH. intros b Hb. apply H. now right.
Qed.

Lemma remoteAssignTodo_last (todo : Todo) (script : AssignScript)
    (now : string) (todos : list Todo) (teamMembers : list User)
    (todoIndex i : nat) (currentTodo : Todo) (l : list User) (user : User) :
  findIndexById todos (id todo) = Some todoIndex ->
  nth_error todos todoIndex = Some currentTodo ->
  assignees currentTodo = Some l ->
  assignPick script = Some i ->
  nth_error (assignOptions l teamMembers) i = Some (Remove user) ->
  leavesNobody user l ->
  remoteAssignTodo todo script now todos teamMembers = (todos, teamMembers).
Proof.
  intros Hidx Hnth Hl Hpick Hopt Hlast. unfold remoteAssignTodo.
  rewrite Hidx, Hnth, Hl, Hpick, Hopt, (filter_leavesNobody _ _ Hlast).
  reflexivity.
Qed.

Lemma truthy_nonempty (s : string) : s <> "" -> negb (truthy s) = false.
Proof.
  intros H. unfold truthy. destruct (String.eqb_spec s ""); [contradiction|].
  reflexivity.
Qed.

Lemma remoteConvertTodo_stores (env : GitEnv) (userInfo : User)
    (document : TextDocument) (lineNumber : Z) (text lineText now : string)
    (nowMs : Z) (existingTodos : list Todo) :
  getGitUserInfo env = Some userInfo ->
  lineAt document lineNumber = Some lineText ->
  trim (replaceEmpty detectRegex text) <> "" ->
  remoteConvertTodo env document lineNumber text now nowMs existingTodos
  = Some (existingTodos
          ++ [newRemoteTodo (fsPath document) lineNumber
                (trim (replaceEmpty detectRegex text)) userInfo now nowMs],
          removeTodoComment document (Z.to_nat lineNumber) lineText).
Proof.
  intros Hu Hl Hm. unfold remoteConvertTodo. rewrite Hu, Hl. cbv zeta.
  now rewrite (truthy_nonempty _ Hm).
Qed.

Lemma remoteAddTodo_stores (env : GitEnv) (userInfo : User)
    (message0 : string) (document : TextDocument) (lineNumber : Z)
    (now : string) (nowMs : Z) (existingTodos : list Todo) :
  getGitUserInfo env = Some userInfo ->
  message0 <> "" ->
  remoteAddTodo env (Some message0) (Some (document, lineNumber)) now nowMs
    existingTodos
  = existingTodos
    ++ [newRemoteTodo (fsPath document) lineNumber message0 userInfo now nowMs].
Proof.
  intros Hu Hm. unfold remoteAddTodo.
  now rewrite Hu, (truthy_nonempty _ Hm).
Qed.

Lemma remoteConvertTodo_author (env : GitEnv) (document : TextDocument)
    (lineNumber : Z) (text now : string) (nowMs : Z)
    (existingTodos todos' : list Todo) (document' : TextDocument) :
  remoteConvertTodo env document lineNumber text now nowMs existingTodos
    = Some (todos', document') ->
  todos' = existingTodos
  \/ exists t userInfo,
       todos' = existingTodos ++ [t]
       /\ getGitUserInfo env = Some userInfo
       /\ type t = remote /\ author t = Some userInfo
       /\ assignees t = Some [userInfo].
Proof.
  unfold remoteConvertTodo. destruct (getGitUserInfo env) as [u|].
  - destruct (lineAt document lineNumber) as [lineText|]; [|discriminate].
    destruct (negb (truthy _)); intros H; injection H as <- _; [now left|].
    right. eexists. exists u. repeat split.
  - intros H. injection H as <- _. now left.
Qed.

Lemma remoteAddTodo_author (env : GitEnv) (messageInput : option string)
    (editor : option (TextDocument * Z)) (now : string) (nowMs : Z)
    (existingTodos : list Todo) :
  remoteAddTodo env messageInput editor now nowMs existingTodos = existingTodos
  \/ exists t userInfo,
       remoteAddTodo env messageInput editor now nowMs existingTodos
         = existingTodos ++ [t]
       /\ getGitUserInfo env = Some userInfo
       /\ type t = remote /\ author t = Some userInfo
       /\ assignees t = Some [userInfo].
Proof.
  unfold remoteAddTodo. destruct (getGitUserInfo env) as [u|]; [|now left].
  destruct messageInput as [msg|]; [|now left].
  destruct (negb (truthy msg)); [now left|].
  destruct editor as [[document lineNumber]|]; [|now left].
  right. eexists. exists u. repeat split.
Qed.

(** C4: a remote record is created with its author as only assignee: with
    a git identity and a message, [remoteTodo.convertTodo] and
    [remoteTodo.addTodo] append to the store one remote record whose author
    is that identity and whose assignees are the author alone, and whatever
    either of them appends is such a record.  Every remote command keeps
    "each remote record has an assignee" true of the store; and the removal
    of an assignee that would leave nobody changes neither the store nor
    the roster. *)
Theorem C4_assignees_never_empty :
  forall (now : string) (nowMs : Z) (todos : list Todo),
    (forall file0 lineNumber message0 userInfo,
        let t := newRemoteTodo file0 lineNumber message0 userInfo now nowMs in
        type t = remote /\ author t = Some userInfo
        /\ assignees t = Some [userInfo])
    /\ (forall env userInfo document lineNumber text lineText,
           getGitUserInfo env = Some userInfo ->
           lineAt document lineNumber = Some lineText ->
           trim (replaceEmpty detectRegex text) <> "" ->
           exists t document',
             remoteConvertTodo env document lineNumber text now nowMs todos
               = Some (todos ++ [t], document')
             /\ type t = remote /\ author t = Some userInfo
             /\ assignees t = Some [userInfo])
    /\ (forall env userInfo message0 document lineNumber,
           getGitUserInfo env = Some userInfo ->
           message0 <> "" ->
           exists t,
             remoteAddTodo env (Some message0) (Some (document, lineNumber))
               now nowMs todos = todos ++ [t]
             /\ type t = remote /\ author t = Some userInfo
             /\ assignees t = Some [userInfo])
    /\ (forall env document lineNumber text todos' document',
           remoteConvertTodo env document lineNumber text now nowMs todos
             = Some (todos', document') ->
           todos' = todos
           \/ exists t userInfo,
                todos' = todos ++ [t]
                /\ getGitUserInfo env = Some userInfo
                /\ type t = remote /\ author t = Some userInfo
                /\ assignees t = Some [userInfo])
    /\ (forall env messageInput editor,
           remoteAddTodo env messageInput editor now nowMs todos = todos
           \/ exists t userInfo,
                remoteAddTodo env messageInput editor now nowMs todos
                  = todos ++ [t]
                /\ getGitUserInfo env = Some userInfo
                /\ type t = remote /\ author t = Some userInfo
                /\ assignees t = Some [userInfo])
    /\ (assigneeInvariant todos ->
        (forall env document lineNumber text todos' document',
            remoteConvertTodo env document lineNumber text now nowMs todos
              = Some (todos', document') ->
            assigneeInvariant todos')
        /\ (forall env messageInput editor,
               assigneeInvariant
                 (remoteAddTodo env messageInput editor now nowMs todos))
        /\ (forall todo script teamMembers,
               assigneeInvariant
                 (fst (remoteAssignTodo todo script now todos teamMembers)))
        /\ (forall todo newMessage,
               assigneeInvariant (remoteEditTodo todo newMessage now todos))
        /\ (forall document lineNumber todo typed,
               assigneeInvariant
                 (remoteMoveTodo document lineNumber todo typed now todos))
        /\ (forall todo, assigneeInvariant (remoteRemoveTodo todo todos)))
    /\ (forall todo script teamMembers todoIndex i currentTodo l user,
           findIndexById todos (id todo) = Some todoIndex ->
           nth_error todos todoIndex = Some currentTodo ->
           assignees currentTodo = Some l ->
           assignPick script = Some i ->
           nth_error (assignOptions l teamMembers) i = Some (Remove user) ->
           leavesNobody user l ->
           remoteAssignTodo todo script now todos teamMembers
             = (todos, teamMembers)).
Proof.
  intros now nowMs todos.
  split; [intros; apply newRemoteTodo_assignees|].
  split.
  { intros env userInfo document lineNumber text lineText Hu Hl Hm.
    eexists. eexists. split.
    - exact (remoteConvertTodo_stores _ _ _ _ _ _ _ _ _ Hu Hl Hm).
    - apply newRemoteTodo_assignees. }
  split.
  { intros env userInfo message0 document lineNumber Hu Hm.
    eexists. split.
    - exact (remoteAddTodo_stores _ _ _ _ _ _ _ _ Hu Hm).
    - apply newRemoteTodo_assignees. }
  split; [intros; eapply remoteConvertTodo_author; eauto|].
  split; [intros; apply remoteAddTodo_author|].
  split.
  - intros Hinv. repeat split; intros.
    + eapply remoteConvertTodo_invariant; eauto.
    + now apply remoteAddTodo_invariant.
    + now apply remoteAssignTodo_invariant.
    + now apply remoteEditTodo_invariant.
    + now apply remoteMoveTodo_invariant.
    + now apply remoteRemoveTodo_invariant.
  - intros. eapply remoteAssignTodo_last; eauto.
Qed.

Lemma C4_assignees_never_empty_witness :
  assigneeInvariant
    (fst (remoteAssignTodo recordAB pickFirst "2024-02-02T00:00:00.000Z"
            [recordAB] []))
  /\ remoteAssignTodo recordA pickFirst "2024-02-02T00:00:00.000Z" [recordA] []
     = ([recordA], [])
  /\ (exists t document',
         remoteConvertTodo gitAlice docC 1 "// TODO: fix bug"
           "2024-02-02T00:00:00.000Z" 1700 [recordA]
           = Some ([recordA] ++ [t], document')
         /\ type t = remote /\ author t = Some (mkUser "Alice" "alice@x.com")
         /\ assignees t = Some [mkUser "Alice" "alice@x.com"])
  /\ (exists t,
         remoteAddTodo gitAlice (Some "fix bug") (Some (docC, 2%Z))
           "2024-02-02T00:00:00.000Z" 1700 [recordA] = [recordA] ++ [t]
         /\ type t = remote /\ author t = Some (mkUser "Alice" "alice@x.com")
         /\ assignees t = Some [mkUser "Alice" "alice@x.com"]).
Proof.
  pose proof (C4_assignees_never_empty "2024-02-02T00:00:00.000Z" 1700 [recordAB])
    as [_ [_ [_ [_ [_ [Hinv _]]]]]].
  pose proof (C4_assignees_never_empty "2024-02-02T00:00:00.000Z" 1700 [recordA])
    as [_ [Hconvert [Hadd [_ [_ [_ Hlast]]]]]].
  split; [|split; [|split]].
  - apply Hinv.
    constructor; [|constructor]. intros _.
    exists (mkUser "A" "a@x.com"), [mkUser "B" "b@x.com"]. reflexivity.
  - apply (Hlast recordA pickFirst [] 0%nat 0%nat recordA
             [mkUser "A" "a@x.com"] (mkUser "A" "a@x.com"));
      try reflexivity.
    intros a [<-|[]]. reflexivity.
  - apply (Hconvert gitAlice (mkUser "Alice" "alice@x.com") docC 1%Z
             "// TODO: fix bug" "  // TODO: fix bug");
      [reflexivity | reflexivity | vm_compute; discriminate].
  - apply (Hadd gitAlice (mkUser "Alice" "alice@x.com") "fix bug" docC 2%Z);
      [reflexivity | discriminate].
Defined.

(** ** The matcher against a relational reading of the patterns *)

Module RegexFacts.

Arguments charEqI : simpl never.
Arguments isSpace : simpl never.
Arguments isDot : simpl never.

Lemma state_eta (st : MatchState) :
  mkState (endIndex st) (rest st) (captures st) = st.
Proof. now destruct st. Qed.

Lemma star_sound (g : bool) (p : ascii -> bool) (k : Continuation)
    (l : list ascii) :
  forall i caps res,
    star g p k i l caps = Some res ->
    exists run l', l = run ++ l' /\ forallb p run = true
                   /\ k (mkState (i + List.length run) l' caps) = Some res.
Proof.
  induction l as [|c tl IH]; intros i caps res H; simpl in H.
  - exists [], []. simpl. rewrite Nat.add_0_r. auto.
  - assert (Hstop : k (mkState i (c :: tl) caps) = Some res ->
                    exists run l', c :: tl = run ++ l' /\ forallb p run = true
                      /\ k (mkState (i + List.length run) l' caps) = Some res).
    { intros Hk. exists [], (c :: tl). simpl. rewrite Nat.add_0_r. auto. }
    assert (Hgo : star g p k (S i) tl caps = Some res -> p c = true ->
                  exists run l', c :: tl = run ++ l' /\ forallb p run = true
                    /\ k (mkState (i + List.length run) l' caps) = Some res).
    { intros Hs Hp. destruct (IH _ _ _ Hs) as [run [l' [-> [Hall Hk]]]].
      exists (c :: run), l'. simpl. rewrite Hp, Hall.
      rewrite Nat.add_succ_r. auto. }
    destruct (p c) eqn:Hp; [|auto].
    destruct g.
    + destruct (star true p k (S i) tl caps) eqn:Hs; [|auto].
      injection H as <-. auto.
    + destruct (k (mkState i (c :: tl) caps)) eqn:Hk; [|auto].
      injection H as <-. auto.
Qed.

(** The lazy loop stops at the first position where the continuation
    succeeds. *)
Lemma star_lazy_first (p : ascii -> bool) (k : Continuation) (l : list ascii) :
  forall i caps res,
    star false p k i l caps = Some res ->
    exists n, (n <= List.length l)%nat
              /\ forallb p (firstn n l) = true
              /\ k (mkState (i + n) (skipn n l) caps) = Some res
              /\ forall j, (j < n)%nat ->
                           k (mkState (i + j) (skipn j l) caps) = None.
Proof.
  induction l as [|c tl IH]; intros i caps res H; simpl in H.
  - exists 0%nat. simpl. rewrite Nat.add_0_r. repeat split; auto. intros j Hj. lia.
  - assert (Hstop : k (mkState i (c :: tl) caps) = Some res ->
              exists n, (n <= List.length (c :: tl))%nat
                /\ forallb p (firstn n (c :: tl)) = true
                /\ k (mkState (i + n) (skipn n (c :: tl)) caps) = Some res
                /\ forall j, (j < n)%nat ->
                     k (mkState (i + j) (skipn j (c :: tl)) caps) = None).
    { intros Hk. exists 0%nat. simpl. rewrite Nat.add_0_r.
      repeat split; auto; [lia|]. intros j Hj. lia. }
    destruct (p c) eqn:Hp; [|auto].
    destruct (k (mkState i (c :: tl) caps)) eqn:Hk.
    + injection H as <-. auto.
    + destruct (IH _ _ _ H) as [n [Hn [Hall [Hres Hfirst]]]].
      exists (S n). simpl. rewrite Hp, Hall, Nat.add_succ_r.
      repeat split; auto; [lia|].
      intros [|j] Hj; simpl.
      * now rewrite Nat.add_0_r.
      * rewrite Nat.add_succ_r. apply Hfirst. lia.
Qed.

Lemma star_complete (g : bool) (p : ascii -> bool) (k : Continuation)
    (run : list ascii) :
  forall l' i caps,
    forallb p run = true ->
    k (mkState (i + List.length run) l' caps) <> None ->
    star g p k i (run ++ l') caps <> None.
Proof.
  induction run as [|c run IH]; intros l' i caps Hall Hk; simpl in *.
  - rewrite Nat.add_0_r in Hk. destruct l' as [|c tl]; simpl; [exact Hk|].
    destruct (p c); [|exact Hk]. destruct g.
    + destruct (star true p k (S i) tl caps); [discriminate|exact Hk].
    + destruct (k (mkState i (c :: tl) caps)); [discriminate|now elim Hk].
  - apply andb_true_iff in Hall. destruct Hall as [Hp Hall]. rewrite Hp.
    rewrite Nat.add_succ_r in Hk. specialize (IH l' (S i) caps Hall Hk).
    destruct g.
    + destruct (star true p k (S i) (run ++ l') caps); [discriminate|now elim IH].
    + destruct (k (mkState i (c :: run ++ l') caps)); [discriminate|exact IH].
Qed.

Lemma m_sound (r : regex) :
  forall k st res,
    m r k st = Some res -> exists st', matches r st st' /\ k st' = Some res.
Proof.
  induction r as [c|p| |r1 IH1 r2 IH2|r1 IH1 r2 IH2|g p|n r IH|r IH| |];
    intros k st res H; simpl in H.
  - destruct (rest st) as [|d tl] eqn:E; [discriminate|].
    destruct (charEqI c d) eqn:Ec; [|discriminate].
    eexists. split; [|exact H]. exists d. simpl. auto.
  - destruct (rest st) as [|d tl] eqn:E; [discriminate|].
    destruct (p d) eqn:Ep; [|discriminate].
    eexists. split; [|exact H]. exists d. simpl. auto.
  - exists st. simpl. auto.
  - destruct (IH1 _ _ _ H) as [mid [M1 H2]].
    destruct (IH2 _ _ _ H2) as [st' [M2 Hk]].
    exists st'. split; [|exact Hk]. now exists mid.
  - destruct (m r1 k st) eqn:E.
    + injection H as <-. destruct (IH1 _ _ _ E) as [st' [M Hk]].
      exists st'. simpl. auto.
    + destruct (IH2 _ _ _ H) as [st' [M Hk]]. exists st'. simpl. auto.
  - destruct (star_sound _ _ _ _ _ _ _ H) as [run [l' [Hl [Hall Hk]]]].
    eexists. split; [|exact Hk]. exists run. simpl. auto.
  - destruct (IH _ _ _ H) as [st1 [M Hk]].
    eexists. split; [|exact Hk]. now exists st1.
  - destruct (m r Some st) as [st1|] eqn:E; [|discriminate].
    eexists. split; [|exact H]. now exists st1.
  - destruct (endIndex st =? 0)%nat eqn:E; [|discriminate].
    apply Nat.eqb_eq in E. exists st. simpl. auto.
  - destruct (rest st) eqn:E; [|discriminate]. exists st. simpl. auto.
Qed.

Lemma m_complete (r : regex) :
  forall k st st',
    matches r st st' -> k st' <> None -> m r k st <> None.
Proof.
  induction r as [c|p| |r1 IH1 r2 IH2|r1 IH1 r2 IH2|g p|n r IH|r IH| |];
    intros k st st' M Hk; simpl in M |- *.
  - destruct M as [d [Hr [Hc [Hi Hcap]]]]. rewrite Hr, Hc, <- Hi, <- Hcap.
    now rewrite state_eta.
  - destruct M as [d [Hr [Hc [Hi Hcap]]]]. rewrite Hr, Hc, <- Hi, <- Hcap.
    now rewrite state_eta.
  - now subst.
  - destruct M as [mid [M1 M2]]. apply (IH1 _ _ mid M1). now apply (IH2 _ _ st').
  - destruct M as [M|M].
    + specialize (IH1 _ _ _ M Hk). destruct (m r1 k st); [discriminate|now elim IH1].
    + destruct (m r1 k st); [discriminate|]. now apply (IH2 _ _ st').
  - destruct M as [run [Hr [Hall [Hi Hcap]]]]. rewrite Hr.
    apply star_complete; [exact Hall|]. now rewrite <- Hi, <- Hcap, state_eta.
  - destruct M as [st1 [M ->]]. now apply (IH _ _ st1 M).
  - destruct M as [st1 [E ->]]. now rewrite E.
  - destruct M as [E ->]. now rewrite E.
  - destruct M as [E ->]. now rewrite E.
Qed.

Lemma m_Look (r : regex) (k : Continuation) (st : MatchState) :
  m (Look r) k st
  = match m r Some st with
    | Some st' => k (mkState (endIndex st) (rest st) (captures st'))
    | None => None
    end.
Proof. reflexivity. Qed.

Lemma m_Seq_inv (r1 r2 : regex) (k : Continuation) (st res : MatchState) :
  m (Seq r1 r2) k st = Some res ->
  exists mid, matches r1 st mid /\ m r2 k mid = Some res.
Proof.
  intros H. change (m r1 (fun st' => m r2 k st') st = Some res) in H.
  apply m_sound in H. exact H.
Qed.

(** A match only moves forward, over a prefix of what was left. *)
Lemma matches_consumed (r : regex) :
  forall st st',
    matches r st st' ->
    exists w, rest st = w ++ rest st'
              /\ endIndex st' = endIndex st + List.length w.
Proof.
  induction r as [c|p| |r1 IH1 r2 IH2|r1 IH1 r2 IH2|g p|n r IH|r IH| |];
    intros st st' M; simpl in M.
  - destruct M as [d [Hr [_ [Hi _]]]]. exists [d]. simpl. split; [auto|lia].
  - destruct M as [d [Hr [_ [Hi _]]]]. exists [d]. simpl. split; [auto|lia].
  - subst. exists []. simpl. split; [auto|lia].
  - destruct M as [mid [M1 M2]].
    destruct (IH1 _ _ M1) as [w1 [E1 L1]], (IH2 _ _ M2) as [w2 [E2 L2]].
    exists (w1 ++ w2). rewrite <- app_assoc, <- E2, length_app. split; [auto|lia].
  - destruct M as [M|M]; auto.
  - destruct M as [run [Hr [_ [Hi _]]]]. now exists run.
  - destruct M as [st1 [M ->]]. simpl. auto.
  - destruct M as [st1 [_ ->]]. exists []. simpl. split; [auto|lia].
  - destruct M as [_ ->]. exists []. simpl. split; [auto|lia].
  - destruct M as [_ ->]. exists []. simpl. split; [auto|lia].
Qed.

End RegexFacts.
Import RegexFacts.

(** ** Occurrences of a TODO marker *)

Module MarkerFacts.

Arguments charEqI : simpl never.
Arguments isSpace : simpl never.
Arguments isDot : simpl never.

Ltac by_cases_on_char d :=
  destruct d as [[] [] [] [] [] [] [] []]; vm_compute; intros H;
  solve [reflexivity | discriminate H].

Lemma charEqI_slash (d : ascii) : charEqI "/" d = true -> d = "/"%char.
Proof. by_cases_on_char d. Qed.

Lemma charEqI_hash (d : ascii) : charEqI "#" d = true -> d = "#"%char.
Proof. by_cases_on_char d. Qed.

Lemma charEqI_T_not_space (d : ascii) : charEqI "T" d = true -> isSpace d = false.
Proof. by_cases_on_char d. Qed.

Lemma trimStartL_run (run l : list ascii) :
  forallb isSpace run = true -> trimStartL (run ++ l) = trimStartL l.
Proof.
  induction run as [|c run IH]; simpl; intros H; [reflexivity|].
  apply andb_true_iff in H. destruct H as [Hc H]. rewrite Hc. now apply IH.
Qed.

Lemma trimStartL_split (l : list ascii) :
  exists run, l = run ++ trimStartL l /\ forallb isSpace run = true.
Proof.
  induction l as [|c l [run [E H]]]; simpl.
  - now exists [].
  - destruct (isSpace c) eqn:Hc.
    + exists (c :: run). simpl. rewrite Hc, H. now rewrite <- E.
    + now exists [].
Qed.

Lemma keywordAhead_not_space (l : list ascii) :
  keywordAhead l = true -> trimStartL l = l.
Proof.
  destruct l as [|t [|o [|d [|o' l]]]]; simpl; try discriminate.
  rewrite !andb_true_iff. intros [[[Ht _] _] _].
  now rewrite (charEqI_T_not_space _ Ht).
Qed.

Lemma matches_kwTODO (st st' : MatchState) :
  matches kwTODO st st' ->
  exists tl, rest st = tl /\ keywordAhead tl = true
             /\ skipn 4 tl = rest st'
             /\ endIndex st' = endIndex st + 4
             /\ captures st' = captures st.
Proof.
  unfold kwTODO. simpl.
  intros [s1 [[t [R1 [C1 [I1 K1]]]] M]].
  destruct M as [s2 [[o [R2 [C2 [I2 K2]]]] M]].
  destruct M as [s3 [[d [R3 [C3 [I3 K3]]]] M]].
  destruct M as [o' [R4 [C4 [I4 K4]]]].
  exists (rest st). rewrite R1, R2, R3, R4. simpl. rewrite C1, C2, C3, C4.
  repeat split; try congruence. lia.
Qed.

Lemma matches_barePrefix (st st' : MatchState) :
  matches (Alt (Seq (Lit "/") (Lit "/")) (Lit "#")) st st' ->
  afterPrefix (rest st) = Some (rest st')
  /\ (endIndex st < endIndex st')%nat
  /\ captures st' = captures st.
Proof.
  simpl. intros [M|M].
  - destruct M as [s1 [[c [R1 [C1 [I1 K1]]]] M]].
    destruct M as [c2 [R2 [C2 [I2 K2]]]].
    apply charEqI_slash in C1, C2. subst c c2. rewrite R1, R2. simpl.
    repeat split; [lia|congruence].
  - destruct M as [c [R1 [C1 [I1 K1]]]].
    apply charEqI_hash in C1. subst c. rewrite R1. simpl.
    repeat split; [lia|congruence].
Qed.

Lemma matches_prefixG (n1 n2 : nat) (st st' : MatchState) :
  matches (prefixG n1 n2) st st' ->
  afterPrefix (rest st) = Some (rest st') /\ (endIndex st < endIndex st')%nat.
Proof.
  unfold prefixG. simpl.
  intros [s0 [[M|M] ->]]; simpl.
  - destruct M as [s1 [[s2 [[c [R1 [C1 [I1 K1]]]] M]] ->]].
    destruct M as [c2 [R2 [C2 [I2 K2]]]]. simpl.
    apply charEqI_slash in C1, C2. subst c c2. rewrite R1, R2. simpl.
    split; [reflexivity|lia].
  - destruct M as [c [R1 [C1 [I1 K1]]]].
    apply charEqI_hash in C1. subst c. rewrite R1. simpl.
    split; [reflexivity|lia].
Qed.

(** A prefix, then white space, then the keyword: a marker. *)
Lemma marker_of_pieces (l afterP : list ascii) (s2 s3 s4 : MatchState) :
  afterPrefix l = Some afterP ->
  rest s2 = afterP ->
  matches ws s2 s3 -> matches kwTODO s3 s4 ->
  todoMarkerAt l = true.
Proof.
  intros HP <- Mws Mkw. unfold todoMarkerAt. rewrite HP.
  unfold ws in Mws. simpl in Mws. destruct Mws as [run [Hr [Hall _]]].
  destruct (matches_kwTODO _ _ Mkw) as [tl [<- [Hkw _]]].
  now rewrite Hr, (trimStartL_run _ _ Hall), (keywordAhead_not_space _ Hkw).
Qed.

Lemma nextTodo_sound (st st' : MatchState) :
  matches nextTodo st st' ->
  todoMarkerAt (rest st) = true
  /\ exists span, captures st' = (4, span) :: captures st.
Proof.
  unfold nextTodo.
  intros [s1 [[s0 [MP ->]] [s2 [Mws [s3 [Mkw Mopt]]]]]].
  destruct (matches_barePrefix _ _ MP) as [HP [_ KP]].
  split.
  - refine (marker_of_pieces _ _ _ _ _ HP _ Mws Mkw). reflexivity.
  - unfold ws in Mws. simpl in Mws. destruct Mws as [_ [_ [_ [_ K2]]]].
    destruct (matches_kwTODO _ _ Mkw) as [_ [_ [_ [_ [_ K3]]]]].
    assert (K4 : captures st' = captures s3).
    { destruct Mopt as [[d [_ [_ [_ K]]]]|E]; [exact K|now rewrite E]. }
    eexists. rewrite K4, K3, K2. simpl. now rewrite KP.
Qed.

Lemma nextTodo_complete (st : MatchState) :
  todoMarkerAt (rest st) = true -> exists st', matches nextTodo st st'.
Proof.
  unfold todoMarkerAt. destruct (afterPrefix (rest st)) as [tl|] eqn:HP;
    [|discriminate].
  intros Hkw.
  destruct (trimStartL_split tl) as [run [Htl Hall]].
  set (i := endIndex st). set (caps := captures st).
  (* the prefix *)
  assert (MP : exists j, (i < j)%nat
                 /\ matches (Alt (Seq (Lit "/") (Lit "/")) (Lit "#")) st
                      (mkState j tl caps)).
  { unfold afterPrefix in HP. destruct (rest st) as [|c l] eqn:R; [discriminate|].
    destruct (Ascii.eqb_spec c "#") as [->|_].
    - injection HP as ->. exists (S i). split; [lia|]. right.
      exists "#"%char. simpl. auto.
    - destruct (Ascii.eqb_spec c "/") as [->|_]; [|discriminate].
      destruct l as [|c2 l2]; [discriminate|].
      destruct (Ascii.eqb_spec c2 "/") as [->|_]; [|discriminate].
      injection HP as ->. exists (S (S i)). split; [lia|]. left.
      exists (mkState (S i) ("/"%char :: tl) caps). split.
      + exists "/"%char. simpl. auto.
      + exists "/"%char. simpl. auto. }
  destruct MP as [j [Hj MP]].
  set (capsG := (4, (i, j)) :: caps).
  (* the keyword *)
  destruct (trimStartL tl) as [|t [|o [|d [|o' l4]]]] eqn:Ekw;
    simpl in Hkw; try discriminate.
  apply andb_true_iff in Hkw. destruct Hkw as [Hkw H4].
  apply andb_true_iff in Hkw. destruct Hkw as [Hkw H3].
  apply andb_true_iff in Hkw. destruct Hkw as [H1 H2].
  set (n := j + List.length run).
  exists (mkState (n + 4) l4 capsG). unfold nextTodo.
  exists (mkState j tl capsG). split.
  { exists (mkState j tl caps). split; [exact MP|reflexivity]. }
  exists (mkState n (t :: o :: d :: o' :: l4) capsG). split.
  { exists run. simpl. auto. }
  exists (mkState (n + 4) l4 capsG). split; [|right; reflexivity].
  unfold kwTODO.
  exists (mkState (S n) (o :: d :: o' :: l4) capsG). split;
    [exists t; simpl; auto|].
  exists (mkState (S (S n)) (d :: o' :: l4) capsG). split;
    [exists o; simpl; auto|].
  exists (mkState (S (S (S n))) (o' :: l4) capsG). split;
    [exists d; simpl; auto|].
  exists o'. simpl. repeat split; auto. lia.
Qed.

(** The lookahead of the scan succeeds exactly at a marker or at the end of
    the line, moves nothing and leaves group 3 alone. *)
Lemma lookNext_Some (k : Continuation) (st res : MatchState) :
  m lookNext k st = Some res ->
  (todoMarkerAt (rest st) = true \/ rest st = [])
  /\ exists caps', k (mkState (endIndex st) (rest st) caps') = Some res
                   /\ lookupGroup 3 caps' = lookupGroup 3 (captures st).
Proof.
  unfold lookNext. intros H.
  apply m_sound in H. destruct H as [st' [[st1 [E ->]] Hk]].
  apply m_sound in E. destruct E as [st2 [M E]]. injection E as E. subst st1.
  destruct M as [M|[R E]].
  - destruct (nextTodo_sound _ _ M) as [Hm [span Hc]].
    split; [now left|]. exists (captures st2). split; [exact Hk|].
    now rewrite Hc.
  - subst st2. split; [now right|]. exists (captures st). auto.
Qed.

Lemma lookNext_None (st : MatchState) :
  m lookNext Some st = None ->
  todoMarkerAt (rest st) = false /\ rest st <> [].
Proof.
  unfold lookNext. rewrite m_Look.
  destruct (m (Alt nextTodo Eol) Some st) as [st1|] eqn:E; [discriminate|].
  intros _. split.
  - destruct (todoMarkerAt (rest st)) eqn:Hm; [|reflexivity]. exfalso.
    destruct (nextTodo_complete _ Hm) as [st' M].
    revert E. apply (m_complete _ _ _ st'); [now left|discriminate].
  - intros R. revert E. apply (m_complete _ _ _ st); [|discriminate].
    right. simpl. auto.
Qed.

End MarkerFacts.
Import MarkerFacts.

(** ** One turn of the scan *)

Lemma atPos_start (l : list ascii) (i : nat) (caps : list (nat * (nat * nat))) :
  (i <= List.length l)%nat -> atPos l (mkState i (skipn i l) caps).
Proof. intros H. split; [reflexivity|exact H]. Qed.

Lemma matches_atPos (r : regex) (l : list ascii) (st st' : MatchState) :
  matches r st st' -> atPos l st ->
  atPos l st' /\ (endIndex st <= endIndex st')%nat.
Proof.
  intros M [Hr Hi]. destruct (matches_consumed _ _ _ M) as [w [Hw Hl]].
  assert (Hlen : List.length (skipn (endIndex st) l)
                 = List.length w + List.length (rest st')).
  { rewrite <- Hr, Hw. apply length_app. }
  rewrite length_skipn in Hlen.
  split; [split|]; try lia.
  rewrite Hl, Nat.add_comm, <- skipn_skipn, <- Hr, Hw.
  now rewrite skipn_app, skipn_all, Nat.sub_diag.
Qed.

Lemma m_scan_tail (k : Continuation) (st : MatchState) :
  m (Seq (Group 3 (Star false isDot)) lookNext) k st
  = star false isDot
      (fun st' =>
         m lookNext k
           (mkState (endIndex st') (rest st')
                    ((3, (endIndex st, endIndex st')) :: captures st')))
      (endIndex st) (rest st) (captures st).
Proof. reflexivity. Qed.

(** What one successful [exec] of the scan pattern at position [i] says:
    a marker starts at [i]; group 3 spans [a, e) where [e] is also the end
    of the match; [e] is the first position from [a] on that is the end of
    the line or the start of a marker. *)
Lemma todoRegex_match (l : list ascii) (i : nat) (res : MatchState) :
  (i <= List.length l)%nat ->
  m todoRegex Some (mkState i (skipn i l) []) = Some res ->
  exists a,
    todoMarkerAt (skipn i l) = true
    /\ (i + 5 <= a)%nat /\ (a <= endIndex res)%nat
    /\ (endIndex res <= List.length l)%nat
    /\ lookupGroup 3 (captures res) = Some (a, endIndex res)
    /\ (todoMarkerAt (skipn (endIndex res) l) = true
        \/ endIndex res = List.length l)
    /\ forall p, (a <= p < endIndex res)%nat -> todoMarkerAt (skipn p l) = false.
Proof.
  intros Hi H. unfold todoRegex in H.
  apply m_Seq_inv in H. destruct H as [s1 [M1 H]].
  apply m_Seq_inv in H. destruct H as [s2 [M2 H]].
  apply m_Seq_inv in H. destruct H as [s3 [M3 H]].
  apply m_Seq_inv in H. destruct H as [s4 [M4 H]].
  apply m_Seq_inv in H. destruct H as [s5 [M5 H]].
  rewrite m_scan_tail in H.
  pose proof (atPos_start l i [] Hi) as P0.
  destruct (matches_atPos _ l _ _ M1 P0) as [P1 _].
  destruct (matches_atPos _ l _ _ M2 P1) as [P2 L2].
  destruct (matches_atPos _ l _ _ M3 P2) as [P3 _].
  destruct (matches_atPos _ l _ _ M4 P3) as [P4 L4].
  destruct (matches_atPos _ l _ _ M5 P4) as [[R5 B5] L5].
  destruct (matches_prefixG _ _ _ _ M1) as [HP L1]. simpl in HP, L1.
  destruct (matches_kwTODO _ _ M3) as [_ [_ [_ [_ [L3 _]]]]].
  set (a := endIndex s5) in *.
  apply star_lazy_first in H. destruct H as [n [Hn [_ [Hres Hfirst]]]].
  cbv beta in Hres. cbn [endIndex rest captures] in Hres.
  apply lookNext_Some in Hres.
  destruct Hres as [Hend [caps' [Hres Hg3]]]. injection Hres as <-.
  cbn [endIndex rest captures] in *.
  rewrite R5, length_skipn in Hn.
  rewrite R5, skipn_skipn in Hend.
  exists a. split.
  { refine (marker_of_pieces _ _ _ _ _ HP _ M2 M3). reflexivity. }
  split; [lia|]. split; [lia|]. split; [lia|].
  split.
  { rewrite Hg3. simpl. reflexivity. }
  split.
  { rewrite (Nat.add_comm a n). destruct Hend as [Hend|Hend]; [now left|right].
    apply (f_equal (@List.length ascii)) in Hend.
    rewrite length_skipn in Hend. simpl in Hend. lia. }
  intros p Hp. specialize (Hfirst (p - a)%nat ltac:(lia)).
  cbv beta in Hfirst. cbn [endIndex rest captures] in Hfirst.
  apply lookNext_None in Hfirst. destruct Hfirst as [Hm _].
  cbn [rest] in Hm. rewrite R5, skipn_skipn in Hm.
  now replace (p - a + a)%nat with p in Hm by lia.
Qed.

(** ** The search of [exec] *)

Lemma search_Some (r : regex) (l : list ascii) :
  forall i res,
    search r i l = Some res ->
    (i <= index res <= i + List.length l)%nat
    /\ exists st', m r Some (mkState (index res) (skipn (index res - i) l) [])
                     = Some st'
                   /\ lastIndex res = endIndex st'
                   /\ groups res = captures st'.
Proof.
  induction l as [|c tl IH]; intros i res H; simpl in H.
  - destruct (m r Some (mkState i [] [])) as [st|] eqn:E; [|discriminate].
    injection H as <-. simpl. split; [lia|]. exists st.
    rewrite Nat.sub_diag. auto.
  - destruct (m r Some (mkState i (c :: tl) [])) as [st|] eqn:E.
    + injection H as <-. simpl. split; [lia|]. exists st.
      rewrite Nat.sub_diag. auto.
    + destruct (IH _ _ H) as [Hr [st' [Hm Hres]]]. simpl. split; [lia|].
      exists st'. split; [|exact Hres].
      replace (index res - i)%nat with (S (index res - S i)) by lia.
      exact Hm.
Qed.

Lemma execFrom_Some (r : regex) (l : list ascii) (lastIdx : nat)
    (res : MatchResult) :
  execFrom r l lastIdx = Some res ->
  (lastIdx <= index res <= List.length l)%nat
  /\ exists st', m r Some (mkState (index res) (skipn (index res) l) [])
                   = Some st'
                 /\ lastIndex res = endIndex st'
                 /\ groups res = captures st'.
Proof.
  unfold execFrom. destruct (List.length l <? lastIdx)%nat eqn:E; [discriminate|].
  apply Nat.ltb_ge in E. intros H. apply search_Some in H.
  destruct H as [Hr [st' [Hm Hres]]]. rewrite length_skipn in Hr.
  split; [lia|]. exists st'. split; [|exact Hres].
  rewrite skipn_skipn in Hm.
  now replace (index res - lastIdx + lastIdx)%nat with (index res) in Hm by lia.
Qed.

(** ** The annotations of a line *)

Lemma scannedFrom_weaken (file0 : string) (lineNumber : Z) (l : list ascii)
    (lb lb' : nat) (todos : list Todo) :
  (lb <= lb')%nat ->
  scannedFrom file0 lineNumber l lb' todos ->
  scannedFrom file0 lineNumber l lb todos.
Proof.
  intros Hle. destruct todos as [|t more]; simpl; [auto|].
  intros [c [a [e [Hc H]]]]. exists c, a, e. split; [lia|exact H].
Qed.

Lemma truthy_true (s : string) : truthy s = true <-> s <> "".
Proof.
  unfold truthy. destruct (String.eqb_spec s ""); simpl; split; intros H;
    congruence.
Qed.

(** The loop ends, with enough turns, and returns annotations found from
    left to right. *)
Lemma scanTodos_spec (file0 : string) (lineNumber : Z) (l : list ascii) :
  forall fuel lb,
    (List.length l - lb < fuel)%nat ->
    exists todos,
      scanTodos fuel file0 lineNumber l lb = Some todos
      /\ scannedFrom file0 lineNumber l lb todos.
Proof.
  induction fuel as [|fuel IH]; intros lb Hfuel; [lia|].
  simpl. destruct (execFrom todoRegex l lb) as [res|] eqn:E.
  - destruct (execFrom_Some _ _ _ _ E) as [[Hlb Hidx] [st' [Hm [Hlast Hgroups]]]].
    destruct (todoRegex_match _ _ _ Hidx Hm)
      as [a [Hmark [Ha [Hae [He [Hg3 [Hend Hmin]]]]]]].
    unfold group. rewrite Hgroups, Hg3, Hlast.
    destruct (IH (endIndex st') ltac:(lia)) as [more [-> Hmore]].
    destruct (truthy _) eqn:Et.
    + eexists. split; [reflexivity|].
      exists (index res), a, (endIndex st').
      repeat (split; [first [lia|reflexivity|assumption]|]).
      split; [now apply truthy_true|].
      auto.
    + exists more. split; [reflexivity|].
      apply scannedFrom_weaken with (lb' := endIndex st'); [lia|exact Hmore].
  - exists []. simpl. auto.
Qed.

Lemma extractTodos_spec (file0 : string) (lineNumber : Z) (lineText : string) :
  exists todos,
    extractTodos file0 lineNumber lineText = Some todos
    /\ scannedFrom file0 lineNumber (list_ascii_of_string lineText) 0 todos.
Proof. apply scanTodos_spec. lia. Qed.

(** The local conversion returns whenever the line exists. *)
Lemma localConvertTodo_total (document : TextDocument) (lineNumber : Z)
    (text lineText : string) (existingTodos : list Todo) :
  lineAt document lineNumber = Some lineText ->
  exists todos' document',
    localConvertTodo document lineNumber text existingTodos
    = Some (todos', document').
Proof.
  intros Hline. unfold localConvertTodo. rewrite Hline.
  destruct (extractTodos_spec (fsPath document) lineNumber lineText)
    as [scanned [-> _]].
  eexists. eexists. reflexivity.
Qed.


(** ** Identifiers *)








(** What a conversion appends *)


(** ** Uniqueness of ids *)

Section IdUniqueness.

Variable todos : list Todo.
Hypothesis Hunique : NoDup (ids todos).









End IdUniqueness.

(** C3: the code at the failing input.  Two comment lines stand one above
    the other at the top of a file.  The conversion offered on line 0 stores
    the record of "a" with the id /p/a.ts:0:0 and deletes the line; the
    second comment is now line 0, and the conversion offered there appends
    the record of "b" with the same id, the store not being consulted: the
    ids of the store are no longer all different.  A Move of the record of
    "b", which looks the record up by its id, then moves the record of "a"
    and leaves that of "b" where it was.  The remote conversion builds its
    ids with the clock, and two conversions of the same kind at different
    instants give different ids. *)
Theorem C3_convert_repeats_id :
  offersConvert docPair 0 = Some "// TODO: a"
  /\ localConvertTodo docPair 0 "// TODO: a" [] = Some ([todoA], docPairRest)
  /\ offersConvert docPairRest 0 = Some "// TODO: b"
  /\ localConvertTodo docPairRest 0 "// TODO: b" [todoA]
     = Some ([todoA; todoB], docPairEnd)
  /\ ids [todoA; todoB] = [Some "/p/a.ts:0:0"; Some "/p/a.ts:0:0"]
  /\ ~ NoDup (ids [todoA; todoB])
  /\ message todoA <> message todoB
  /\ localMoveTodo docPairEnd 0 todoB ["2"] [todoA; todoB]
     = [setLine 1 todoA; todoB]
  /\ option_map (fun r => (ids (fst r), snd r))
       (remoteConvertTodo (mkGitEnv true (Some "A") (Some "a@x.com")) docPair 0
          "// TODO: a" "2024-01-01T00:00:00.000Z" 1700 [])
     = Some ([Some "remote-/p/a.ts:0:1700"], docPairRest)
  /\ option_map (fun r => (ids (fst r), snd r))
       (remoteConvertTodo (mkGitEnv true (Some "A") (Some "a@x.com"))
          docPairRest 0 "// TODO: b" "2024-01-01T00:00:00.001Z" 1701
          [newRemoteTodo "/p/a.ts" 0 "a" (mkUser "A" "a@x.com")
             "2024-01-01T00:00:00.000Z" 1700])
     = Some ([Some "remote-/p/a.ts:0:1700"; Some "remote-/p/a.ts:0:1701"],
             docPairEnd).
Proof.
  split; [reflexivity|]. split; [reflexivity|]. split; [reflexivity|].
  split; [reflexivity|]. split; [reflexivity|].
  split.
  { intros H. inversion H as [|? ? Hx _]; subst. apply Hx. now left. }
  split; [discriminate|].
  split; [reflexivity|]. split; reflexivity.
Qed.

(** ** Reverse conversion *)

Lemma localEditTodo_spec (document : TextDocument) (lineNumber : Z)
    (todo : Todo) (todos : list Todo) (lineText : string) :
  lineAt document lineNumber = Some lineText ->
  exists todos' document',
    localEditTodo document lineNumber todo todos = Some (todos', document')
    /\ lines document'
       = firstn (Z.to_nat lineNumber) (lines document)
         ++ [todoCommentFor document lineText todo]
         ++ skipn (Z.to_nat lineNumber) (lines document)
    /\ forall t, In t todos'
                 <-> In t todos
                     /\ ~ (file t = fsPath document /\ line t = lineNumber).
Proof.
  intros Hline. unfold localEditTodo. rewrite Hline.
  eexists. eexists. split; [reflexivity|]. split; [reflexivity|].
  intros t. rewrite filter_In, negb_true_iff, <- not_true_iff_false.
  now rewrite andb_true_iff, String.eqb_eq, Z.eqb_eq.
Qed.

(** C1: the code at the failing input.  The two records [fixBug] and
    [addTest] come from one line, "  // TODO: fix bug // TODO: add test", at
    line 1.  Reversing [fixBug] writes the comment of [fixBug] back before
    line 1, with the indentation of that line and the prefix of the
    language, and removes from the store every record of line 1: [addTest]
    goes too, although its message differs.  The removal command, on the
    same input, keeps it. *)
Theorem C1_reverse_drops_line_mates :
  localEditTodo docB 1 fixBug [fixBug; addTest; elsewhere]
    = Some ([elsewhere],
            mkDocument "/p/a.ts" "typescript"
              ["function f() {"; "  // TODO: fix bug"; "  return 1;"; "}"])
  /\ localRemoveTodo docB 1 fixBug [fixBug; addTest; elsewhere]
     = [addTest; elsewhere]
  /\ option_map (fun r => lines (snd r))
       (localEditTodo docPy 1 (annotationAt "/p/a.py" 1 4 "fix bug") [])
     = Some ["def f():"; "    # TODO: fix bug"; "    return 1"].
Proof. repeat split. Qed.

(** ** Empty messages *)

(** C2: the code at the failing input.  On the line "// TODO:" the
    conversion is offered; the scan finds no annotation with a message, the
    fallback then appends a record whose message is empty.  The remote
    conversion refuses the same line.  A remote Add and a remote message
    update accept a message made of blanks only. *)
Theorem C2_empty_message_is_stored :
  offersConvert docEmpty 0 = Some "// TODO:"
  /\ extractTodos "/p/a.ts" 0 "// TODO:" = Some []
  /\ localConvertTodo docEmpty 0 "// TODO:" []
     = Some ([mkTodo "/p/a.ts" 0 None local "" (Some "/p/a.ts:0:0")
                None None None None],
             mkDocument "/p/a.ts" "typescript" ["f();"])
  /\ remoteConvertTodo (mkGitEnv true (Some "A") (Some "a@x.com")) docEmpty 0
       "// TODO:" "2024-01-01T00:00:00.000Z" 1700 []
     = Some ([], docEmpty)
  /\ map message
       (remoteAddTodo (mkGitEnv true (Some "A") (Some "a@x.com")) (Some "   ")
          (Some (docEmpty, 1%Z)) "2024-01-01T00:00:00.000Z" 1700 [])
     = ["   "]
  /\ map message
       (remoteEditTodo recordA (Some "   ") "2024-02-02T00:00:00.000Z" [recordA])
     = ["   "]
  /\ trim "   " = "".
Proof. repeat split. Qed.

(** * Further properties of the code *)

(** ** Trimming *)

Module TrimFacts.

Arguments isSpace : simpl never.

Lemma trimStartL_noLead (l : list ascii) : noLeadSpace (trimStartL l).
Proof.
  induction l as [|c l IH]; simpl; [exact I|].
  destruct (isSpace c) eqn:E; [exact IH|exact E].
Qed.

Lemma trimStartL_fixed (l : list ascii) : noLeadSpace l -> trimStartL l = l.
Proof. destruct l as [|c l]; simpl; [reflexivity|]. now intros ->. Qed.

Lemma trimEndL_prefix (l : list ascii) :
  exists run, l = trimEndL l ++ run /\ forallb isSpace run = true.
Proof.
  unfold trimEndL. destruct (trimStartL_split (rev l)) as [run [E H]].
  exists (rev run). split.
  - rewrite <- rev_app_distr, <- E. now rewrite rev_involutive.
  - rewrite forallb_forall in *. intros c Hc. apply H. now apply in_rev.
Qed.

Lemma trimEndL_noLead (l : list ascii) :
  noLeadSpace l -> noLeadSpace (trimEndL l).
Proof.
  destruct (trimEndL_prefix l) as [run [E _]].
  destruct (trimEndL l) as [|c t]; [intros _; exact I|].
  rewrite E. simpl. auto.
Qed.

Lemma trimEndL_fixed (l : list ascii) :
  noLeadSpace (rev l) -> trimEndL l = l.
Proof.
  intros H. unfold trimEndL. rewrite (trimStartL_fixed _ H).
  apply rev_involutive.
Qed.

Lemma trimL_noLead (l : list ascii) : noLeadSpace (trimL l).
Proof. apply trimEndL_noLead, trimStartL_noLead. Qed.

Lemma trimL_noTrail (l : list ascii) : noLeadSpace (rev (trimL l)).
Proof.
  unfold trimL, trimEndL. rewrite rev_involutive. apply trimStartL_noLead.
Qed.

Lemma trimL_fixed (l : list ascii) :
  noLeadSpace l -> noLeadSpace (rev l) -> trimL l = l.
Proof.
  intros H1 H2. unfold trimL. rewrite (trimStartL_fixed _ H1).
  now apply trimEndL_fixed.
Qed.

Lemma trimL_idem (l : list ascii) : trimL (trimL l) = trimL l.
Proof. apply trimL_fixed; [apply trimL_noLead|apply trimL_noTrail]. Qed.

Lemma trim_idem (s : string) : trim (trim s) = trim s.
Proof.
  unfold trim. now rewrite list_ascii_of_string_of_list_ascii, trimL_idem.
Qed.

(** What [trim] keeps is a run of the characters it was given. *)
Lemma trimL_infix (l : list ascii) :
  exists pre post, l = pre ++ trimL l ++ post.
Proof.
  destruct (trimStartL_split l) as [pre [E _]].
  destruct (trimEndL_prefix (trimStartL l)) as [post [E' _]].
  exists pre, post. unfold trimL. now rewrite <- E', <- E.
Qed.

Lemma trimL_Forall (P : ascii -> Prop) (l : list ascii) :
  Forall P l -> Forall P (trimL l).
Proof.
  destruct (trimL_infix l) as [pre [post E]]. intros H. rewrite E in H.
  apply Forall_app in H. destruct H as [_ H].
  apply Forall_app in H. tauto.
Qed.

End TrimFacts.
Import TrimFacts.

(** ** The git identity *)

(** X1: an identity is returned exactly when a workspace folder is open,
    both git commands answer and both answers are non-empty once trimmed;
    the identity then holds the trimmed answers, so its name and email are
    non-empty and carry no white space at either end. *)
Theorem getGitUserInfo_Some :
  forall (env : GitEnv) (u : User),
    getGitUserInfo env = Some u
    <-> hasWorkspaceFolder env = true
        /\ exists n e,
             gitUserName env = Some n /\ gitUserEmail env = Some e
             /\ u = mkUser (trim n) (trim e)
             /\ name u <> "" /\ email u <> ""
             /\ trim (name u) = name u /\ trim (email u) = email u.
Proof.
  intros env u. unfold getGitUserInfo.
  destruct (hasWorkspaceFolder env); simpl.
  2:{ split; [discriminate|]. intros [H _]. discriminate H. }
  destruct (gitUserName env) as [n|].
  2:{ split; [discriminate|]. intros [_ [n [e [H _]]]]. discriminate H. }
  destruct (gitUserEmail env) as [e|].
  2:{ split; [discriminate|]. intros [_ [n' [e' [_ [H _]]]]]. discriminate H. }
  destruct (truthy (trim n)) eqn:En; simpl.
  - destruct (truthy (trim e)) eqn:Ee; simpl.
    + apply truthy_true in En, Ee. split.
      * intros H. injection H as <-. split; [reflexivity|].
        exists n, e. simpl. repeat split; auto; apply trim_idem.
      * intros [_ [n' [e' [Hn [He [-> _]]]]]].
        injection Hn as <-. injection He as <-. reflexivity.
    + split; [discriminate|].
      intros [_ [n' [e' [Hn [He [-> [_ [H _]]]]]]]]. exfalso.
      injection He as <-. simpl in H. apply truthy_true in H. congruence.
  - split; [discriminate|].
    intros [_ [n' [e' [Hn [He [-> [H _]]]]]]]. exfalso.
    injection Hn as <-. simpl in H. apply truthy_true in H. congruence.
Qed.

Lemma getGitUserInfo_Some_witness :
  hasWorkspaceFolder gitAlice = true
  /\ exists n e,
       gitUserName gitAlice = Some n /\ gitUserEmail gitAlice = Some e
       /\ mkUser "Alice" "alice@x.com" = mkUser (trim n) (trim e)
       /\ name (mkUser "Alice" "alice@x.com") <> ""
       /\ email (mkUser "Alice" "alice@x.com") <> ""
       /\ trim (name (mkUser "Alice" "alice@x.com"))
          = name (mkUser "Alice" "alice@x.com")
       /\ trim (email (mkUser "Alice" "alice@x.com"))
          = email (mkUser "Alice" "alice@x.com").
Proof.
  apply (proj1 (getGitUserInfo_Some gitAlice (mkUser "Alice" "alice@x.com"))).
  reflexivity.
Defined.

(** ** The roster *)

Lemma addTeamMember_new (team : list User) (name0 email0 : string) :
  hasEmail team email0 = false ->
  addTeamMember team name0 email0 = (team ++ [mkUser name0 email0], true).
Proof. unfold addTeamMember, hasEmail. now intros ->. Qed.

Lemma addTeamMember_known (team : list User) (name0 email0 : string) :
  hasEmail team email0 = true ->
  addTeamMember team name0 email0 = (team, false).
Proof. unfold addTeamMember, hasEmail. now intros ->. Qed.

Lemma hasEmail_false (team : list User) (e : string) :
  hasEmail team e = false <-> ~ In e (map email team).
Proof.
  rewrite <- not_true_iff_false, hasEmail_spec, in_map_iff.
  split; intros H [a Ha]; apply H; exists a; tauto.
Qed.

Lemma filter_length_lt {A : Type} (f : A -> bool) (l : list A) :
  (List.length (filter f l) =? List.length l)%nat = false
  <-> exists x, In x l /\ f x = false.
Proof.
  induction l as [|a l IH]; simpl.
  - split; [discriminate|]. intros [x [[] _]].
  - pose proof (filter_length_le f l) as Hle.
    destruct (f a) eqn:E; simpl.
    + rewrite IH. split; intros [x [Hin Hx]]; exists x; [auto|].
      destruct Hin as [<-|Hin]; [congruence|auto].
    + split.
      * intros _. exists a. auto.
      * intros _. apply Nat.eqb_neq. lia.
Qed.

Lemma removeTeamMember_spec (team : list User) (email0 : string) :
  (snd (removeTeamMember team email0) = true <-> In email0 (map email team))
  /\ (forall member, In member (fst (removeTeamMember team email0))
                     <-> In member team /\ email member <> email0).
Proof.
  unfold removeTeamMember.
  set (keep := fun member : User => negb (String.eqb (email member) email0)).
  destruct (List.length (filter keep team) =? List.length team)%nat eqn:E; simpl.
  - assert (Hall : forall x, In x team -> keep x = true).
    { intros x Hin. destruct (keep x) eqn:Ex; [reflexivity|].
      assert (Hlt : (List.length (filter keep team) =? List.length team)%nat
                    = false) by (apply filter_length_lt; now exists x).
      congruence. }
    split.
    + split; [discriminate|]. intros Hin. apply in_map_iff in Hin.
      destruct Hin as [x [Hx Hin]]. specialize (Hall x Hin). unfold keep in Hall.
      rewrite <- Hx, String.eqb_refl in Hall. discriminate.
    + intros member. split; [|tauto]. intros Hin. split; [exact Hin|].
      specialize (Hall member Hin). unfold keep in Hall.
      apply negb_true_iff, String.eqb_neq in Hall. exact Hall.
  - split.
    + split; [intros _|reflexivity]. apply filter_length_lt in E.
      destruct E as [x [Hin Hx]]. unfold keep in Hx.
      apply negb_false_iff, String.eqb_eq in Hx.
      apply in_map_iff. now exists x.
    + intros member. rewrite filter_In. unfold keep.
      now rewrite negb_true_iff, String.eqb_neq.
Qed.

Lemma map_filter_NoDup {A B : Type} (g : A -> B) (f : A -> bool) (l : list A) :
  NoDup (map g l) -> NoDup (map g (filter f l)).
Proof.
  induction l as [|t tl IH]; simpl; intros H; [constructor|].
  inversion H as [|? ? Hx Hrest]; subst.
  destruct (f t); simpl; [|now apply IH].
  constructor; [|now apply IH].
  intros Hin. apply Hx. apply in_map_iff in Hin.
  destruct Hin as [u [Hu Hin]]. apply filter_In in Hin.
  apply in_map_iff. exists u. tauto.
Qed.

Lemma addTeamMember_unique (team : list User) (name0 email0 : string) :
  rosterUnique team -> rosterUnique (fst (addTeamMember team name0 email0)).
Proof.
  intros H. destruct (hasEmail team email0) eqn:E.
  - now rewrite addTeamMember_known.
  - rewrite addTeamMember_new by exact E. unfold rosterUnique. simpl.
    rewrite map_app. apply NoDup_app; auto.
    + simpl. repeat constructor. intros [].
    + intros a Ha [<-|[]]. now apply hasEmail_false in E.
Qed.

Lemma removeTeamMember_unique (team : list User) (email0 : string) :
  rosterUnique team -> rosterUnique (fst (removeTeamMember team email0)).
Proof.
  intros H. unfold removeTeamMember.
  match goal with |- context [if ?b then _ else _] => destruct b end; simpl;
    [exact H|]. now apply map_filter_NoDup.
Qed.

(** The validation of the roster prompt is at least as strict as the
    duplicate test of [addTeamMember]. *)
Lemma validateMemberEmail_fresh (team : list User) (value : string) :
  validateMemberEmail team value = None ->
  hasEmail team value = false /\ value <> ""
  /\ trim value <> "" /\ includesChar "@" value = true.
Proof.
  unfold validateMemberEmail.
  destruct (negb (truthy value) || String.eqb (trim value) "") eqn:E1;
    [discriminate|].
  destruct (negb (includesChar "@" value)) eqn:E2; [discriminate|].
  destruct (existsb _ team) eqn:E3; [discriminate|]. intros _.
  apply orb_false_iff in E1. destruct E1 as [Et En].
  apply negb_false_iff in Et, E2. apply truthy_true in Et.
  apply String.eqb_neq in En. repeat split; auto.
  destruct (hasEmail team value) eqn:Eh; [|reflexivity].
  apply hasEmail_spec in Eh. destruct Eh as [a [Hin Ha]].
  assert (Hex : existsb (fun m0 => String.eqb (trim (toLowerCase (email m0)))
                                      (trim (toLowerCase value))) team = true).
  { apply existsb_exists. exists a. split; [exact Hin|].
    rewrite Ha. apply String.eqb_refl. }
  congruence.
Qed.

(** X2: no email twice in the roster is kept by [addTeamMember], by
    [removeTeamMember] and by every path of [remoteTodo.manageTeam]. *)
Theorem roster_stays_unique :
  forall (team : list User),
    rosterUnique team ->
    (forall name0 email0, rosterUnique (fst (addTeamMember team name0 email0)))
    /\ (forall email0, rosterUnique (fst (removeTeamMember team email0)))
    /\ (forall script, rosterUnique (manageTeam script team)).
Proof.
  intros team H. split; [|split].
  - intros. now apply addTeamMember_unique.
  - intros. now apply removeTeamMember_unique.
  - intros script. unfold manageTeam.
    destruct (teamPick script) as [i|]; [|exact H].
    destruct (nth_error (teamOptions team) i) as [[|member|]|]; try exact H.
    + destruct (showInputBox _ _) as [memberEmail|]; [|exact H].
      destruct (negb (truthy memberEmail)); [exact H|].
      destruct (teamNameInput script) as [memberName|]; [|exact H].
      destruct (negb (truthy memberName)); [exact H|].
      now apply addTeamMember_unique.
    + now apply removeTeamMember_unique.
Qed.

Lemma roster_stays_unique_witness :
  rosterUnique (fst (addTeamMember teamAB "C" "a@x.com"))
  /\ rosterUnique (fst (removeTeamMember teamAB "a@x.com"))
  /\ rosterUnique (manageTeam addCarol teamAB).
Proof.
  assert (H : rosterUnique teamAB).
  { unfold rosterUnique. simpl. repeat constructor; simpl; intros H;
      repeat destruct H as [H|H]; discriminate || contradiction. }
  destruct (roster_stays_unique teamAB H) as [H1 [H2 H3]].
  split; [apply H1|split; [apply H2|apply H3]].
Defined.

(** X3: [removeTeamMember] answers true exactly when some member has the
    email; the roster it leaves holds the members with another email, and
    all of them. *)
Theorem removeTeamMember_removes :
  forall (team : list User) (email0 : string),
    (snd (removeTeamMember team email0) = true <-> In email0 (map email team))
    /\ (forall member, In member (fst (removeTeamMember team email0))
                       <-> In member team /\ email member <> email0)
    /\ ~ In email0 (map email (fst (removeTeamMember team email0))).
Proof.
  intros team email0. destruct (removeTeamMember_spec team email0) as [H1 H2].
  split; [exact H1|]. split; [exact H2|].
  intros Hin. apply in_map_iff in Hin. destruct Hin as [x [Hx Hin]].
  apply H2 in Hin. tauto.
Qed.

(** X4: a member added with an email the roster did not have is removed
    again by [removeTeamMember], which gives the former roster back; an
    email the roster has is refused and the roster is left as it is. *)
Theorem addTeamMember_then_remove :
  forall (team : list User) (name0 email0 : string),
    (~ In email0 (map email team) ->
     addTeamMember team name0 email0 = (team ++ [mkUser name0 email0], true)
     /\ removeTeamMember (fst (addTeamMember team name0 email0)) email0
        = (team, true))
    /\ (In email0 (map email team) ->
        addTeamMember team name0 email0 = (team, false)).
Proof.
  intros team name0 email0. split.
  - intros Hnew. apply hasEmail_false in Hnew.
    rewrite (addTeamMember_new _ _ _ Hnew). split; [reflexivity|]. simpl.
    unfold removeTeamMember. rewrite filter_app. simpl.
    rewrite String.eqb_refl. simpl. rewrite app_nil_r.
    assert (Hkeep : filter (fun member => negb (String.eqb (email member) email0))
                      team = team).
    { apply filter_all_true. intros x Hin. apply negb_true_iff, String.eqb_neq.
      intros Hx. apply hasEmail_false in Hnew. apply Hnew.
      apply in_map_iff. now exists x. }
    rewrite Hkeep, length_app. simpl.
    destruct (List.length team =? List.length team + 1)%nat eqn:E;
      [apply Nat.eqb_eq in E; lia|reflexivity].
  - intros Hin. apply addTeamMember_known.
    destruct (hasEmail team email0) eqn:E; [reflexivity|].
    apply hasEmail_false in E. contradiction.
Qed.

Lemma addTeamMember_then_remove_witness :
  (addTeamMember teamAB "C" "c@x.com" = (teamAB ++ [mkUser "C" "c@x.com"], true)
   /\ removeTeamMember (fst (addTeamMember teamAB "C" "c@x.com")) "c@x.com"
      = (teamAB, true))
  /\ addTeamMember teamAB "C" "a@x.com" = (teamAB, false).
Proof.
  split.
  - apply (proj1 (addTeamMember_then_remove teamAB "C" "c@x.com")).
    simpl. intros H. repeat destruct H as [H|H]; discriminate || contradiction.
  - apply (proj2 (addTeamMember_then_remove teamAB "C" "a@x.com")).
    simpl. now left.
Defined.

(** X5: in [remoteTodo.manageTeam], the first email the prompt accepts is
    never refused as a duplicate afterwards: with a non-empty name the
    roster grows by exactly that member, the email as typed. *)
Theorem manageTeam_add_appends :
  forall (script : TeamScript) (team : list User)
         (memberEmail memberName : string),
    teamPick script = Some 0%nat ->
    showInputBox (validateMemberEmail team) (teamEmailTyped script)
      = Some memberEmail ->
    teamNameInput script = Some memberName ->
    memberName <> "" ->
    manageTeam script team = team ++ [mkUser memberName memberEmail]
    /\ ~ In memberEmail (map email team).
Proof.
  intros script team memberEmail memberName Hpick Hbox Hname Hne.
  destruct (showInputBox_Some _ _ _ Hbox) as [_ Hvalid].
  destruct (validateMemberEmail_fresh _ _ Hvalid) as [Hfresh [Hv _]].
  unfold manageTeam. rewrite Hpick. simpl. rewrite Hbox, Hname.
  apply truthy_true in Hv, Hne. rewrite Hv, Hne. simpl.
  rewrite (addTeamMember_new _ _ _ Hfresh). split; [reflexivity|].
  now apply hasEmail_false.
Qed.

Lemma manageTeam_add_appends_witness :
  manageTeam addCarol teamAB = teamAB ++ [mkUser "Carol" "carol@x.com"]
  /\ ~ In "carol@x.com" (map email teamAB).
Proof.
  apply (manageTeam_add_appends addCarol teamAB "carol@x.com" "Carol");
    try reflexivity.
  discriminate.
Defined.

(** ** Message update *)



(** ** Who sees a new remote record *)

Lemma filterVisible_app (l1 l2 : list Todo) (viewer : string) :
  filterVisibleRemoteTodos (l1 ++ l2) viewer
  = filterVisibleRemoteTodos l1 viewer ++ filterVisibleRemoteTodos l2 viewer.
Proof. apply filter_app. Qed.

Lemma newRemoteTodo_visible (file0 : string) (lineNumber : Z)
    (message0 : string) (u : User) (now : string) (nowMs : Z) (viewer : string) :
  isVisibleTo viewer (newRemoteTodo file0 lineNumber message0 u now nowMs)
  = String.eqb (email u) viewer.
Proof.
  unfold isVisibleTo. simpl. now destruct (String.eqb (email u) viewer).
Qed.

(** X7: right after its creation, by [remoteTodo.addTodo] or by
    [remoteTodo.convertTodo], a remote record is shown by the visibility
    filter to the viewer with the email of the git identity that created
    it, and to no other viewer; what the filter showed of the store before
    is still shown, in front of it. *)
Theorem new_remote_record_visible_to_author :
  forall (env : GitEnv) (u : User) (now : string) (nowMs : Z)
         (todos : list Todo) (viewer : string),
    getGitUserInfo env = Some u ->
    (forall message0 document lineNumber,
        message0 <> "" ->
        let t := newRemoteTodo (fsPath document) lineNumber message0 u now nowMs in
        filterVisibleRemoteTodos
          (remoteAddTodo env (Some message0) (Some (document, lineNumber))
             now nowMs todos) viewer
        = filterVisibleRemoteTodos todos viewer
          ++ (if String.eqb (email u) viewer then [t] else []))
    /\ (forall document lineNumber text lineText,
           lineAt document lineNumber = Some lineText ->
           let message0 := trim (replaceEmpty detectRegex text) in
           message0 <> "" ->
           let t := newRemoteTodo (fsPath document) lineNumber message0 u
                      now nowMs in
           option_map (fun r => filterVisibleRemoteTodos (fst r) viewer)
             (remoteConvertTodo env document lineNumber text now nowMs todos)
           = Some (filterVisibleRemoteTodos todos viewer
                   ++ (if String.eqb (email u) viewer then [t] else []))).
Proof.
  intros env u now nowMs todos viewer Hu. split.
  - intros message0 document lineNumber Hne t. unfold remoteAddTodo.
    apply truthy_true in Hne. rewrite Hu, Hne. simpl.
    rewrite filterVisible_app. f_equal. unfold filterVisibleRemoteTodos.
    simpl. fold t. unfold t at 1. now rewrite newRemoteTodo_visible.
  - intros document lineNumber text lineText Hline message0 Hne t.
    unfold remoteConvertTodo. rewrite Hu, Hline. fold message0.
    apply truthy_true in Hne. rewrite Hne. simpl.
    rewrite filterVisible_app. f_equal. f_equal.
    unfold filterVisibleRemoteTodos. simpl. fold t. unfold t at 1.
    now rewrite newRemoteTodo_visible.
Qed.

Lemma new_remote_record_visible_to_author_witness :
  filterVisibleRemoteTodos
    (remoteAddTodo gitAlice (Some "review") (Some (docA, 2%Z))
       "2024-02-02T00:00:00.000Z" 1700 [recordAB]) "alice@x.com"
  = filterVisibleRemoteTodos [recordAB] "alice@x.com"
    ++ (if String.eqb (email (mkUser "Alice" "alice@x.com")) "alice@x.com"
        then [newRemoteTodo (fsPath docA) 2 "review"
                (mkUser "Alice" "alice@x.com") "2024-02-02T00:00:00.000Z" 1700]
        else []).
Proof.
  apply (proj1 (new_remote_record_visible_to_author gitAlice
                  (mkUser "Alice" "alice@x.com") "2024-02-02T00:00:00.000Z"
                  1700 [recordAB] "alice@x.com" eq_refl)
           "review" docA 2%Z).
  discriminate.
Defined.

(** ** What the local conversion appends *)

Lemma scannedFrom_shape (document : TextDocument) (lineNumber : Z)
    (l : list ascii) (todos : list Todo) :
  forall lb,
    scannedFrom (fsPath document) lineNumber l lb todos ->
    Forall (localRecordOf document lineNumber) todos.
Proof.
  induction todos as [|t more IH]; intros lb H; [constructor|].
  destruct H as [c [a [e [_ [_ [_ [-> [_ [_ [_ [_ Hmore]]]]]]]]]]].
  constructor; [|now apply (IH e)].
  unfold localRecordOf. simpl. repeat split.
Qed.

(** X8: on an existing line [localTodo.convertTodo] always ends and always
    appends at least one record, after the records the store had; every
    record it appends is a local record of that file and line, without
    author, assignees or dates. *)
Theorem localConvertTodo_never_silent :
  forall (document : TextDocument) (lineNumber : Z) (text lineText : string)
         (existingTodos : list Todo),
    lineAt document lineNumber = Some lineText ->
    exists new document',
      localConvertTodo document lineNumber text existingTodos
        = Some (existingTodos ++ new, document')
      /\ new <> []
      /\ Forall (localRecordOf document lineNumber) new.
Proof.
  intros document lineNumber text lineText existingTodos Hline.
  unfold localConvertTodo. rewrite Hline.
  destruct (extractTodos_spec (fsPath document) lineNumber lineText)
    as [scanned [-> Hscan]].
  destruct scanned as [|t more].
  - eexists. eexists. split; [reflexivity|]. split; [discriminate|].
    constructor; [|constructor]. unfold localRecordOf. simpl. repeat split.
  - exists (t :: more). eexists. split; [reflexivity|].
    split; [discriminate|]. exact (scannedFrom_shape _ _ _ _ _ Hscan).
Qed.

Lemma localConvertTodo_never_silent_witness :
  exists new document',
    localConvertTodo docA 1 "// TODO: fix bug" [localOther]
      = Some ([localOther] ++ new, document')
    /\ new <> []
    /\ Forall (localRecordOf docA 1) new.
Proof.
  apply (localConvertTodo_never_silent docA 1 "// TODO: fix bug"
           "  // TODO: fix bug" [localOther]).
  reflexivity.
Defined.

(** ** Picking a record to reverse *)

Lemma list_ascii_of_string_app (a b : string) :
  list_ascii_of_string (a ++ b)
  = list_ascii_of_string a ++ list_ascii_of_string b.
Proof. induction a as [|c a IH]; simpl; [reflexivity|now rewrite IH]. Qed.

Lemma forallb_firstn {A : Type} (P : A -> bool) (n : nat) (l : list A) :
  forallb P l = true -> forallb P (firstn n l) = true.
Proof.
  revert n. induction l as [|x l IH]; intros [|n]; simpl; auto.
  rewrite !andb_true_iff. intros [Hx Hl]. auto.
Qed.

Lemma forallb_skipn {A : Type} (P : A -> bool) (n : nat) (l : list A) :
  forallb P l = true -> forallb P (skipn n l) = true.
Proof.
  revert n. induction l as [|x l IH]; intros [|n]; simpl; auto.
  rewrite andb_true_iff. intros [_ Hl]. auto.
Qed.

(** The comment written back holds no line terminator when neither the
    line it is indented after nor the message does: the indentation is a
    piece of that line. *)
Lemma todoCommentFor_singleLine (document : TextDocument) (lineText : string)
    (todo : Todo) :
  singleLine lineText -> singleLine (message todo) ->
  singleLine (todoCommentFor document lineText todo).
Proof.
  unfold singleLine, todoCommentFor. intros Hline Hmsg.
  rewrite !list_ascii_of_string_app, !forallb_app, Hmsg.
  repeat (apply andb_true_iff; split); try reflexivity.
  - destruct (exec indentRegex lineText) as [res|]; [|reflexivity].
    unfold group. destruct (lookupGroup 1 (groups res)) as [[a b]|];
      [|reflexivity].
    rewrite list_ascii_of_string_of_list_ascii. unfold slice.
    now apply forallb_firstn, forallb_skipn.
  - now destruct (String.eqb (languageId document) "python").
Qed.

(** X9: in [localTodo.editTodosInFile] the record picked from the list of
    the file is reversed at its own stored line.  For a line and a message
    without line terminators, the comment written back is one line, inserted
    before the stored line, all other lines staying in their order; and the
    store loses the record, together with every record of the same file and
    line and with no other record. *)
Theorem localEditTodosInFile_removes_pick :
  forall (document : TextDocument) (i : nat) (todos : list Todo)
         (selected : Todo) (lineText : string),
    nth_error (filter (fun todo => String.eqb (file todo) (fsPath document))
                      todos) i = Some selected ->
    lineAt document (line selected) = Some lineText ->
    singleLine lineText ->
    singleLine (message selected) ->
    exists todos' document',
      localEditTodosInFile document (Some i) todos = Some (todos', document')
      /\ In selected todos
      /\ ~ In selected todos'
      /\ (forall t, In t todos'
                    <-> In t todos
                        /\ ~ (file t = fsPath document /\ line t = line selected))
      /\ singleLine (todoCommentFor document lineText selected)
      /\ lines document'
         = firstn (Z.to_nat (line selected)) (lines document)
           ++ [todoCommentFor document lineText selected]
           ++ skipn (Z.to_nat (line selected)) (lines document).
Proof.
  intros document i todos selected lineText Hpick Hline Hsingle Hmsg.
  pose proof (nth_error_In _ _ Hpick) as Hin. apply filter_In in Hin.
  destruct Hin as [Hin Hfile]. apply String.eqb_eq in Hfile.
  destruct (localEditTodo_spec document (line selected) selected todos
              lineText Hline) as [todos' [document' [Hedit [Hlines Hstore]]]].
  exists todos', document'. unfold localEditTodosInFile.
  destruct (filter _ todos) as [|f0 fs] eqn:Ef.
  { destruct i; discriminate Hpick. }
  change ((List.length (f0 :: fs) =? 0)%nat) with false. cbv iota.
  rewrite Hpick. split; [exact Hedit|]. split; [exact Hin|].
  split; [|split; [exact Hstore|split; [|exact Hlines]]].
  - intros H. apply Hstore in H. tauto.
  - now apply todoCommentFor_singleLine.
Qed.

Lemma localEditTodosInFile_removes_pick_witness :
  exists todos' document',
    localEditTodosInFile docB (Some 1%nat) [fixBug; addTest; elsewhere]
      = Some (todos', document')
    /\ In addTest [fixBug; addTest; elsewhere]
    /\ ~ In addTest todos'
    /\ (forall t, In t todos'
                  <-> In t [fixBug; addTest; elsewhere]
                      /\ ~ (file t = fsPath docB /\ line t = line addTest))
    /\ singleLine (todoCommentFor docB "  return 1;" addTest)
    /\ lines document'
       = firstn (Z.to_nat (line addTest)) (lines docB)
         ++ [todoCommentFor docB "  return 1;" addTest]
         ++ skipn (Z.to_nat (line addTest)) (lines docB).
Proof.
  apply (localEditTodosInFile_removes_pick docB 1 [fixBug; addTest; elsewhere]
           addTest "  return 1;"); reflexivity.
Defined.

(** ** parseInt on decimal renderings *)

Module ParseIntFacts.








End ParseIntFacts.



(** ** The read cache *)

Section CacheFacts.

Variable T : Type.

Local Abbreviation Cache := (TodoCache.Cache T).
Local Abbreviation mapGet := (TodoCache.mapGet T).
Local Abbreviation mapSet := (TodoCache.mapSet T).
Local Abbreviation mapDelete := (TodoCache.mapDelete T).

Lemma mapGet_mapSet_same (key : string) (e : TodoCache.CacheEntry T) (c : Cache) :
  mapGet key (mapSet key e c) = Some e.
Proof.
  induction c as [|[k e0] c IH]; simpl.
  - now rewrite String.eqb_refl.
  - destruct (String.eqb k key) eqn:E; simpl; rewrite E; auto.
Qed.

Lemma mapGet_mapSet_other (key key' : string) (e : TodoCache.CacheEntry T)
    (c : Cache) :
  key' <> key -> mapGet key' (mapSet key e c) = mapGet key' c.
Proof.
  intros Hne. induction c as [|[k e0] c IH]; simpl.
  - destruct (String.eqb_spec key key'); [congruence|reflexivity].
  - destruct (String.eqb_spec k key) as [->|Hk]; simpl.
    + destruct (String.eqb_spec key key'); [congruence|reflexivity].
    + now rewrite IH.
Qed.

Lemma mapGet_mapDelete_same (key : string) (c : Cache) :
  mapGet key (mapDelete key c) = None.
Proof.
  induction c as [|[k e0] c IH]; simpl; [reflexivity|].
  destruct (String.eqb k key) eqn:E; simpl; [exact IH|]. now rewrite E.
Qed.

Lemma mapGet_mapDelete_other (key key' : string) (c : Cache) :
  key' <> key -> mapGet key' (mapDelete key c) = mapGet key' c.
Proof.
  intros Hne. induction c as [|[k e0] c IH]; simpl; [reflexivity|].
  destruct (String.eqb_spec k key) as [->|Hk]; simpl.
  - destruct (String.eqb_spec key key'); [congruence|exact IH].
  - now rewrite IH.
Qed.

Lemma mapGet_In (key : string) (e : TodoCache.CacheEntry T) (c : Cache) :
  mapGet key c = Some e -> In (key, e) c.
Proof.
  induction c as [|[k e0] c IH]; simpl; [discriminate|].
  destruct (String.eqb_spec k key) as [->|Hk].
  - intros H. injection H as ->. now left.
  - intros H. right. now apply IH.
Qed.

Lemma In_mapGet (key : string) (e : TodoCache.CacheEntry T) (c : Cache) :
  cacheWellFormed c -> In (key, e) c -> mapGet key c = Some e.
Proof.
  unfold cacheWellFormed.
  induction c as [|[k e0] c IH]; simpl; intros Hnd Hin; [contradiction|].
  inversion Hnd as [|? ? Hk Hrest]; subst.
  destruct Hin as [Heq|Hin].
  - injection Heq as -> ->. now rewrite String.eqb_refl.
  - destruct (String.eqb_spec k key) as [->|Hne]; [|now apply IH].
    exfalso. apply Hk. apply in_map_iff. now exists (key, e).
Qed.

Lemma mapGet_deleteAll (keys : list string) (key : string) :
  forall c : Cache,
    mapGet key (fold_left (fun c0 k => mapDelete k c0) keys c)
    = if existsb (String.eqb key) keys then None else mapGet key c.
Proof.
  induction keys as [|k keys IH]; intros c; simpl; [reflexivity|].
  rewrite IH. destruct (String.eqb_spec key k) as [->|Hne]; simpl.
  - rewrite mapGet_mapDelete_same. now destruct (existsb _ keys).
  - now rewrite mapGet_mapDelete_other.
Qed.

Lemma In_deleteAll (keys : list string) (ke : string * TodoCache.CacheEntry T) :
  forall c : Cache,
    In ke (fold_left (fun c0 k => mapDelete k c0) keys c)
    <-> In ke c /\ ~ In (fst ke) keys.
Proof.
  induction keys as [|k keys IH]; intros c; simpl; [tauto|].
  rewrite IH. unfold TodoCache.mapDelete at 1.
  rewrite filter_In, negb_true_iff, String.eqb_neq. intuition congruence.
Qed.

Lemma deleteAll_wellFormed (keys : list string) :
  forall c : Cache,
    cacheWellFormed c ->
    cacheWellFormed (fold_left (fun c0 k => mapDelete k c0) keys c).
Proof.
  induction keys as [|k keys IH]; intros c H; simpl; [exact H|].
  apply IH. unfold cacheWellFormed, TodoCache.mapDelete.
  now apply map_filter_NoDup.
Qed.

Lemma mapSet_wellFormed (key : string) (e : TodoCache.CacheEntry T) (c : Cache) :
  cacheWellFormed c -> cacheWellFormed (mapSet key e c).
Proof.
  unfold cacheWellFormed. intros H.
  assert (Hkeys : map fst (mapSet key e c)
                  = if existsb (String.eqb key) (map fst c)
                    then map fst c else map fst c ++ [key]).
  { clear H. induction c as [|[k e0] c IH]; simpl; [reflexivity|].
    rewrite (String.eqb_sym key k).
    destruct (String.eqb_spec k key) as [->|Hk]; simpl; [reflexivity|].
    rewrite IH. now destruct (existsb _ (map fst c)). }
  rewrite Hkeys. destruct (existsb _ (map fst c)) eqn:E; [exact H|].
  apply NoDup_app; auto.
  - repeat constructor. intros [].
  - intros a Ha [Heq|[]]. subst a.
    assert (Hex : existsb (String.eqb key) (map fst c) = true).
    { apply existsb_exists. exists key. split; [exact Ha|apply String.eqb_refl]. }
    congruence.
Qed.

(** X11: a value stored with [set] at time [now] is returned by [get] (which
    then leaves the cache alone) as long as no more than its time to live,
    2000 ms unless given, has passed; later [get] returns nothing and
    deletes the entry.  A [set] changes the answer for no other key, and
    after [clear] there is no answer for any key. *)
Theorem cache_set_then_get :
  forall (now now' : Z) (key : string) (data0 : T) (ttl0 : option Z)
         (cache : Cache),
    let lifetime := match ttl0 with Some t => t | None => 2000%Z end in
    let cache' := TodoCache.set T now key data0 ttl0 cache in
    ((now' - now <= lifetime)%Z ->
     TodoCache.get T now' key cache' = (Some data0, cache'))
    /\ ((lifetime < now' - now)%Z ->
        fst (TodoCache.get T now' key cache') = None
        /\ mapGet key (snd (TodoCache.get T now' key cache')) = None)
    /\ (forall key', key' <> key ->
                     fst (TodoCache.get T now' key' cache')
                     = fst (TodoCache.get T now' key' cache))
    /\ (forall key', TodoCache.get T now' key' (TodoCache.clear T cache')
                     = (None, [])).
Proof.
  intros now now' key data0 ttl0 cache lifetime cache'.
  assert (Hget : mapGet key cache'
                 = Some (TodoCache.mkEntry T data0 now lifetime)).
  { apply mapGet_mapSet_same. }
  split; [|split; [|split]].
  - intros Hle. unfold TodoCache.get. rewrite Hget. simpl.
    destruct (Z.ltb_spec lifetime (now' - now)); [lia|reflexivity].
  - intros Hlt. unfold TodoCache.get. rewrite Hget. simpl.
    destruct (Z.ltb_spec lifetime (now' - now)); [|lia]. simpl.
    split; [reflexivity|apply mapGet_mapDelete_same].
  - intros key' Hne. unfold TodoCache.get, cache', TodoCache.set.
    rewrite mapGet_mapSet_other by exact Hne.
    destruct (mapGet key' cache) as [e|]; [|reflexivity].
    now destruct (_ <? _)%Z.
  - reflexivity.
Qed.

End CacheFacts.

Lemma cache_set_then_get_witness :
  TodoCache.get nat 3000 "k" (TodoCache.set nat 1000 "k" 7%nat None [])
  = (Some 7%nat, TodoCache.set nat 1000 "k" 7%nat None []).
Proof.
  apply (proj1 (cache_set_then_get nat 1000 3000 "k" 7%nat None [])).
  lia.
Defined.

(** X12: [set] and [cleanup] keep the cache well formed (a key held once);
    [cleanup] deletes exactly the expired entries and is not seen by [get]: at the time of the cleanup or later
    [get] answers for every key what it would have answered without it. *)
Theorem cache_cleanup_unseen :
  forall (T : Type) (now : Z) (cache : TodoCache.Cache T),
    cacheWellFormed cache ->
    cacheWellFormed (TodoCache.cleanup T now cache)
    /\ (forall key data0 ttl0,
           cacheWellFormed (TodoCache.set T now key data0 ttl0 cache))
    /\ (forall key entry,
           In (key, entry) (TodoCache.cleanup T now cache)
           <-> In (key, entry) cache /\ ~ expiredAt now entry)
    /\ (forall now' key,
           (now <= now')%Z ->
           fst (TodoCache.get T now' key (TodoCache.cleanup T now cache))
           = fst (TodoCache.get T now' key cache)).
Proof.
  intros T now cache Hwf. unfold TodoCache.cleanup.
  set (expired := fun ke : string * TodoCache.CacheEntry T =>
                    (TodoCache.ttl T (snd ke)
                     <? now - TodoCache.timestamp T (snd ke))%Z).
  assert (Hkeys : forall key,
             In key (map fst (filter expired cache))
             <-> exists entry, In (key, entry) cache /\ expiredAt now entry).
  { intros key. rewrite in_map_iff. split.
    - intros [[k e] [Hk Hin]]. simpl in Hk. subst k. apply filter_In in Hin.
      destruct Hin as [Hin He]. exists e. split; [exact Hin|].
      unfold expired in He. simpl in He. now apply Z.ltb_lt in He.
    - intros [e [Hin He]]. exists (key, e). split; [reflexivity|].
      apply filter_In. split; [exact Hin|]. unfold expired. simpl.
      now apply Z.ltb_lt. }
  split; [now apply deleteAll_wellFormed|].
  split; [intros; now apply mapSet_wellFormed|]. split.
  - intros key entry. rewrite In_deleteAll. simpl. rewrite Hkeys. split.
    + intros [Hin Hno]. split; [exact Hin|]. intros He. apply Hno.
      now exists entry.
    + intros [Hin Hno]. split; [exact Hin|]. intros [e' [Hin' He']].
      apply Hno.
      pose proof (In_mapGet T _ _ _ Hwf Hin') as H'.
      pose proof (In_mapGet T _ _ _ Hwf Hin) as H.
      rewrite H in H'. injection H' as ->. exact He'.
  - intros now' key Hle. unfold TodoCache.get. rewrite mapGet_deleteAll.
    destruct (existsb (String.eqb key) (map fst (filter expired cache))) eqn:E.
    + apply existsb_exists in E. destruct E as [k [Hk Ek]].
      apply String.eqb_eq in Ek. subst k. apply Hkeys in Hk.
      destruct Hk as [e [Hin He]]. rewrite (In_mapGet T _ _ _ Hwf Hin).
      unfold expiredAt in He.
      destruct (Z.ltb_spec (TodoCache.ttl T e)
                  (now' - TodoCache.timestamp T e)); [reflexivity|lia].
    + destruct (TodoCache.mapGet T key cache) as [e|] eqn:Eg; [|reflexivity].
      now destruct (_ <? _)%Z.
Qed.

Lemma cache_cleanup_unseen_witness :
  cacheWellFormed (TodoCache.cleanup nat 5000 cacheTwo)
  /\ (forall key data0 ttl0,
         cacheWellFormed (TodoCache.set nat 5000 key data0 ttl0 cacheTwo))
  /\ (forall key entry,
         In (key, entry) (TodoCache.cleanup nat 5000 cacheTwo)
         <-> In (key, entry) cacheTwo /\ ~ expiredAt 5000 entry)
  /\ (forall now' key,
         (5000 <= now')%Z ->
         fst (TodoCache.get nat now' key (TodoCache.cleanup nat 5000 cacheTwo))
         = fst (TodoCache.get nat now' key cacheTwo)).
Proof.
  apply (cache_cleanup_unseen nat 5000 cacheTwo).
  unfold cacheWellFormed. simpl. repeat constructor; simpl; intros H;
    repeat destruct H as [H|H]; discriminate || contradiction.
Defined.

(** ** Persistence *)

Section PersistenceFacts.

Variable FileContent : Type.
Variable pathJoin : string -> string -> string.
Variable A : Type.
Variable parse : FileContent -> Parsed A.
Variable stringify : list A -> FileContent.

Lemma load_after_save (fileName : string) (quiet : bool)
    (workspaceFolders : list string) (filePath : option string)
    (items : list A) (disk disk' : Disk FileContent) :
  (forall l, parse (stringify l) = ParsedArray l) ->
  save FileContent pathJoin A stringify fileName workspaceFolders filePath
    items disk = (disk', None) ->
  load FileContent pathJoin A parse fileName quiet workspaceFolders filePath
    disk' = (items, None).
Proof.
  intros Hcodec. unfold save, load.
  destruct (folderFor workspaceFolders filePath) as [folder|]; [|discriminate].
  unfold saveTo, loadFrom.
  destruct (writeThrows FileContent disk (pathJoin folder fileName));
    [discriminate|].
  intros H. injection H as <-. simpl.
  now rewrite String.eqb_refl, Hcodec.
Qed.

Lemma load_other_file (fileName otherName : string) (quiet : bool)
    (workspaceFolders : list string) (filePath otherPath : option string)
    (items : list A) (disk : Disk FileContent)
    (B : Type) (parseB : FileContent -> Parsed B) :
  (forall f g, pathJoin f otherName <> pathJoin g fileName) ->
  load FileContent pathJoin B parseB otherName quiet workspaceFolders otherPath
    (fst (save FileContent pathJoin A stringify fileName workspaceFolders
            filePath items disk))
  = load FileContent pathJoin B parseB otherName quiet workspaceFolders
      otherPath disk.
Proof.
  intros Hne. unfold save, load.
  destruct (folderFor workspaceFolders filePath) as [folder|]; [|reflexivity].
  destruct (folderFor workspaceFolders otherPath) as [other|]; [|reflexivity].
  unfold saveTo, loadFrom.
  destruct (writeThrows FileContent disk (pathJoin folder fileName));
    [reflexivity|]. simpl.
  destruct (String.eqb_spec (pathJoin other otherName) (pathJoin folder fileName))
    as [E|_]; [now elim (Hne other folder)|reflexivity].
Qed.

Lemma save_failed (fileName : string) (workspaceFolders : list string)
    (filePath : option string) (items : list A)
    (disk disk' : Disk FileContent) (notice : Notice) :
  save FileContent pathJoin A stringify fileName workspaceFolders filePath
    items disk = (disk', Some notice) ->
  disk' = disk.
Proof.
  unfold save. destruct (folderFor workspaceFolders filePath) as [folder|].
  - unfold saveTo.
    destruct (writeThrows FileContent disk (pathJoin folder fileName));
      intros H; injection H as <-; [reflexivity|discriminate].
  - intros H. now injection H as <-.
Qed.

Lemma load_cases (fileName : string) (quiet : bool)
    (workspaceFolders : list string) (filePath : option string)
    (disk : Disk FileContent) (items : list A) (notice : option Notice) :
  load FileContent pathJoin A parse fileName quiet workspaceFolders filePath
    disk = (items, notice) ->
  (items <> [] ->
   exists folder content,
     folderFor workspaceFolders filePath = Some folder
     /\ fileAt FileContent disk (pathJoin folder fileName) = Some content
     /\ parse content = ParsedArray items)
  /\ (notice = Some LoadFailed <->
      exists folder content,
        folderFor workspaceFolders filePath = Some folder
        /\ fileAt FileContent disk (pathJoin folder fileName) = Some content
        /\ parse content = ParseThrows)
  /\ (notice = Some NoWorkspaceFolder <->
      folderFor workspaceFolders filePath = None /\ quiet = false)
  /\ notice <> Some SaveFailed.
Proof.
  unfold load, loadFrom.
  destruct (folderFor workspaceFolders filePath) as [folder|].
  - destruct (fileAt FileContent disk (pathJoin folder fileName))
      as [content|] eqn:Ef.
    + destruct (parse content) as [| |l] eqn:Ep; intros H;
        injection H as <- <-; (split; [|split; [|split]]);
        try (intros Hne; now elim Hne); try discriminate;
        try (split; [discriminate|]).
      * split; [intros _; now exists folder, content|reflexivity].
      * intros [H _]. discriminate H.
      * intros [f [c [Hf [Hc Hp]]]]. injection Hf as <-. congruence.
      * intros [H _]. discriminate H.
      * intros _. now exists folder, content.
      * intros [f [c [Hf [Hc Hp]]]]. injection Hf as <-. congruence.
      * intros [H _]. discriminate H.
    + intros H. injection H as <- <-. split; [|split; [|split]];
        try (intros Hne; now elim Hne); try discriminate;
        split; try discriminate.
      * intros [f [c [Hf [Hc _]]]]. injection Hf as <-. congruence.
      * intros [H _]. discriminate H.
  - intros H. injection H as <- <-. split; [|split; [|split]].
    + intros Hne. now elim Hne.
    + split.
      * destruct quiet; discriminate.
      * intros [f [c [Hf _]]]. discriminate Hf.
    + destruct quiet; split; try discriminate; auto.
      intros [_ H]. discriminate H.
    + destruct quiet; discriminate.
Qed.

End PersistenceFacts.

(** X13: with a JSON codec that reads back the array it wrote, a save that
    reports nothing is followed by a load of the same file path that
    returns the saved list; it changes nothing of what the other store and
    the roster load, their file names being different; and a save that
    reports a failure has written nothing. *)
Theorem store_save_then_load :
  forall (FileContent : Type) (pathJoin : string -> string -> string)
         (parseTodos : FileContent -> Parsed Todo)
         (stringifyTodos : list Todo -> FileContent)
         (parseUsers : FileContent -> Parsed User),
    (forall l, parseTodos (stringifyTodos l) = ParsedArray l) ->
    (forall f g n n',
        In n [".localtodos.json"; ".remotetodos.json"; ".awesometeam.json"] ->
        In n' [".localtodos.json"; ".remotetodos.json"; ".awesometeam.json"] ->
        n <> n' -> pathJoin f n <> pathJoin g n') ->
    forall (workspaceFolders : list string) (filePath otherPath : option string)
           (todos : list Todo) (disk : Disk FileContent),
      let afterLocal :=
        saveTodos FileContent pathJoin stringifyTodos workspaceFolders filePath
          todos disk in
      let afterRemote :=
        saveRemoteTodos FileContent pathJoin stringifyTodos workspaceFolders
          filePath todos disk in
      (snd afterLocal = None ->
       loadTodos FileContent pathJoin parseTodos workspaceFolders filePath
         (fst afterLocal) = (todos, None))
      /\ (snd afterRemote = None ->
          loadRemoteTodos FileContent pathJoin parseTodos workspaceFolders
            filePath (fst afterRemote) = (todos, None))
      /\ loadRemoteTodos FileContent pathJoin parseTodos workspaceFolders
           otherPath (fst afterLocal)
         = loadRemoteTodos FileContent pathJoin parseTodos workspaceFolders
             otherPath disk
      /\ loadTodos FileContent pathJoin parseTodos workspaceFolders otherPath
           (fst afterRemote)
         = loadTodos FileContent pathJoin parseTodos workspaceFolders otherPath
             disk
      /\ loadTeamMembers FileContent pathJoin parseUsers workspaceFolders
           otherPath (fst afterLocal)
         = loadTeamMembers FileContent pathJoin parseUsers workspaceFolders
             otherPath disk
      /\ loadTeamMembers FileContent pathJoin parseUsers workspaceFolders
           otherPath (fst afterRemote)
         = loadTeamMembers FileContent pathJoin parseUsers workspaceFolders
             otherPath disk
      /\ (snd afterLocal <> None -> fst afterLocal = disk)
      /\ (snd afterRemote <> None -> fst afterRemote = disk).
Proof.
  intros FileContent pathJoin parseTodos stringifyTodos parseUsers Hcodec Hjoin
         workspaceFolders filePath otherPath todos disk afterLocal afterRemote.
  split.
  { intros H. apply (load_after_save _ _ _ _ stringifyTodos _ _ _ _ _ disk);
      [exact Hcodec|]. fold (saveTodos FileContent pathJoin stringifyTodos
      workspaceFolders filePath todos disk). fold afterLocal.
    destruct afterLocal as [d n]. simpl in *. now subst n. }
  split.
  { intros H. apply (load_after_save _ _ _ _ stringifyTodos _ _ _ _ _ disk);
      [exact Hcodec|]. fold (saveRemoteTodos FileContent pathJoin stringifyTodos
      workspaceFolders filePath todos disk). fold afterRemote.
    destruct afterRemote as [d n]. simpl in *. now subst n. }
  split; [apply load_other_file; intros; apply Hjoin;
          simpl; auto; discriminate|].
  split; [apply load_other_file; intros; apply Hjoin;
          simpl; auto; discriminate|].
  split; [apply load_other_file; intros; apply Hjoin;
          simpl; auto; discriminate|].
  split; [apply load_other_file; intros; apply Hjoin;
          simpl; auto; discriminate|].
  split.
  - intros H. destruct (snd afterLocal) as [notice|] eqn:E; [|now elim H].
    apply (save_failed _ pathJoin _ stringifyTodos ".localtodos.json"
             workspaceFolders filePath todos disk _ notice).
    fold (saveTodos FileContent pathJoin stringifyTodos workspaceFolders
            filePath todos disk). fold afterLocal.
    destruct afterLocal as [d n]. simpl in *. now subst n.
  - intros H. destruct (snd afterRemote) as [notice|] eqn:E; [|now elim H].
    apply (save_failed _ pathJoin _ stringifyTodos ".remotetodos.json"
             workspaceFolders filePath todos disk _ notice).
    fold (saveRemoteTodos FileContent pathJoin stringifyTodos workspaceFolders
            filePath todos disk). fold afterRemote.
    destruct afterRemote as [d n]. simpl in *. now subst n.
Qed.

Lemma length_list_of_string (s : string) :
  List.length (list_ascii_of_string s) = String.length s.
Proof. induction s as [|c s IH]; simpl; [reflexivity|now rewrite IH]. Qed.

(** Two joined paths differ when the file names end differently. *)
Lemma joinSlash_differ (k : nat) (f g n n' : string) :
  (k <= String.length n)%nat -> (k <= String.length n')%nat ->
  firstn k (rev (list_ascii_of_string n))
  <> firstn k (rev (list_ascii_of_string n')) ->
  joinSlash f n <> joinSlash g n'.
Proof.
  intros Hn Hn' Hne H. apply Hne.
  apply (f_equal (fun s => firstn k (rev (list_ascii_of_string s)))) in H.
  unfold joinSlash in H.
  rewrite !list_ascii_of_string_app, !rev_app_distr in H.
  rewrite <- !length_list_of_string in Hn, Hn'.
  rewrite <- !app_assoc in H.
  rewrite !firstn_app in H.
  replace (k - List.length (rev (list_ascii_of_string n)))%nat with 0%nat in H
    by (rewrite length_rev; lia).
  replace (k - List.length (rev (list_ascii_of_string n')))%nat with 0%nat in H
    by (rewrite length_rev; lia).
  rewrite !firstn_O, !app_nil_r in H. exact H.
Qed.

Lemma joinSlash_names (f g n n' : string) :
  In n [".localtodos.json"; ".remotetodos.json"; ".awesometeam.json"] ->
  In n' [".localtodos.json"; ".remotetodos.json"; ".awesometeam.json"] ->
  n <> n' -> joinSlash f n <> joinSlash g n'.
Proof.
  intros Hn Hn' Hne. apply (joinSlash_differ 16).
  - simpl in Hn. repeat destruct Hn as [<-|Hn]; simpl; try lia; contradiction.
  - simpl in Hn'. repeat destruct Hn' as [<-|Hn']; simpl; try lia; contradiction.
  - simpl in Hn, Hn'.
    repeat destruct Hn as [<-|Hn]; try contradiction;
      repeat destruct Hn' as [<-|Hn']; try contradiction;
      try (now elim Hne); vm_compute; discriminate.
Qed.

Lemma store_save_then_load_witness :
  loadTodos (list Todo) joinSlash ParsedArray ["/p"] (Some "/p/a.ts")
    (fst (saveTodos (list Todo) joinSlash (fun l => l) ["/p"] (Some "/p/a.ts")
            [localFix] (emptyDisk (list Todo))))
  = ([localFix], None).
Proof.
  apply (proj1 (store_save_then_load (list Todo) joinSlash ParsedArray
                  (fun l => l) (fun _ => NotAnArray)
                  (fun l => eq_refl) joinSlash_names
                  ["/p"] (Some "/p/a.ts") None [localFix]
                  (emptyDisk (list Todo)))).
  reflexivity.
Defined.

(** X14: [addTeamMember] on the disk.  An email the stored roster has is
    refused and nothing is written.  Otherwise the answer is true; when the
    roster file can be written, a following [loadTeamMembers] returns the
    former roster followed by the new member; when it cannot (no workspace
    folder, or a failing write) the disk is left as it was, the answer
    being true all the same. *)
Theorem addTeamMember_on_disk :
  forall (FileContent : Type) (pathJoin : string -> string -> string)
         (parseUsers : FileContent -> Parsed User)
         (stringifyUsers : list User -> FileContent),
    (forall l, parseUsers (stringifyUsers l) = ParsedArray l) ->
    forall (workspaceFolders : list string) (name0 email0 : string)
           (disk : Disk FileContent),
      let team :=
        fst (loadTeamMembers FileContent pathJoin parseUsers workspaceFolders
               None disk) in
      let result :=
        addTeamMemberOnDisk FileContent pathJoin parseUsers stringifyUsers
          workspaceFolders name0 email0 disk in
      (In email0 (map email team) -> result = (disk, false))
      /\ (~ In email0 (map email team) ->
          snd result = true
          /\ forall folder,
               hd_error workspaceFolders = Some folder ->
               (writeThrows FileContent disk
                  (pathJoin folder ".awesometeam.json") = false ->
                loadTeamMembers FileContent pathJoin parseUsers
                  workspaceFolders None (fst result)
                = (team ++ [mkUser name0 email0], None))
               /\ (writeThrows FileContent disk
                     (pathJoin folder ".awesometeam.json") = true ->
                   fst result = disk))
      /\ (workspaceFolders = [] -> result = (disk, true)).
Proof.
  intros FileContent pathJoin parseUsers stringifyUsers Hcodec
         workspaceFolders name0 email0 disk team result.
  unfold result, addTeamMemberOnDisk. fold team.
  split; [|split].
  - intros Hin. rewrite addTeamMember_known; [reflexivity|].
    destruct (hasEmail team email0) eqn:E; [reflexivity|].
    apply hasEmail_false in E. contradiction.
  - intros Hnew. apply hasEmail_false in Hnew.
    rewrite (addTeamMember_new _ _ _ Hnew). split; [reflexivity|].
    intros folder Hfolder. unfold saveTeamMembers, save, folderFor.
    rewrite Hfolder. unfold saveTo. split.
    + intros Hw. rewrite Hw. simpl.
      unfold loadTeamMembers, load, folderFor. rewrite Hfolder.
      unfold loadFrom. simpl. now rewrite String.eqb_refl, Hcodec.
    + intros Hw. now rewrite Hw.
  - intros ->. subst team. simpl. reflexivity.
Qed.

Lemma addTeamMember_on_disk_witness :
  snd (addTeamMemberOnDisk (list User) joinSlash ParsedArray (fun l => l)
         ["/p"] "C" "c@x.com" (emptyDisk (list User))) = true
  /\ forall folder,
       hd_error ["/p"] = Some folder ->
       (writeThrows (list User) (emptyDisk (list User))
          (joinSlash folder ".awesometeam.json") = false ->
        loadTeamMembers (list User) joinSlash ParsedArray ["/p"] None
          (fst (addTeamMemberOnDisk (list User) joinSlash ParsedArray
                  (fun l => l) ["/p"] "C" "c@x.com" (emptyDisk (list User))))
        = (fst (loadTeamMembers (list User) joinSlash ParsedArray ["/p"] None
                  (emptyDisk (list User)))
           ++ [mkUser "C" "c@x.com"], None))
       /\ (writeThrows (list User) (emptyDisk (list User))
             (joinSlash folder ".awesometeam.json") = true ->
           fst (addTeamMemberOnDisk (list User) joinSlash ParsedArray
                  (fun l => l) ["/p"] "C" "c@x.com" (emptyDisk (list User)))
           = emptyDisk (list User)).
Proof.
  apply (proj1 (proj2 (addTeamMember_on_disk (list User) joinSlash ParsedArray
                         (fun l => l) (fun l => eq_refl) ["/p"] "C" "c@x.com"
                         (emptyDisk (list User))))).
  simpl. intros [].
Defined.

(** ** The workspace folder of a file *)

Lemma find_first {A : Type} (f : A -> bool) (l : list A) (x : A) :
  find f l = Some x ->
  exists before after,
    l = before ++ x :: after /\ f x = true
    /\ forall y, In y before -> f y = false.
Proof.
  induction l as [|a l IH]; simpl; [discriminate|].
  destruct (f a) eqn:E.
  - intros H. injection H as <-. exists [], l. simpl. repeat split; auto.
    intros y [].
  - intros H. destruct (IH H) as [before [after [-> [Hx Hb]]]].
    exists (a :: before), after. simpl. repeat split; auto.
    intros y [<-|Hy]; auto.
Qed.

(** X15: the stores of a file are those of the first workspace folder whose
    path the path of the file starts with, as a string; when there is no
    such folder they are those of the first workspace folder; there is no
    answer only when no folder is open. *)
Theorem getWorkspaceFolderForFile_choice :
  forall (workspaceFolders : list string) (filePath : string),
    (getWorkspaceFolderForFile workspaceFolders filePath = None
     <-> workspaceFolders = [])
    /\ forall folder,
         getWorkspaceFolderForFile workspaceFolders filePath = Some folder ->
         In folder workspaceFolders
         /\ ((exists before after,
                 workspaceFolders = before ++ folder :: after
                 /\ String.prefix folder filePath = true
                 /\ forall other, In other before ->
                                  String.prefix other filePath = false)
             \/ (hd_error workspaceFolders = Some folder
                 /\ forall other, In other workspaceFolders ->
                                  String.prefix other filePath = false)).
Proof.
  intros workspaceFolders filePath. unfold getWorkspaceFolderForFile.
  destruct (find _ workspaceFolders) as [f|] eqn:E.
  - split.
    + split; [discriminate|]. intros ->. discriminate E.
    + intros folder H. injection H as <-.
      destruct (find_first _ _ _ E) as [before [after [Hl [Hf Hb]]]].
      split.
      * rewrite Hl. apply in_or_app. right. now left.
      * left. now exists before, after.
  - split.
    + destruct workspaceFolders; simpl; split; try discriminate; auto.
    + intros folder H. split.
      * destruct workspaceFolders as [|a l]; [discriminate|].
        injection H as <-. now left.
      * right. split; [exact H|]. intros other Hin.
        now apply (find_none _ _ E).
Qed.

Lemma getWorkspaceFolderForFile_choice_witness :
  In "/work/app" ["/other"; "/work/app"; "/work"]
  /\ ((exists before after,
          ["/other"; "/work/app"; "/work"] = before ++ "/work/app" :: after
          /\ String.prefix "/work/app" "/work/application/a.ts" = true
          /\ forall other, In other before ->
                           String.prefix other "/work/application/a.ts" = false)
      \/ (hd_error ["/other"; "/work/app"; "/work"] = Some "/work/app"
          /\ forall other, In other ["/other"; "/work/app"; "/work"] ->
                           String.prefix other "/work/application/a.ts" = false)).
Proof.
  apply (proj2 (getWorkspaceFolderForFile_choice
                  ["/other"; "/work/app"; "/work"] "/work/application/a.ts")).
  reflexivity.
Defined.

(** ** The .gitignore entries *)

Module GitIgnoreFacts.

Lemma splitLines_nonempty (l : list ascii) : splitLines l <> [].
Proof.
  induction l as [|c l IH]; simpl; [discriminate|].
  destruct (Ascii.eqb c newline); [discriminate|].
  destruct (splitLines l); [now elim IH|discriminate].
Qed.

Lemma splitLines_line (x rest : list ascii) :
  Forall (fun c => c <> newline) x ->
  splitLines (x ++ newline :: rest) = x :: splitLines rest.
Proof.
  induction 1 as [|c x Hc _ IH]; simpl.
  - reflexivity.
  - destruct (Ascii.eqb_spec c newline) as [E|_]; [now elim Hc|].
    now rewrite IH.
Qed.

Lemma splitLines_join (ls : list (list ascii)) :
  ls <> [] -> Forall (Forall (fun c => c <> newline)) ls ->
  splitLines (joinLines ls ++ [newline]) = ls ++ [[]].
Proof.
  induction ls as [|x ls IH]; intros Hne Hall; [now elim Hne|].
  inversion Hall as [|? ? Hx Hrest]; subst.
  destruct ls as [|y more].
  - simpl. now rewrite splitLines_line.
  - change (joinLines (x :: y :: more))
      with (x ++ newline :: joinLines (y :: more)).
    set (J := joinLines (y :: more)) in *.
    replace ((x ++ newline :: J) ++ [newline])
      with (x ++ newline :: (J ++ [newline]))
      by (rewrite <- app_assoc; reflexivity).
    rewrite splitLines_line by exact Hx.
    rewrite IH; [reflexivity|discriminate|exact Hrest].
Qed.

Lemma splitLines_clean (l : list ascii) :
  Forall (Forall (fun c => c <> newline)) (splitLines l).
Proof.
  induction l as [|c l IH]; simpl; [repeat constructor|].
  destruct (Ascii.eqb_spec c newline) as [E|Hc]; [now constructor|].
  destruct (splitLines l) as [|cur more]; [repeat constructor; exact Hc|].
  inversion IH; subst. constructor; [now constructor|assumption].
Qed.

Lemma trimmed_lines_clean (l : list ascii) :
  Forall cleanLine (map trimL (splitLines l)).
Proof.
  pose proof (splitLines_clean l) as H. induction H as [|x ls Hx _ IH]; simpl;
    constructor; auto.
  split; [apply trimL_idem|now apply trimL_Forall].
Qed.

Lemma entry_clean (e : string) :
  In e [".localtodos.json"; ".awesometeam.json"] ->
  cleanLine (list_ascii_of_string e).
Proof.
  simpl. intros [<-|[<-|[]]]; (split; [reflexivity|]);
    repeat constructor; discriminate.
Qed.

Lemma isLineOf_nonempty (entries : list string) (ln : list ascii) :
  Forall (fun e => e <> "") entries ->
  isLineOf entries ln = true -> (List.length ln =? 0)%nat = false.
Proof.
  intros Hne H. unfold isLineOf in H. apply existsb_exists in H.
  destruct H as [e [Hin He]]. apply String.eqb_eq in He.
  rewrite Forall_forall in Hne. specialize (Hne e Hin).
  destruct ln; [now elim Hne; rewrite <- He|reflexivity].
Qed.

Lemma existsb_kept (entries : list string) (ls : list (list ascii)) :
  Forall (fun e => e <> "") entries ->
  existsb (isLineOf entries) ls = true ->
  existsb (isLineOf entries)
          (filter (fun ln => negb (List.length ln =? 0)%nat) ls ++ [[]]) = true.
Proof.
  intros Hne H. apply existsb_exists in H. destruct H as [x [Hin Hx]].
  apply existsb_exists. exists x. split; [|exact Hx].
  apply in_or_app. left. apply filter_In. split; [exact Hin|].
  now rewrite (isLineOf_nonempty _ _ Hne Hx).
Qed.

Lemma map_trimL_clean (ls : list (list ascii)) :
  Forall cleanLine ls -> map trimL ls = ls.
Proof.
  induction 1 as [|x ls [Hx _] _ IH]; simpl; [reflexivity|].
  now rewrite Hx, IH.
Qed.

(** The lines after the two checks: the trimmed lines of the content, then
    the entries that were missing. *)
Lemma gitIgnoreLines_spec (content : string) :
  let lines0 := map trimL (splitLines (list_ascii_of_string content)) in
  let missing1 :=
    if listsEntry [".localtodos.json"; "*.localtodos.json"] content
    then [] else [list_ascii_of_string ".localtodos.json"] in
  let missing2 :=
    if listsEntry [".awesometeam.json"; "*.awesometeam.json"] content
    then [] else [list_ascii_of_string ".awesometeam.json"] in
  gitIgnoreLines content
  = (lines0 ++ missing1 ++ missing2,
     negb (listsEntry [".localtodos.json"; "*.localtodos.json"] content
           && listsEntry [".awesometeam.json"; "*.awesometeam.json"] content)).
Proof.
  unfold gitIgnoreLines, listsEntry.
  set (lines0 := map trimL (splitLines (list_ascii_of_string content))).
  set (h1 := existsb (isLineOf [".localtodos.json"; "*.localtodos.json"]) lines0).
  set (h2 := existsb (isLineOf [".awesometeam.json"; "*.awesometeam.json"]) lines0).
  destruct h1; cbn [negb].
  - fold h2. destruct h2; cbn [negb andb app]; [now rewrite app_nil_r|reflexivity].
  - rewrite existsb_app. fold h2.
    change (existsb (isLineOf [".awesometeam.json"; "*.awesometeam.json"])
              [list_ascii_of_string ".localtodos.json"]) with false.
    rewrite orb_false_r.
    destruct h2; cbn [negb andb app]; [reflexivity|].
    now rewrite <- app_assoc.
Qed.

End GitIgnoreFacts.
Import GitIgnoreFacts.

(** X16: [ensureGitIgnoreEntries] writes nothing exactly when the content
    already lists .localtodos.json (or *.localtodos.json) and
    .awesometeam.json (or *.awesometeam.json) as lines.  What it writes
    otherwise lists both, so a second run writes nothing; its lines are the
    non-empty lines of the former content, trimmed and in their order,
    followed by the entries that were missing. *)
Theorem ensureGitIgnoreEntries_once :
  forall (existing : option string),
    let content := match existing with Some c => c | None => "" end in
    let has1 := listsEntry [".localtodos.json"; "*.localtodos.json"] content in
    let has2 := listsEntry [".awesometeam.json"; "*.awesometeam.json"] content in
    (ensureGitIgnoreEntries existing = None <-> has1 = true /\ has2 = true)
    /\ forall written,
         ensureGitIgnoreEntries existing = Some written ->
         ensureGitIgnoreEntries (Some written) = None
         /\ listsEntry [".localtodos.json"; "*.localtodos.json"] written = true
         /\ listsEntry [".awesometeam.json"; "*.awesometeam.json"] written = true
         /\ splitLines (list_ascii_of_string written)
            = filter (fun ln => negb (List.length ln =? 0)%nat)
                (map trimL (splitLines (list_ascii_of_string content)))
              ++ (if has1 then [] else [list_ascii_of_string ".localtodos.json"])
              ++ (if has2 then [] else [list_ascii_of_string ".awesometeam.json"])
              ++ [[]].
Proof.
  intros existing content has1 has2.
  assert (Hrun : forall c,
             ensureGitIgnoreEntries (Some c)
             = let '(lines0, needsUpdate) := gitIgnoreLines c in
               if needsUpdate then
                 Some (string_of_list_ascii
                         (joinLines (filter (fun ln => negb (List.length ln =? 0)%nat)
                                            lines0) ++ [newline]))
               else None) by reflexivity.
  assert (Hsame : ensureGitIgnoreEntries existing
                  = ensureGitIgnoreEntries (Some content)).
  { destruct existing; reflexivity. }
  rewrite Hsame, Hrun, gitIgnoreLines_spec. fold has1 has2.
  set (lines0 := map trimL (splitLines (list_ascii_of_string content))).
  set (missing1 := if has1 then [] else [list_ascii_of_string ".localtodos.json"]).
  set (missing2 := if has2 then [] else [list_ascii_of_string ".awesometeam.json"]).
  split.
  { destruct has1, has2; simpl; split; try discriminate; try tauto;
      intros [H1 H2]; discriminate. }
  intros written Hw.
  destruct (negb (has1 && has2)) eqn:Eneed; [|discriminate].
  injection Hw as <-.
  set (kept := filter (fun ln => negb (List.length ln =? 0)%nat)
                 (lines0 ++ missing1 ++ missing2)).
  (* the lines written *)
  assert (Hclean : Forall cleanLine (lines0 ++ missing1 ++ missing2)).
  { apply Forall_app. split; [apply trimmed_lines_clean|].
    apply Forall_app. split.
    - unfold missing1. destruct has1; constructor; [|constructor].
      apply entry_clean. simpl. auto.
    - unfold missing2. destruct has2; constructor; [|constructor].
      apply entry_clean. simpl. auto. }
  assert (Hkclean : Forall cleanLine kept).
  { unfold kept. rewrite Forall_forall in *. intros x Hx.
    apply filter_In in Hx. apply Hclean, Hx. }
  assert (Hfilter : kept = filter (fun ln => negb (List.length ln =? 0)%nat) lines0
                           ++ missing1 ++ missing2).
  { unfold kept. rewrite !filter_app. f_equal. f_equal.
    - unfold missing1. now destruct has1.
    - unfold missing2. now destruct has2. }
  assert (Hne : kept <> []).
  { rewrite Hfilter. unfold missing1, missing2.
    destruct has1, has2; simpl in Eneed; try discriminate Eneed;
      intros E; apply app_eq_nil in E; destruct E as [_ E];
      simpl in E; discriminate E. }
  assert (Hsplit : splitLines (list_ascii_of_string
                                 (string_of_list_ascii
                                    (joinLines kept ++ [newline])))
                   = kept ++ [[]]).
  { rewrite list_ascii_of_string_of_list_ascii. apply splitLines_join; auto.
    revert Hkclean. apply Forall_impl. intros x [_ Hx]. exact Hx. }
  assert (Hlines : map trimL (kept ++ [[]]) = kept ++ [[]]).
  { rewrite map_app, (map_trimL_clean _ Hkclean). reflexivity. }
  (* both entries are among them *)
  assert (H1 : existsb (isLineOf [".localtodos.json"; "*.localtodos.json"])
                 (lines0 ++ missing1 ++ missing2) = true).
  { rewrite !existsb_app. unfold missing1, has1, listsEntry. fold lines0.
    destruct (existsb (isLineOf [".localtodos.json"; "*.localtodos.json"])
                lines0); [reflexivity|]. simpl. rewrite ?orb_true_r.
    reflexivity. }
  assert (H2 : existsb (isLineOf [".awesometeam.json"; "*.awesometeam.json"])
                 (lines0 ++ missing1 ++ missing2) = true).
  { rewrite !existsb_app. unfold missing2, has2, listsEntry. fold lines0.
    destruct (existsb (isLineOf [".awesometeam.json"; "*.awesometeam.json"])
                lines0); [reflexivity|]. simpl. rewrite ?orb_true_r.
    reflexivity. }
  assert (Hl1 : listsEntry [".localtodos.json"; "*.localtodos.json"]
                  (string_of_list_ascii (joinLines kept ++ [newline])) = true).
  { unfold listsEntry. rewrite Hsplit, Hlines. apply existsb_kept; auto.
    repeat constructor; discriminate. }
  assert (Hl2 : listsEntry [".awesometeam.json"; "*.awesometeam.json"]
                  (string_of_list_ascii (joinLines kept ++ [newline])) = true).
  { unfold listsEntry. rewrite Hsplit, Hlines. apply existsb_kept; auto.
    repeat constructor; discriminate. }
  split; [|split; [exact Hl1|split; [exact Hl2|]]].
  - rewrite Hrun, gitIgnoreLines_spec, Hl1, Hl2. reflexivity.
  - rewrite Hsplit, Hfilter. now rewrite <- !app_assoc.
Qed.

Lemma ensureGitIgnoreEntries_once_witness :
  ensureGitIgnoreEntries
    (Some "node_modules

  .localtodos.json  ")
  = Some "node_modules
.localtodos.json
.awesometeam.json
"
  /\ ensureGitIgnoreEntries
       (Some "node_modules
.localtodos.json
.awesometeam.json
") = None.
Proof.
  split; [reflexivity|].
  apply (proj2 (ensureGitIgnoreEntries_once
                  (Some "node_modules

  .localtodos.json  "))
           "node_modules
.localtodos.json
.awesometeam.json
").
  reflexivity.
Defined.

(** ** The detection test and the comment-only test *)

Module DetectFacts.

Arguments charEqI : simpl never.
Arguments isSpace : simpl never.
Arguments isDot : simpl never.

(** An anchored pattern matches at the start of the input or nowhere. *)
Lemma search_Bol (r : regex) (l : list ascii) :
  forall i, search (Seq Bol r) (S i) l = None.
Proof.
  induction l as [|c l IH]; intros i; simpl; [reflexivity|]. apply IH.
Qed.

Lemma test_anchored (r : regex) (s : string) :
  test (Seq Bol r) s
  = match m r Some (mkState 0 (list_ascii_of_string s) []) with
    | Some _ => true
    | None => false
    end.
Proof.
  unfold test, exec, execFrom. simpl (_ <? _)%nat. simpl skipn.
  destruct (list_ascii_of_string s) as [|c l]; simpl.
  - now destruct (m r Some _).
  - destruct (m r Some _); [reflexivity|]. now rewrite search_Bol.
Qed.

(** The pieces of a marker *)
Lemma todoMarkerAt_split (l : list ascii) :
  todoMarkerAt l = true ->
  exists pre run t o d o' tail,
    l = pre ++ run ++ t :: o :: d :: o' :: tail
    /\ (pre = ["/"%char; "/"%char] \/ pre = ["#"%char])
    /\ forallb isSpace run = true
    /\ charEqI "T" t = true /\ charEqI "O" o = true
    /\ charEqI "D" d = true /\ charEqI "O" o' = true.
Proof.
  unfold todoMarkerAt. destruct (afterPrefix l) as [tl|] eqn:HP; [|discriminate].
  intros Hkw. destruct (trimStartL_split tl) as [run [Htl Hall]].
  destruct (trimStartL tl) as [|t [|o [|d [|o' tail]]]] eqn:Ekw;
    simpl in Hkw; try discriminate.
  apply andb_true_iff in Hkw. destruct Hkw as [Hkw H4].
  apply andb_true_iff in Hkw. destruct Hkw as [Hkw H3].
  apply andb_true_iff in Hkw. destruct Hkw as [H1 H2].
  assert (Hpre : exists pre, l = pre ++ tl
                   /\ (pre = ["/"%char; "/"%char] \/ pre = ["#"%char])).
  { unfold afterPrefix in HP. destruct l as [|c l']; [discriminate|].
    destruct (Ascii.eqb_spec c "#") as [->|_].
    - injection HP as ->. exists ["#"%char]. auto.
    - destruct (Ascii.eqb_spec c "/") as [->|_]; [|discriminate].
      destruct l' as [|c2 l2]; [discriminate|].
      destruct (Ascii.eqb_spec c2 "/") as [->|_]; [|discriminate].
      injection HP as ->. exists ["/"%char; "/"%char]. auto. }
  destruct Hpre as [pre [Hl Hpre]].
  exists pre, run, t, o, d, o', tail. rewrite Hl, Htl. repeat split; auto.
Qed.

Lemma matches_Lit_intro (c d : ascii) (i : nat) (tl : list ascii)
    (caps : list (nat * (nat * nat))) :
  charEqI c d = true ->
  matches (Lit c) (mkState i (d :: tl) caps) (mkState (S i) tl caps).
Proof. intros H. exists d. simpl. auto. Qed.

Lemma matches_kwTODO_intro (t o d o' : ascii) (i : nat) (tl : list ascii)
    (caps : list (nat * (nat * nat))) :
  charEqI "T" t = true -> charEqI "O" o = true ->
  charEqI "D" d = true -> charEqI "O" o' = true ->
  matches kwTODO (mkState i (t :: o :: d :: o' :: tl) caps)
    (mkState (i + 4) tl caps).
Proof.
  intros H1 H2 H3 H4. unfold kwTODO.
  exists (mkState (S i) (o :: d :: o' :: tl) caps).
  split; [now apply matches_Lit_intro|].
  exists (mkState (S (S i)) (d :: o' :: tl) caps).
  split; [now apply matches_Lit_intro|].
  exists (mkState (S (S (S i))) (o' :: tl) caps).
  split; [now apply matches_Lit_intro|].
  replace (i + 4)%nat with (S (S (S (S i)))) by lia.
  now apply matches_Lit_intro.
Qed.

Lemma matches_prefixG_intro (n1 n2 : nat) (pre tl : list ascii) (i : nat)
    (caps : list (nat * (nat * nat))) :
  pre = ["/"%char; "/"%char] \/ pre = ["#"%char] ->
  exists caps',
    matches (prefixG n1 n2) (mkState i (pre ++ tl) caps)
      (mkState (i + List.length pre) tl caps').
Proof.
  intros [-> | ->]; simpl; unfold prefixG.
  - exists ((n1, (i, i + 2)) :: (n2, (i, i + 2)) :: caps).
    exists (mkState (i + 2) tl ((n2, (i, i + 2)) :: caps)).
    split; [left|reflexivity].
    exists (mkState (i + 2) tl caps). split; [|reflexivity].
    exists (mkState (S i) ("/"%char :: tl) caps).
    split; [now apply matches_Lit_intro|].
    replace (i + 2)%nat with (S (S i)) by lia.
    now apply matches_Lit_intro.
  - exists ((n1, (i, i + 1)) :: caps).
    exists (mkState (i + 1) tl caps). split; [right|reflexivity].
    replace (i + 1)%nat with (S i) by lia.
    now apply matches_Lit_intro.
Qed.

Lemma matches_Star_intro (g : bool) (p : ascii -> bool) (run tl : list ascii)
    (i : nat) (caps : list (nat * (nat * nat))) :
  forallb p run = true ->
  matches (Star g p) (mkState i (run ++ tl) caps)
    (mkState (i + List.length run) tl caps).
Proof. intros H. exists run. simpl. auto. Qed.

(** The head shared by the anchored patterns, from a marker *)
Lemma matches_head (n1 n2 : nat) (l : list ascii) (i : nat)
    (caps : list (nat * (nat * nat))) :
  todoMarkerAt l = true ->
  exists j tail caps',
    matches (Seq (prefixG n1 n2) (Seq ws kwTODO)) (mkState i l caps)
      (mkState j tail caps')
    /\ exists k, l = firstn k l ++ tail.
Proof.
  intros H.
  destruct (todoMarkerAt_split _ H)
    as [pre [run [t [o [d [o2 [tail [-> [Hpre [Hrun [H1 [H2 [H3 H4]]]]]]]]]]]]].
  destruct (matches_prefixG_intro n1 n2 pre
              (run ++ t :: o :: d :: o2 :: tail) i caps Hpre) as [caps' MP].
  eexists. exists tail, caps'. split.
  - eexists. split; [exact MP|].
    eexists. split; [now apply matches_Star_intro|].
    now apply matches_kwTODO_intro.
  - exists (List.length (pre ++ run ++ [t; o; d; o2])).
    replace (pre ++ run ++ t :: o :: d :: o2 :: tail)
      with ((pre ++ run ++ [t; o; d; o2]) ++ tail)
      by (rewrite <- !app_assoc; reflexivity).
    now rewrite firstn_app, firstn_all, Nat.sub_diag, firstn_O, app_nil_r.
Qed.

Lemma detect_iff_marker (text : string) :
  test detectRegex text = todoMarkerAt (list_ascii_of_string text).
Proof.
  unfold detectRegex. rewrite test_anchored.
  set (l := list_ascii_of_string text).
  destruct (m _ Some (mkState 0 l [])) as [res|] eqn:E.
  - symmetry. apply m_Seq_inv in E. destruct E as [s1 [M1 E]].
    apply m_Seq_inv in E. destruct E as [s2 [M2 E]].
    apply m_Seq_inv in E. destruct E as [s3 [M3 _]].
    destruct (matches_prefixG _ _ _ _ M1) as [HP _]. simpl in HP.
    refine (marker_of_pieces _ _ _ _ _ HP _ M2 M3). reflexivity.
  - destruct (todoMarkerAt l) eqn:Hm; [|reflexivity]. exfalso.
    destruct (matches_head 1 2 l 0 [] Hm) as [j [tail [caps' [M _]]]].
    revert E. apply (m_complete _ _ _ (mkState j tail caps')); [|discriminate].
    destruct M as [s1 [MP [s2 [Mws Mkw]]]].
    exists s1. split; [exact MP|]. exists s2. split; [exact Mws|].
    eexists. split; [exact Mkw|].
    exists (mkState j tail caps'). split; [right; reflexivity|].
    exists []. simpl. rewrite Nat.add_0_r. auto.
Qed.

Lemma isDot_tail (l : list ascii) (k : nat) (tail : list ascii) :
  forallb isDot l = true -> l = firstn k l ++ tail -> forallb isDot tail = true.
Proof.
  intros H E. rewrite E in H. rewrite forallb_app in H.
  apply andb_true_iff in H. tauto.
Qed.

(** On a text without line terminators that starts with a marker, the
    comment-only test succeeds. *)
Lemma comment_of_marker (text : string) :
  singleLine text ->
  todoMarkerAt (list_ascii_of_string text) = true ->
  test commentRegex text = true.
Proof.
  intros Hline Hm. unfold commentRegex. rewrite test_anchored.
  set (l := list_ascii_of_string text) in *.
  destruct (m _ Some (mkState 0 l [])) as [res|] eqn:E; [reflexivity|]. exfalso.
  destruct (matches_head 2 3 l 0 [(1, (0, 0))] Hm)
    as [j [tail [caps' [M [k Hk]]]]].
  pose proof (isDot_tail _ _ _ Hline Hk) as Htail.
  revert E.
  apply (m_complete _ _ _ (mkState (j + List.length tail) [] caps'));
    [|discriminate].
  exists (mkState 0 l [(1, (0, 0))]). split.
  { exists (mkState 0 l []). split; [|reflexivity].
    exists []. simpl. auto. }
  destruct M as [s1 [MP [s2 [Mws Mkw]]]].
  exists s1. split; [exact MP|]. exists s2. split; [exact Mws|].
  eexists. split; [exact Mkw|].
  exists (mkState j tail caps'). split; [right; reflexivity|].
  exists (mkState (j + List.length tail) [] caps'). split.
  - exists tail. simpl. rewrite app_nil_r. auto.
  - simpl. auto.
Qed.

Lemma singleLine_trim (s : string) : singleLine s -> singleLine (trim s).
Proof.
  unfold singleLine, trim. rewrite list_ascii_of_string_of_list_ascii.
  rewrite !forallb_forall. intros H c Hc.
  destruct (trimL_infix (list_ascii_of_string s)) as [pre [post E]].
  apply H. rewrite E. apply in_or_app. right. apply in_or_app. now left.
Qed.

End DetectFacts.
Import DetectFacts.

(** ** What a conversion does to the document *)

Lemma deleteLine_lines (d : TextDocument) (n : nat) (t : string) :
  nth_error (lines d) n = Some t ->
  lines (deleteLine d n)
  = firstn n (lines d)
    ++ (if (S n =? List.length (lines d))%nat then [""] else [])
    ++ skipn (S n) (lines d).
Proof.
  intros Hn. unfold deleteLine.
  destruct (S n =? List.length (lines d))%nat eqn:E; unfold setLines;
    cbn [lines app]; [|reflexivity].
  apply Nat.eqb_eq in E. now rewrite (skipn_all2 (lines d)) by lia.
Qed.

(** X17: a conversion is offered on a line, by [provideCodeActions] as by
    [offersConvert], exactly when the trimmed text of the line starts with a
    TODO marker; on a line without line terminators the conversion offered
    finds the line to hold nothing but the comment and deletes it whole
    (the last line of a document is emptied instead), so that the document
    keeps all its other lines in their order; so does a remote conversion
    that stores a record. *)
Theorem offered_conversion_deletes_line :
  forall (document : TextDocument) (lineNumber : Z) (lineText : string),
    lineAt document lineNumber = Some lineText ->
    (offersConvert document lineNumber
     = if todoMarkerAt (list_ascii_of_string (trim lineText))
       then Some (trim lineText) else None)
    /\ (forall text existingTodos todos' document',
           singleLine lineText ->
           offersConvert document lineNumber = Some text ->
           localConvertTodo document lineNumber text existingTodos
             = Some (todos', document') ->
           let n := Z.to_nat lineNumber in
           lines document'
           = firstn n (lines document)
             ++ (if (S n =? List.length (lines document))%nat then [""] else [])
             ++ skipn (S n) (lines document))
    /\ (forall env text now nowMs existingTodos todos' document',
           singleLine lineText ->
           offersConvert document lineNumber = Some text ->
           remoteConvertTodo env document lineNumber text now nowMs
             existingTodos = Some (todos', document') ->
           todos' <> existingTodos ->
           let n := Z.to_nat lineNumber in
           lines document'
           = firstn n (lines document)
             ++ (if (S n =? List.length (lines document))%nat then [""] else [])
             ++ skipn (S n) (lines document)).
Proof.
  intros document lineNumber lineText Hline.
  assert (Hoffer : offersConvert document lineNumber
                   = if todoMarkerAt (list_ascii_of_string (trim lineText))
                     then Some (trim lineText) else None).
  { unfold offersConvert. now rewrite Hline, detect_iff_marker. }
  assert (Hnth : nth_error (lines document) (Z.to_nat lineNumber)
                 = Some lineText).
  { unfold lineAt in Hline.
    destruct (lineNumber <? 0)%Z; [discriminate|exact Hline]. }
  split; [exact Hoffer|]. split.
  - intros text existingTodos todos' document' Hsingle Hoff Hconv n.
    rewrite Hoffer in Hoff.
    destruct (todoMarkerAt _) eqn:Hm; [|discriminate]. injection Hoff as <-.
    unfold localConvertTodo in Hconv. rewrite Hline in Hconv.
    destruct (extractTodos _ _ _); [|discriminate]. injection Hconv as _ <-.
    unfold removeTodoComment.
    rewrite (comment_of_marker _ (singleLine_trim _ Hsingle) Hm).
    now apply (deleteLine_lines _ _ lineText).
  - intros env text now nowMs existingTodos todos' document' Hsingle Hoff
           Hconv Hchanged n.
    rewrite Hoffer in Hoff.
    destruct (todoMarkerAt _) eqn:Hm; [|discriminate]. injection Hoff as <-.
    unfold remoteConvertTodo in Hconv.
    destruct (getGitUserInfo env) as [u|].
    2:{ injection Hconv as <- _. now elim Hchanged. }
    rewrite Hline in Hconv.
    destruct (negb (truthy _)).
    { injection Hconv as <- _. now elim Hchanged. }
    injection Hconv as _ <-. unfold removeTodoComment.
    rewrite (comment_of_marker _ (singleLine_trim _ Hsingle) Hm).
    now apply (deleteLine_lines _ _ lineText).
Qed.

Lemma offered_conversion_deletes_line_witness :
  let n := Z.to_nat 1 in
  lines (mkDocument "/p/a.ts" "typescript"
           ["function f() {"; "  return 1;"; "}"])
  = firstn n (lines docC)
    ++ (if (S n =? List.length (lines docC))%nat then [""] else [])
    ++ skipn (S n) (lines docC).
Proof.
  apply (proj1 (proj2 (offered_conversion_deletes_line docC 1
                         "  // TODO: fix bug" eq_refl))
           "// TODO: fix bug" [] [annotationAt "/p/a.ts" 1 2 "fix bug"]);
    reflexivity.
Defined.

(** ** The code actions *)

Lemma filter_singleton {A : Type} (f : A -> bool) (l : list A) (x : A) :
  filter f l = [x] ->
  In x l /\ f x = true /\ forall y, In y l -> f y = true -> y = x.
Proof.
  intros H.
  assert (Hx : In x (filter f l)) by (rewrite H; now left).
  apply filter_In in Hx. destruct Hx as [Hin Hf]. repeat split; auto.
  intros y Hy Hfy.
  assert (Hy' : In y (filter f l)) by (apply filter_In; auto).
  rewrite H in Hy'. destruct Hy' as [<-|[]]. reflexivity.
Qed.

Lemma localEditActions_In (document : TextDocument) (lineNumber : Z)
    (localTodos : list Todo) (a : CodeAction) :
  In a (localEditActions document lineNumber localTodos) ->
  (command a = "localTodo.editTodosInFile"
   /\ arguments a = ArgsDocument document)
  \/ (command a = "localTodo.editTodosInLine"
      /\ exists ts, arguments a = ArgsTodos document lineNumber ts)
  \/ (command a = "localTodo.editTodo"
      /\ exists t,
           arguments a = ArgsTodo document lineNumber t
           /\ filter (fun todo => Z.eqb (line todo) lineNumber)
                (filter (fun todo => String.eqb (file todo) (fsPath document))
                        localTodos) = [t]).
Proof.
  unfold localEditActions.
  destruct (0 <? List.length _)%nat; [|intros []].
  destruct (filter (fun todo => Z.eqb (line todo) lineNumber) _)
    as [|t [|t2 more]] eqn:E; intros [<-|[]]; simpl.
  - left. auto.
  - right. right. split; [reflexivity|]. now exists t.
  - right. left. split; [reflexivity|]. eexists. reflexivity.
Qed.

Lemma remoteEditActions_In (document : TextDocument) (lineNumber : Z)
    (env : GitEnv) (allRemoteTodos : list Todo) (a : CodeAction) :
  In a (remoteEditActions document lineNumber env allRemoteTodos) ->
  exists u,
    getGitUserInfo env = Some u
    /\ ((command a = "remoteTodo.listTodos" /\ arguments a = ArgsNone)
        \/ ((command a = "remoteTodo.editTodo"
             \/ command a = "remoteTodo.assignTodo")
            /\ exists t,
                 arguments a = ArgsTodo document lineNumber t
                 /\ filter (fun todo => Z.eqb (line todo) lineNumber)
                      (filter (fun todo => String.eqb (file todo)
                                             (fsPath document))
                         (filterVisibleRemoteTodos allRemoteTodos (email u)))
                    = [t])).
Proof.
  unfold remoteEditActions. destruct (getGitUserInfo env) as [u|]; [|intros []].
  intros H. exists u. split; [reflexivity|].
  destruct (0 <? List.length _)%nat; [|destruct H].
  destruct (filter (fun todo => Z.eqb (line todo) lineNumber) _)
    as [|t [|t2 more]] eqn:E.
  - destruct H as [<-|[]]. left. auto.
  - destruct H as [<-|[<-|[]]]; right; simpl; (split; [auto|now exists t]).
  - destruct H as [<-|[]]. left. auto.
Qed.

Lemma provideCodeActions_actions (document : TextDocument) (lineNumber : Z)
    (env : GitEnv) (localTodos allRemoteTodos : list Todo) (lineText : string)
    (r : option (list CodeAction)) :
  lineAt document lineNumber = Some lineText ->
  provideCodeActions document lineNumber env localTodos allRemoteTodos
    = Some r ->
  let actions :=
    (if todoMarkerAt (list_ascii_of_string (trim lineText))
     then convertActionsFor document lineNumber (trim lineText) else [])
    ++ localEditActions document lineNumber localTodos
    ++ remoteEditActions document lineNumber env allRemoteTodos in
  r = match actions with [] => None | _ => Some actions end.
Proof.
  intros Hline H actions. unfold provideCodeActions in H.
  rewrite Hline, detect_iff_marker in H. injection H as <-.
  fold (convertActionsFor document lineNumber (trim lineText)).
  fold actions. now destruct actions.
Qed.

(** X18: [provideCodeActions] answers undefined rather than an empty list.
    The two conversions, local first, head its answer exactly when the
    trimmed text of the line starts with a TODO marker, whether or not a git
    identity is known; no other action it gives runs a conversion. *)
Theorem code_actions_offer_conversion :
  forall (document : TextDocument) (lineNumber : Z) (env : GitEnv)
         (localTodos allRemoteTodos : list Todo) (lineText : string)
         (r : option (list CodeAction)),
    lineAt document lineNumber = Some lineText ->
    provideCodeActions document lineNumber env localTodos allRemoteTodos
      = Some r ->
    r <> Some []
    /\ exists others,
         (forall a, In a others ->
                    command a <> "localTodo.convertTodo"
                    /\ command a <> "remoteTodo.convertTodo")
         /\ (todoMarkerAt (list_ascii_of_string (trim lineText)) = true ->
             r = Some (convertActionsFor document lineNumber (trim lineText)
                       ++ others))
         /\ (todoMarkerAt (list_ascii_of_string (trim lineText)) = false ->
             r = match others with [] => None | _ => Some others end).
Proof.
  intros document lineNumber env localTodos allRemoteTodos lineText r Hline H.
  pose proof (provideCodeActions_actions _ _ _ _ _ _ _ Hline H) as Hr.
  cbv zeta in Hr. split.
  { rewrite Hr. now destruct (_ ++ _). }
  exists (localEditActions document lineNumber localTodos
          ++ remoteEditActions document lineNumber env allRemoteTodos).
  split; [|split].
  - intros a Ha. apply in_app_or in Ha. destruct Ha as [Ha|Ha].
    + apply localEditActions_In in Ha.
      destruct Ha as [[-> _]|[[-> _]|[-> _]]]; split; discriminate.
    + apply remoteEditActions_In in Ha.
      destruct Ha as [u [_ [[-> _]|[[-> | ->] _]]]]; split; discriminate.
  - intros Hm. rewrite Hm in Hr. exact Hr.
  - intros Hm. rewrite Hm in Hr. exact Hr.
Qed.

Lemma code_actions_offer_conversion_witness :
  Some (convertActionsFor docC 1 "// TODO: fix bug"
        ++ [mkCodeAction "Edit Local TODOs" "localTodo.editTodosInFile"
              "Edit Local TODOs" (ArgsDocument docC)])
  <> Some []
  /\ exists others,
       (forall a, In a others ->
                  command a <> "localTodo.convertTodo"
                  /\ command a <> "remoteTodo.convertTodo")
       /\ (todoMarkerAt (list_ascii_of_string (trim "  // TODO: fix bug")) = true ->
           Some (convertActionsFor docC 1 "// TODO: fix bug"
                 ++ [mkCodeAction "Edit Local TODOs" "localTodo.editTodosInFile"
                       "Edit Local TODOs" (ArgsDocument docC)])
           = Some (convertActionsFor docC 1 (trim "  // TODO: fix bug")
                   ++ others))
       /\ (todoMarkerAt (list_ascii_of_string (trim "  // TODO: fix bug")) = false ->
           Some (convertActionsFor docC 1 "// TODO: fix bug"
                 ++ [mkCodeAction "Edit Local TODOs" "localTodo.editTodosInFile"
                       "Edit Local TODOs" (ArgsDocument docC)])
           = match others with [] => None | _ => Some others end).
Proof.
  apply (code_actions_offer_conversion docC 1 noGit [storedAt2] [remoteOfBob]
           "  // TODO: fix bug"); reflexivity.
Defined.

(** X19: when [provideCodeActions] gives the action that runs
    [localTodo.editTodo], the record it passes is the only record of the
    local store on that file and line; the reverse conversion run with the
    arguments of the action removes that record from the store and no
    other. *)
Theorem code_action_edit_local_exact :
  forall (document : TextDocument) (lineNumber : Z) (env : GitEnv)
         (localTodos allRemoteTodos : list Todo) (lineText : string)
         (actions : list CodeAction) (a : CodeAction),
    lineAt document lineNumber = Some lineText ->
    provideCodeActions document lineNumber env localTodos allRemoteTodos
      = Some (Some actions) ->
    In a actions ->
    command a = "localTodo.editTodo" ->
    exists t todos' document',
      arguments a = ArgsTodo document lineNumber t
      /\ In t localTodos
      /\ file t = fsPath document /\ line t = lineNumber
      /\ localEditTodo document lineNumber t localTodos
         = Some (todos', document')
      /\ forall u, In u todos' <-> In u localTodos /\ u <> t.
Proof.
  intros document lineNumber env localTodos allRemoteTodos lineText actions a
         Hline H Hin Hcmd.
  pose proof (provideCodeActions_actions _ _ _ _ _ _ _ Hline H) as Hr.
  cbv zeta in Hr.
  assert (Hacts : In a
            ((if todoMarkerAt (list_ascii_of_string (trim lineText))
              then convertActionsFor document lineNumber (trim lineText) else [])
             ++ localEditActions document lineNumber localTodos
             ++ remoteEditActions document lineNumber env allRemoteTodos)).
  { destruct (_ ++ _) as [|x xs]; [discriminate Hr|].
    injection Hr as <-. exact Hin. }
  apply in_app_or in Hacts. destruct Hacts as [Ha|Ha].
  { destruct (todoMarkerAt _); [|destruct Ha].
    destruct Ha as [<-|[<-|[]]]; discriminate Hcmd. }
  apply in_app_or in Ha. destruct Ha as [Ha|Ha].
  2:{ apply remoteEditActions_In in Ha.
      destruct Ha as [u [_ [[E _]|[[E|E] _]]]]; rewrite E in Hcmd;
        discriminate Hcmd. }
  apply localEditActions_In in Ha.
  destruct Ha as [[E _]|[[E _]|[_ [t [Hargs Hone]]]]];
    try (rewrite E in Hcmd; discriminate Hcmd).
  apply filter_singleton in Hone. destruct Hone as [Hin1 [Hl Honly]].
  apply filter_In in Hin1. destruct Hin1 as [Hin1 Hf].
  apply String.eqb_eq in Hf. apply Z.eqb_eq in Hl.
  destruct (localEditTodo_spec document lineNumber t localTodos lineText Hline)
    as [todos' [document' [Hedit [_ Hstore]]]].
  exists t, todos', document'. repeat (split; [assumption|]).
  intros u. rewrite Hstore. split.
  - intros [Hu Hno]. split; [exact Hu|]. intros ->. apply Hno. auto.
  - intros [Hu Hne]. split; [exact Hu|]. intros [Hfu Hlu]. apply Hne.
    apply Honly.
    + apply filter_In. split; [exact Hu|]. now apply String.eqb_eq.
    + now apply Z.eqb_eq.
Qed.

Lemma code_action_edit_local_exact_witness :
  exists t todos' document',
    arguments (mkCodeAction "Edit Local TODO" "localTodo.editTodo"
                 "Edit Local TODO" (ArgsTodo docC 2 storedAt2))
    = ArgsTodo docC 2 t
    /\ In t [storedAt2; fixBug]
    /\ file t = fsPath docC /\ line t = 2%Z
    /\ localEditTodo docC 2 t [storedAt2; fixBug] = Some (todos', document')
    /\ forall u, In u todos' <-> In u [storedAt2; fixBug] /\ u <> t.
Proof.
  apply (code_action_edit_local_exact docC 2 noGit [storedAt2; fixBug]
           [remoteOfBob] "  return 1;"
           [mkCodeAction "Edit Local TODO" "localTodo.editTodo"
              "Edit Local TODO" (ArgsTodo docC 2 storedAt2)]);
    try reflexivity.
  now left.
Defined.

(** X20: the actions of [provideCodeActions] that carry a stored remote
    record exist only with a git identity, and the record they carry is a
    remote record of the store, on that file and line, whose author or one
    of whose assignees has the email of that identity. *)
Theorem code_actions_remote_only_visible :
  forall (document : TextDocument) (lineNumber : Z) (env : GitEnv)
         (localTodos allRemoteTodos : list Todo) (lineText : string)
         (actions : list CodeAction) (a : CodeAction),
    lineAt document lineNumber = Some lineText ->
    provideCodeActions document lineNumber env localTodos allRemoteTodos
      = Some (Some actions) ->
    In a actions ->
    command a = "remoteTodo.editTodo" \/ command a = "remoteTodo.assignTodo" ->
    exists u t,
      getGitUserInfo env = Some u
      /\ arguments a = ArgsTodo document lineNumber t
      /\ In t allRemoteTodos
      /\ type t = remote
      /\ file t = fsPath document /\ line t = lineNumber
      /\ viewerConcerned (email u) t.
Proof.
  intros document lineNumber env localTodos allRemoteTodos lineText actions a
         Hline H Hin Hcmd.
  pose proof (provideCodeActions_actions _ _ _ _ _ _ _ Hline H) as Hr.
  cbv zeta in Hr.
  assert (Hacts : In a
            ((if todoMarkerAt (list_ascii_of_string (trim lineText))
              then convertActionsFor document lineNumber (trim lineText) else [])
             ++ localEditActions document lineNumber localTodos
             ++ remoteEditActions document lineNumber env allRemoteTodos)).
  { destruct (_ ++ _) as [|x xs]; [discriminate Hr|].
    injection Hr as <-. exact Hin. }
  apply in_app_or in Hacts. destruct Hacts as [Ha|Ha].
  { destruct (todoMarkerAt _); [|destruct Ha].
    destruct Ha as [<-|[<-|[]]]; destruct Hcmd as [E|E]; discriminate E. }
  apply in_app_or in Ha. destruct Ha as [Ha|Ha].
  { apply localEditActions_In in Ha.
    destruct Ha as [[E _]|[[E _]|[E _]]]; rewrite E in Hcmd;
      destruct Hcmd as [E'|E']; discriminate E'. }
  apply remoteEditActions_In in Ha.
  destruct Ha as [u [Hu [[E _]|[_ [t [Hargs Hone]]]]]].
  { rewrite E in Hcmd. destruct Hcmd as [E'|E']; discriminate E'. }
  apply filter_singleton in Hone. destruct Hone as [Hin1 [Hl _]].
  apply filter_In in Hin1. destruct Hin1 as [Hin1 Hf].
  apply String.eqb_eq in Hf. apply Z.eqb_eq in Hl.
  apply filterVisible_In in Hin1. destruct Hin1 as [Hin1 [Ht Hv]].
  exists u, t. repeat (split; [assumption|]). exact Hv.
Qed.

Lemma code_actions_remote_only_visible_witness :
  exists u t,
    getGitUserInfo (mkGitEnv true (Some "Bob") (Some "bob@x.com")) = Some u
    /\ arguments (mkCodeAction "Assign Remote TODO" "remoteTodo.assignTodo"
                    "Assign Remote TODO" (ArgsTodo docC 2 remoteOfBob))
       = ArgsTodo docC 2 t
    /\ In t [remoteOfBob; recordAB]
    /\ type t = remote
    /\ file t = fsPath docC /\ line t = 2%Z
    /\ viewerConcerned (email u) t.
Proof.
  apply (code_actions_remote_only_visible docC 2
           (mkGitEnv true (Some "Bob") (Some "bob@x.com")) []
           [remoteOfBob; recordAB] "  return 1;"
           [mkCodeAction "Edit Remote TODO" "remoteTodo.editTodo"
              "Edit Remote TODO" (ArgsTodo docC 2 remoteOfBob);
            mkCodeAction "Assign Remote TODO" "remoteTodo.assignTodo"
              "Assign Remote TODO" (ArgsTodo docC 2 remoteOfBob)]);
    try reflexivity.
  - right. now left.
  - now right.
Defined.

(** ** The email of a new assignee *)

Module AssigneeFacts.

Arguments isSpace : simpl never.

Lemma isSpace_toLowerChar (c : ascii) : isSpace (toLowerChar c) = isSpace c.
Proof. destruct c as [[] [] [] [] [] [] [] []]; reflexivity. Qed.

Lemma noLeadSpace_lower (l : list ascii) :
  noLeadSpace l -> noLeadSpace (map toLowerChar l).
Proof.
  destruct l as [|c l]; simpl; [auto|]. now rewrite isSpace_toLowerChar.
Qed.

(** Lower-casing a trimmed text leaves it trimmed. *)
Lemma trim_toLowerCase_trim (s : string) :
  trim (toLowerCase (trim s)) = toLowerCase (trim s).
Proof.
  unfold trim, toLowerCase. rewrite !list_ascii_of_string_of_list_ascii.
  f_equal. apply trimL_fixed.
  - apply noLeadSpace_lower, trimL_noLead.
  - rewrite <- map_rev. apply noLeadSpace_lower, trimL_noTrail.
Qed.

Lemma askAssigneeEmail_spec (currentAssignees : list User) :
  forall attemptsLeft answers e,
    askAssigneeEmail attemptsLeft answers currentAssignees = Some e ->
    (exists x, In (Some x) (firstn attemptsLeft answers) /\ e = trim x)
    /\ e <> "" /\ includesChar "@" e = true
    /\ forall a, In a currentAssignees ->
                 trim (toLowerCase (email a)) <> toLowerCase e.
Proof.
  induction attemptsLeft as [|n IH]; intros answers e H; simpl in H;
    [discriminate|].
  destruct answers as [|[x|] more]; try discriminate.
  destruct (negb (truthy x)); [discriminate|].
  assert (Hnext : askAssigneeEmail n more currentAssignees = Some e ->
                  (exists x0, In (Some x0) (firstn (S n) (Some x :: more))
                              /\ e = trim x0)
                  /\ e <> "" /\ includesChar "@" e = true
                  /\ forall a, In a currentAssignees ->
                               trim (toLowerCase (email a)) <> toLowerCase e).
  { intros H'. destruct (IH _ _ H') as [[x0 [Hin He]] Hrest].
    split; [|exact Hrest]. exists x0. simpl. auto. }
  destruct (negb (truthy (trim x))) eqn:E1; [auto|].
  destruct (negb (includesChar "@" (trim x))) eqn:E2; [auto|].
  destruct (existsb _ currentAssignees) eqn:E3; [auto|].
  injection H as <-. apply negb_false_iff in E1, E2.
  split; [exists x; simpl; auto|]. split; [now apply truthy_true|].
  split; [exact E2|]. intros a Ha Heq.
  assert (Hex : existsb (fun a0 => String.eqb (trim (toLowerCase (email a0)))
                                     (toLowerCase (trim x)))
                  currentAssignees = true).
  { apply existsb_exists. exists a. split; [exact Ha|].
    rewrite Heq. apply String.eqb_refl. }
  congruence.
Qed.

Lemma askAssigneeEmail_fresh (currentAssignees : list User)
    (attemptsLeft : nat) (answers : list (option string)) (e : string) :
  askAssigneeEmail attemptsLeft answers currentAssignees = Some e ->
  ~ In e (map email currentAssignees).
Proof.
  intros H Hin. destruct (askAssigneeEmail_spec _ _ _ _ H)
    as [[x [_ He]] [_ [_ Hfresh]]].
  apply in_map_iff in Hin. destruct Hin as [a [Ha Hin]].
  apply (Hfresh a Hin). rewrite Ha, He. apply trim_toLowerCase_trim.
Qed.

Lemma askAssigneeEmail_firstn (currentAssignees : list User) :
  forall attemptsLeft answers,
    askAssigneeEmail attemptsLeft answers currentAssignees
    = askAssigneeEmail attemptsLeft (firstn attemptsLeft answers)
        currentAssignees.
Proof.
  induction attemptsLeft as [|n IH]; intros answers; [reflexivity|].
  destruct answers as [|[x|] more]; simpl; try reflexivity.
  destruct (negb (truthy x)); [reflexivity|].
  destruct (negb (truthy (trim x))); [apply IH|].
  destruct (negb (includesChar "@" (trim x))); [apply IH|].
  destruct (existsb _ currentAssignees); [apply IH|reflexivity].
Qed.

Lemma updateAt_Forall_at (P : Todo -> Prop) (f : Todo -> Todo) :
  forall (todos : list Todo) (i : nat) (t0 : Todo),
    nth_error todos i = Some t0 ->
    Forall P todos -> P (f t0) -> Forall P (updateAt i f todos).
Proof.
  induction todos as [|t tl IH]; intros [|i] t0 Hn Hall Hf; simpl in *;
    try discriminate.
  - injection Hn as ->. inversion Hall; subst. now constructor.
  - inversion Hall; subst. constructor; [assumption|]. now apply (IH i t0).
Qed.

Lemma assignOptions_AddExisting (currentAssignees teamMembers : list User)
    (i : nat) (user : User) :
  nth_error (assignOptions currentAssignees teamMembers) i
    = Some (AddExisting user) ->
  In user teamMembers /\ ~ In (email user) (map email currentAssignees).
Proof.
  intros H. apply nth_error_In in H. unfold assignOptions in H.
  apply in_app_or in H. destruct H as [H|H].
  { apply in_map_iff in H. destruct H as [x [Hx _]]. discriminate Hx. }
  apply in_app_or in H. destruct H as [H|H].
  - apply in_map_iff in H. destruct H as [x [Hx Hin]]. injection Hx as ->.
    apply filter_In in Hin. destruct Hin as [Hin Hf]. split; [exact Hin|].
    apply negb_true_iff in Hf. now apply hasEmail_false.
  - destruct H as [H|[H|[]]]; discriminate H.
Qed.

Lemma NoDup_emails_snoc (l : list User) (user : User) :
  NoDup (map email l) -> ~ In (email user) (map email l) ->
  NoDup (map email (l ++ [user])).
Proof.
  intros H Hnew. rewrite map_app. apply NoDup_app; auto.
  - simpl. repeat constructor. intros [].
  - intros a Ha [<-|[]]. contradiction.
Qed.

End AssigneeFacts.
Import AssigneeFacts.

(** X21: the email the "add new" loop of [remoteTodo.assignTodo] accepts is
    the trimmed text of one of the first three answers; it is not empty,
    holds an @ and is the email of no current assignee, also when letter
    case is ignored; answers after the third are never read. *)
Theorem askAssigneeEmail_accepts :
  forall (answers : list (option string)) (currentAssignees : list User),
    askAssigneeEmail 3 answers currentAssignees
    = askAssigneeEmail 3 (firstn 3 answers) currentAssignees
    /\ forall e,
         askAssigneeEmail 3 answers currentAssignees = Some e ->
         (exists x, In (Some x) (firstn 3 answers) /\ e = trim x)
         /\ e <> "" /\ includesChar "@" e = true
         /\ ~ In e (map email currentAssignees)
         /\ forall a, In a currentAssignees ->
                      trim (toLowerCase (email a)) <> toLowerCase e.
Proof.
  intros answers currentAssignees. split; [apply askAssigneeEmail_firstn|].
  intros e H. destruct (askAssigneeEmail_spec _ _ _ _ H) as [H1 [H2 [H3 H4]]].
  repeat (split; [assumption|]). split; [|exact H4].
  now apply (askAssigneeEmail_fresh _ _ _ _ H).
Qed.

Lemma askAssigneeEmail_accepts_witness :
  (exists x, In (Some x)
               (firstn 3 [Some "carol"; Some " A@X.com "; Some " carol@x.com ";
                          Some "dave@x.com"])
             /\ "carol@x.com" = trim x)
  /\ "carol@x.com" <> "" /\ includesChar "@" "carol@x.com" = true
  /\ ~ In "carol@x.com" (map email teamAB)
  /\ forall a, In a teamAB ->
               trim (toLowerCase (email a)) <> toLowerCase "carol@x.com".
Proof.
  apply (proj2 (askAssigneeEmail_accepts
                  [Some "carol"; Some " A@X.com "; Some " carol@x.com ";
                   Some "dave@x.com"] teamAB) "carol@x.com").
  reflexivity.
Defined.

(** ** Assignees stay unique by email *)

Section AssigneesUnique.

Variable now : string.
Variable todos : list Todo.
Hypothesis Hinv : Forall assigneesUnique todos.

Lemma pushAssignee_unique (user : User) (t : Todo) :
  assigneesUnique t ->
  (forall l, assignees t = Some l -> ~ In (email user) (map email l)) ->
  assigneesUnique (setUpdatedAt now (pushAssignee user t)).
Proof.
  unfold assigneesUnique, pushAssignee. destruct (assignees t) as [l|] eqn:E.
  - simpl. intros H Hnew. apply NoDup_emails_snoc; auto.
  - simpl. rewrite E. auto.
Qed.

Lemma remoteAssignTodo_assigneesUnique (todo : Todo) (script : AssignScript)
    (teamMembers : list User) :
  Forall assigneesUnique
    (fst (remoteAssignTodo todo script now todos teamMembers)).
Proof.
  unfold remoteAssignTodo.
  destruct (findIndexById todos (id todo)) as [todoIndex|]; [|exact Hinv].
  destruct (nth_error todos todoIndex) as [currentTodo|] eqn:Hcur; [|exact Hinv].
  assert (Hc : assigneesUnique currentTodo).
  { rewrite Forall_forall in Hinv. apply Hinv. eapply nth_error_In; eauto. }
  destruct (assignPick script) as [i|]; [|exact Hinv].
  destruct (nth_error _ i) as [[user|user| |]|] eqn:Hopt; try exact Hinv.
  - match goal with |- context [if ?b then _ else _] => destruct b end;
      [exact Hinv|]. cbn [fst].
    apply (updateAt_Forall_at _ _ _ _ currentTodo Hcur Hinv).
    unfold assigneesUnique in *. simpl.
    destruct (assignees currentTodo) as [l|]; simpl.
    + now apply map_filter_NoDup.
    + constructor.
  - cbn [fst]. apply (updateAt_Forall_at _ _ _ _ currentTodo Hcur Hinv).
    apply pushAssignee_unique; [exact Hc|]. intros l Hl.
    rewrite Hl in Hopt. now apply assignOptions_AddExisting in Hopt.
  - match goal with
    | |- context [askAssigneeEmail ?n ?a ?c] =>
        destruct (askAssigneeEmail n a c) as [assigneeEmail|] eqn:Hask
    end; [|exact Hinv].
    destruct (nameAnswer script) as [assigneeName|]; [|exact Hinv].
    destruct (negb (truthy assigneeName)); [exact Hinv|]. cbn [fst].
    apply (updateAt_Forall_at _ _ _ _ currentTodo Hcur Hinv).
    apply pushAssignee_unique; [exact Hc|]. intros l Hl.
    rewrite Hl in Hask. simpl. now apply askAssigneeEmail_fresh in Hask.
Qed.

End AssigneesUnique.

(** X22: no two assignees of a remote record share an email: this holds of
    a record as it is created, and [remoteTodo.assignTodo] keeps it true of
    every record of the store, whatever is picked and answered. *)
Theorem assignees_stay_unique :
  forall (now : string) (nowMs : Z) (todos : list Todo),
    (forall file0 lineNumber message0 userInfo,
        assigneesUnique
          (newRemoteTodo file0 lineNumber message0 userInfo now nowMs))
    /\ (Forall assigneesUnique todos ->
        forall todo script teamMembers,
          Forall assigneesUnique
            (fst (remoteAssignTodo todo script now todos teamMembers))).
Proof.
  intros now nowMs todos. split.
  - intros. unfold assigneesUnique. simpl. repeat constructor. intros [].
  - intros H todo script teamMembers.
    now apply remoteAssignTodo_assigneesUnique.
Qed.

Lemma assignees_stay_unique_witness :
  Forall assigneesUnique
    (fst (remoteAssignTodo recordAB addNewCarol "2024-02-02T00:00:00.000Z"
            [recordAB] [])).
Proof.
  apply (proj2 (assignees_stay_unique "2024-02-02T00:00:00.000Z" 1700 [recordAB])).
  constructor; [|constructor]. unfold assigneesUnique. simpl.
  repeat constructor; simpl; intros H;
    repeat destruct H as [H|H]; discriminate || contradiction.
Defined.

(** ** Ids under the commands that create no record *)


